(** * speech2text-scripts: a shallow embedding of the media pipeline

    The four scripts of the repository are embedded as Rocq functions:

    - [cut_audio.py]        ([Module CutAudio]): the chunker;
    - [transcribe_audio.py] ([Module Transcribe]): file selection, the
      engine call, the SRT and VTT renderers and their time formatting;
    - [video_to_audio.py]   ([Module VideoToAudio]): the converter;
    - [process_media.py]    ([Module ProcessMedia]): the orchestrator.

    Conventions of the embedding.

    - Python [int] is [Z]; a Python [float] is the rational number it
      denotes ([Q]).  A float operation gives the double nearest to its
      exact result ([Py.nearest_double]); [%] and [//] follow CPython's
      [float_rem] and [_float_div_mod] step by step, and the ["f"]
      presentation of [format] rounds the exact binary value.  The
      number of chunks, [math.ceil] of a true division of two
      integers, is given in closed form and proved to be the ceiling
      of the double quotient for every dividend below 2^53.
    - A Python [str] is a [string]: the sequence of bytes of its UTF-8
      encoding.  Comparing such byte strings lexicographically orders
      them as Python orders the strings themselves (by code point).
    - A [Path] is the string [str(path)]; [a / b] is [path_join a b].
    - The file system is a finite map from paths to file contents and a
      finite set of directories.  External collaborators (pydub's
      loader and exporter, ffmpeg, the Whisper engine, the child
      processes of the orchestrator) are parameters of the functions
      that call them.
    - Of the console output only the chunker's closing report is kept
      (the line that carries its count of saved chunks); the other
      [print] calls are left out.  Every other effect (prompting,
      creating a directory, writing a file, running a tool) is recorded
      in an event trace and applied to the file system. *)

From Stdlib Require Import ZArith QArith Qround Qabs String Ascii List Lia Lqa.
From stdpp Require Import base gmap strings list sorting.
Import ListNotations.

#[local] Open Scope string_scope.
#[local] Open Scope Z_scope.
#[local] Open Scope list_scope.

(** ** Python primitives shared by the scripts *)

Module Py.

(** The outcome of a Python call: a returned value or a raised,
    uncaught exception. *)
Inductive exn : Type :=
  | ZeroDivisionError
  | EOFError
  | OSError.

Inductive outcome (A : Type) : Type :=
  | Returned (a : A)
  | Raised (e : exn).
Arguments Returned {A} a.
Arguments Raised {A} e.

(** *** Decimal presentation of integers *)

Definition digit_char (d : N) : ascii := ascii_of_N (48 + d).

Definition is_digit (c : ascii) : bool :=
  ((48 <=? N_of_ascii c) && (N_of_ascii c <=? 57))%N.

(** Most significant digit first; [fuel] bounds the number of digits. *)
Fixpoint dec_digits_aux (fuel : nat) (n : N) (acc : string) : string :=
  match fuel with
  | O => acc
  | S fuel' =>
      let acc' := String (digit_char (n mod 10)) acc in
      if (n / 10 =? 0)%N then acc' else dec_digits_aux fuel' (n / 10) acc'
  end.

(** [str(n)] for [n >= 0]: a number has no more decimal digits than
    binary ones, so [N.size n] steps (one for zero) are enough. *)
Definition dec_digits (n : N) : string :=
  dec_digits_aux (S (N.to_nat (N.size n))) n "".

Fixpoint zeros (k : nat) : string :=
  match k with
  | O => ""
  | S k' => String "0" (zeros k')
  end.

(** [format(n, "0<width>d")]: the sign, then zeros up to [width]
    characters in all, then the digits. *)
Definition format_0d (width : nat) (n : Z) : string :=
  let sign := if n <? 0 then "-" else "" in
  let digits := dec_digits (Z.abs_N n) in
  sign +:+ zeros (width - (String.length sign + String.length digits)) +:+ digits.

(** Reading a string of digits back: [int(s)] for an unsigned [s]. *)
Definition digit_value (c : ascii) : N := (N_of_ascii c - 48)%N.

Fixpoint parse_dec (s : string) : N :=
  match s with
  | EmptyString => 0%N
  | String c s' => (digit_value c * 10 ^ N.of_nat (String.length s') + parse_dec s')%N
  end.

(** A field of exactly two, and of exactly three, decimal digits. *)
Definition two_digits (n : Z) : string :=
  String (digit_char (Z.to_N (n / 10)))
    (String (digit_char (Z.to_N (n mod 10))) "").

Definition three_digits (n : Z) : string :=
  String (digit_char (Z.to_N (n / 100)))
    (String (digit_char (Z.to_N ((n / 10) mod 10)))
       (String (digit_char (Z.to_N (n mod 10))) "")).

(** [str(n)] of an integer. *)
Definition str_int (n : Z) : string := format_0d 0 n.

(** *** Floats as rationals *)

(** [int(x)]: truncation toward zero. *)
Definition int_of (x : Q) : Z := Z.quot (Qnum x) (Z.pos (Qden x)).

(** Rounding to the nearest integer, ties to the even one: the rounding
    of the ["f"] presentation, which is exact on the binary value, and
    of the float operations. *)
Definition round_half_even (q : Q) : Z :=
  let f := Qfloor q in
  match Qcompare (q - inject_Z f) (1 # 2) with
  | Lt => f
  | Gt => f + 1
  | Eq => if Z.even f then f else f + 1
  end.

(** The double nearest to a real number, ties to the even significand:
    the result of every float operation on its exact result.  Doubles
    are the multiples of 2^-1074 with at most 53 significant bits, so
    with [y] the number in units of 2^-1074, the bits of [y] beyond the
    leading 53 are rounded away.  (Numbers from 2^1024 on, which
    overflow, do not occur in the scripts' arithmetic on times and
    durations.) *)
Definition nearest_double (q : Q) : Q :=
  let y := (q * inject_Z (2 ^ 1074))%Q in
  let dropped := Z.max 0 (Z.log2 (Qfloor (Qabs y)) - 52) in
  (inject_Z (round_half_even (y / inject_Z (2 ^ dropped)) * 2 ^ dropped)
   / inject_Z (2 ^ 1074))%Q.

(** C's [fmod(x, y)], which is exact: what is left of [x] after taking
    away [y] as many whole times as fit, counted toward zero. *)
Definition c_fmod (x y : Q) : Q := x - y * inject_Z (int_of (x / y)).

(** The remainder takes the sign of the divisor (lines of
    [float_rem] and [_float_div_mod] in CPython's [floatobject.c]). *)
Definition wrong_sign (m y : Q) : bool :=
  negb (Qnum m =? 0) && negb (Bool.eqb (Qnum y <? 0) (Qnum m <? 0)).

(** [x % y] on floats, for [y <> 0]: [fmod], moved by [y] when its sign
    is not the divisor's. *)
Definition fmod (x y : Q) : Q :=
  let m := c_fmod x y in
  if wrong_sign m y then nearest_double (m + y)%Q else m.

(** [x // y] on floats, for [y <> 0]: [(x - fmod(x, y)) / y] in double
    arithmetic, less one when the remainder had to be moved, then
    snapped to the nearest whole number. *)
Definition floordiv (x y : Q) : Q :=
  let m := c_fmod x y in
  let div := nearest_double (nearest_double (x - m) / y)%Q in
  let div := if wrong_sign m y then nearest_double (div - 1)%Q else div in
  let f := Qfloor div in
  match Qcompare (div - inject_Z f)%Q (1 # 2) with
  | Gt => inject_Z (f + 1)
  | _ => inject_Z f
  end.

(** [format(x, "0<width>.3f")]: [x] rounded to three decimals, sign
    first, zero-filled to [width] characters. *)
Definition format_0_3f (width : nat) (x : Q) : string :=
  let sign := if Qnum x <? 0 then "-" else "" in
  let n := Z.abs_N (round_half_even (x * 1000)) in
  let body := dec_digits (n / 1000) +:+ "." +:+ format_0d 3 (Z.of_N (n mod 1000)) in
  sign +:+ zeros (width - (String.length sign + String.length body)) +:+ body.

(** *** Strings *)

(** Every character of [s] satisfies [p]. *)
Fixpoint string_forall (p : ascii -> bool) (s : string) : bool :=
  match s with
  | EmptyString => true
  | String c s' => p c && string_forall p s'
  end.

(** [s.replace(a, b)] for one-character [a] and [b]. *)
Fixpoint replace_char (a b : ascii) (s : string) : string :=
  match s with
  | EmptyString => EmptyString
  | String c s' => String (if Ascii.eqb c a then b else c) (replace_char a b s')
  end.

(** The whitespace of [str.strip()] (the code points with
    [str.isspace]), as UTF-8 bytes: the one-byte ones, U+0009 to U+000D
    and U+001C to U+0020; *)
Definition is_space (c : ascii) : bool :=
  let n := N_of_ascii c in
  (((9 <=? n) && (n <=? 13)) || ((28 <=? n) && (n <=? 32)))%N.

(** the two-byte ones, U+0085 and U+00A0; *)
Definition is_space2 (c1 c2 : ascii) : bool :=
  let b1 := N_of_ascii c1 in
  let b2 := N_of_ascii c2 in
  ((b1 =? 194) && ((b2 =? 133) || (b2 =? 160)))%N.

(** and the three-byte ones, U+1680, U+2000 to U+200A, U+2028, U+2029,
    U+202F, U+205F and U+3000. *)
Definition is_space3 (c1 c2 c3 : ascii) : bool :=
  let b1 := N_of_ascii c1 in
  let b2 := N_of_ascii c2 in
  let b3 := N_of_ascii c3 in
  (((b1 =? 225) && (b2 =? 154) && (b3 =? 128))
   || ((b1 =? 226) && (b2 =? 128)
       && (((128 <=? b3) && (b3 <=? 138)) || (b3 =? 168) || (b3 =? 169) || (b3 =? 175)))
   || ((b1 =? 226) && (b2 =? 129) && (b3 =? 159))
   || ((b1 =? 227) && (b2 =? 128) && (b3 =? 128)))%N.

(** [s.lstrip()]: whitespace code points are taken off the front as
    long as there is one. *)
Fixpoint lstrip (s : string) : string :=
  match s with
  | EmptyString => EmptyString
  | String c1 s1 =>
      if is_space c1 then lstrip s1
      else
        match s1 with
        | EmptyString => s
        | String c2 s2 =>
            if is_space2 c1 c2 then lstrip s2
            else
              match s2 with
              | EmptyString => s
              | String c3 s3 => if is_space3 c1 c2 c3 then lstrip s3 else s
              end
        end
  end.

(** The same from the end, on the reversed string, where the bytes of
    a code point come last byte first. *)
Fixpoint lstrip_reversed (s : string) : string :=
  match s with
  | EmptyString => EmptyString
  | String c1 s1 =>
      if is_space c1 then lstrip_reversed s1
      else
        match s1 with
        | EmptyString => s
        | String c2 s2 =>
            if is_space2 c2 c1 then lstrip_reversed s2
            else
              match s2 with
              | EmptyString => s
              | String c3 s3 =>
                  if is_space3 c3 c2 c1 then lstrip_reversed s3 else s
              end
        end
  end.

(** [s.rstrip()]. *)
Definition rstrip (s : string) : string :=
  String.rev (lstrip_reversed (String.rev s)).

(** [s.strip()]. *)
Definition strip (s : string) : string := rstrip (lstrip s).

(** [s.lower()] on ASCII letters. *)
Definition lower_char (c : ascii) : ascii :=
  let n := N_of_ascii c in
  if ((65 <=? n) && (n <=? 90))%N then ascii_of_N (n + 32) else c.

Fixpoint lower (s : string) : string :=
  match s with
  | EmptyString => EmptyString
  | String c s' => String (lower_char c) (lower s')
  end.

(** [s.endswith(suffix)]. *)
Definition endswith (s suffix : string) : bool :=
  let n := String.length s in
  let k := String.length suffix in
  (k <=? n)%nat && String.eqb (substring (n - k) k s) suffix.

(** [Path.stem]: the last component without its last suffix. *)
Fixpoint rindex (c : ascii) (s : string) : option nat :=
  match s with
  | EmptyString => None
  | String a s' =>
      match rindex c s' with
      | Some i => Some (S i)
      | None => if Ascii.eqb a c then Some O else None
      end
  end.

Definition basename (p : string) : string :=
  match rindex "/" p with
  | Some i => substring (S i) (String.length p - S i) p
  | None => p
  end.

Definition stem (p : string) : string :=
  let name := basename p in
  match rindex "." name with
  | Some i =>
      if ((0 <? i)%nat && (i <? String.length name - 1)%nat)
      then substring 0 i name else name
  | None => name
  end.

(** [Path.parent]. *)
Definition parent (p : string) : string :=
  match rindex "/" p with
  | Some O => "/"
  | Some i => substring 0 i p
  | None => "."
  end.

(** The line feed. *)
Definition nl : string := String "010" "".

(** [Path(a) / b] and [str] of the result, for a relative [b] (the
    right operands of the scripts are file names): the current
    directory leaves no trace in a path, and the root brings its own
    slash. *)
Definition path_join (a b : string) : string :=
  if String.eqb a "." then b
  else if String.eqb a "/" then a +:+ b
  else a +:+ "/" +:+ b.

(** [range(n)] as the list [0, 1, ..., n-1] (empty when [n <= 0]). *)
Definition range (n : Z) : list Z := map Z.of_nat (seq 0 (Z.to_nat n)).

(** [enumerate(l, start)]. *)
Fixpoint enumerate {A : Type} (start : Z) (l : list A) : list (Z * A) :=
  match l with
  | [] => []
  | x :: l' => (start, x) :: enumerate (start + 1) l'
  end.

End Py.

(** ** The file system *)

Module FS.

(** What a file holds: decoded audio, one list element per millisecond
    (what pydub's [len] and slicing count), or any other bytes. *)
Inductive content (frame : Type) : Type :=
  | Audio (data : list frame)
  | Bytes (data : string).
Arguments Audio {frame} data.
Arguments Bytes {frame} data.

Record t (frame : Type) : Type := mk {
  files : gmap string (content frame);
  dirs : gset string
}.
Arguments mk {frame} files dirs.
Arguments files {frame} _.
Arguments dirs {frame} _.

Section Ops.
Context {frame : Type}.

  (** [Path.is_file], [Path.is_dir], [Path.exists]. *)
Definition is_file (w : t frame) (p : string) : bool :=
    bool_decide (is_Some (files w !! p)).
Definition is_dir (w : t frame) (p : string) : bool :=
    bool_decide (p ∈ dirs w).
Definition exists_ (w : t frame) (p : string) : bool :=
    is_file w p || is_dir w p.

  (** The directories above [p], nearest first: [p.parent],
      [p.parent.parent], ... up to the current directory or the root,
      which are always there. *)
Fixpoint ancestors_upto (fuel : nat) (p : string) : list string :=
    match fuel with
    | O => []
    | S fuel' =>
        let q := Py.parent p in
        if String.eqb q "." || String.eqb q "/" then []
        else q :: ancestors_upto fuel' q
    end.

Definition ancestors (p : string) : list string :=
    ancestors_upto (String.length p) p.

  (** What [mkdir(parents=True)] makes sure of: the path and every
      directory above it. *)
Definition created (p : string) : gset string :=
    {[ p ]} ∪ list_to_set (ancestors p).

  (** [Path.mkdir(parents=True, exist_ok=True)].  It raises when a file
      sits at the path or at a directory above it, or when the
      environment refuses ([ok = false]: permissions, a read-only
      volume); otherwise the directory and the missing directories above
      it are there afterwards. *)
Definition mkdir_p (ok : bool) (p : string) (w : t frame) : option (t frame) :=
    if existsb (is_file w) (p :: ancestors p) || negb ok then None
    else Some (mk (files w) (created p ∪ dirs w)).

  (** Writing a file, replacing what was there. *)
Definition write (p : string) (c : content frame) (w : t frame) : t frame :=
    mk (<[ p := c ]> (files w)) (dirs w).
End Ops.

End FS.

(** ** cut_audio.py *)

Module CutAudio.

Import Py.

(** [math.ceil(a / b)] on integers.  The true division gives the
    double nearest to the quotient and [math.ceil] the least integer
    not below that double.  A quotient of at most 2^-1075 in absolute
    value is nearer to zero than to any other double and becomes 0.0
    (or -0.0), whose ceiling is 0; for every other quotient of a
    dividend below 2^53 the double has the ceiling of the quotient
    itself ([ceil_truediv_double] proves it for the positive divisors,
    against [Py.nearest_double]).  Recordings of 2^53 ms (some 285,000
    years) and more are outside this closed form: there the double
    quotient can round across a whole number. *)
Definition ceil_truediv (a b : Z) : outcome Z :=
  if b =? 0 then Raised ZeroDivisionError
  else if Z.abs a * 2 ^ 1075 <=? Z.abs b then Returned 0
  else Returned (Qceiling (inject_Z a / inject_Z b)).

Section Chunker.
Context {frame : Type}.

  (** The environment: whether creating a directory, and whether
      exporting to a path, goes through; and what an export that raises
      leaves at its target.  pydub's [export] first opens the target
      for writing (mode ['wb+']): when that already fails nothing is
      touched ([None]); when the failure comes later the file is there
      with the bytes written so far, none at all when the encoder
      failed ([Some ""]). *)
Variable mkdir_ok : string -> bool.
Variable export_ok : string -> bool.
Variable export_leaves : string -> option string.

  (** The file system after an export to [p] has raised. *)
Definition failed_export (p : string) (w : FS.t frame) : FS.t frame :=
    match export_leaves p with
    | Some bytes => FS.write p (FS.Bytes bytes) w
    | None => w
    end.

  (** [audio[start:end]] on a pydub segment, positions in milliseconds,
      both clamped to the length. *)
Definition slice (audio : list frame) (start stop : Z) : list frame :=
    let len := Z.of_nat (length audio) in
    let start := Z.min start len in
    let stop := Z.min stop len in
    firstn (Z.to_nat (stop - start)) (skipn (Z.to_nat start) audio).

  (** [AudioSegment.from_mp3] / [from_wav] / [from_file]: the decoded
      stream, or an exception when the path holds no audio. *)
Definition load (w : FS.t frame) (p : string) : option (list frame) :=
    match FS.files w !! p with
    | Some (FS.Audio a) => Some a
    | _ => None
    end.

  (** One round of the loop of lines 78-95, as the trace records it. *)
Record attempt : Type := mk_attempt {
    number : Z;              (* i + 1, the number in the file name *)
    start_ms : Z;
    end_ms : Z;
    chunk : list frame;
    chunk_path : string;
    saved : bool             (* false: [export] raised *)
  }.

Inductive event : Type :=
    | Mkdir (p : string)
    | Export (a : attempt)
    | Print (line : string).

Record run : Type := mk_run {
    result : outcome bool;
    events : list event;
    final : FS.t frame
  }.

  (** The loop state: [successful_chunks], the trace, the file system. *)
Definition loop_state : Type := (Z * list event * FS.t frame)%type.

Definition loop_body (audio : list frame) (chunk_duration_ms total_duration_ms : Z)
      (output_dir output_format : string) (st : loop_state) (i : Z) : loop_state :=
    let '(successful_chunks, evs, w) := st in
    let start := i * chunk_duration_ms in
    let stop := Z.min ((i + 1) * chunk_duration_ms) total_duration_ms in
    let chunk := slice audio start stop in
    let chunk_filename := "part_" +:+ format_0d 3 (i + 1) +:+ "." +:+ output_format in
    let chunk_path := path_join output_dir chunk_filename in
    if export_ok chunk_path then
      (successful_chunks + 1,
       evs ++ [Export (mk_attempt (i + 1) start stop chunk chunk_path true)],
       FS.write chunk_path (FS.Audio chunk) w)
    else
      (successful_chunks,
       evs ++ [Export (mk_attempt (i + 1) start stop chunk chunk_path false)],
       failed_export chunk_path w).

  (** Lines 67-102: the chunk parameters, the loop and the report. *)
Definition cut_loaded (audio : list frame) (chunk_duration : Z)
      (output_dir output_format : string) (evs : list event) (w : FS.t frame) : run :=
    let chunk_duration_ms := chunk_duration * 60 * 1000 in
    let total_duration_ms := Z.of_nat (length audio) in
    match ceil_truediv total_duration_ms chunk_duration_ms with
    | Raised e => mk_run (Raised e) evs w
    | Returned num_chunks =>
        let '(successful_chunks, evs', w') :=
          fold_left
            (loop_body audio chunk_duration_ms total_duration_ms output_dir output_format)
            (range num_chunks) (0, evs, w) in
        if successful_chunks =? num_chunks then
          mk_run (Returned true)
            (evs' ++ [Print ("🎉 Successfully created " +:+ str_int successful_chunks
                             +:+ " audio chunks in '" +:+ output_dir +:+ "'")])
            w'
        else
          mk_run (Returned false)
            (evs' ++ [Print ("⚠️  Created " +:+ str_int successful_chunks
                             +:+ " out of " +:+ str_int num_chunks +:+ " chunks")])
            w'
    end.

Definition cut_audio_file (w : FS.t frame) (input_file : string)
      (chunk_duration : Z) (output_dir : option string) (output_format : string) : run :=
    if negb (FS.exists_ w input_file) then mk_run (Returned false) [] w
    else
      let output_dir := default (stem input_file +:+ "_chunks") output_dir in
      match FS.mkdir_p (mkdir_ok output_dir) output_dir w with
      | None => mk_run (Returned false) [] w
      | Some w1 =>
          match load w1 input_file with
          | None => mk_run (Returned false) [Mkdir output_dir] w1
          | Some audio =>
              cut_loaded audio chunk_duration output_dir output_format
                [Mkdir output_dir] w1
          end
      end.

  (** The round for [i], written out once: what [loop_body] computes
      before it exports. *)
Definition attempt_at (audio : list frame) (chunk_duration_ms total_duration_ms : Z)
      (output_dir output_format : string) (i : Z) : attempt :=
    let start := i * chunk_duration_ms in
    let stop := Z.min ((i + 1) * chunk_duration_ms) total_duration_ms in
    let chunk_path :=
      path_join output_dir ("part_" +:+ format_0d 3 (i + 1) +:+ "." +:+ output_format) in
    mk_attempt (i + 1) start stop (slice audio start stop) chunk_path (export_ok chunk_path).

  (** The effect of one round on the counter and on the file system. *)
Definition round_count (a : attempt) : Z := if saved a then 1 else 0.

Definition round_write (w : FS.t frame) (a : attempt) : FS.t frame :=
    if saved a then FS.write (chunk_path a) (FS.Audio (chunk a)) w
    else failed_export (chunk_path a) w.

  (** What the trace says about the loop. *)
Definition attempts (r : run) : list attempt :=
    omap (fun e => match e with Export a => Some a | _ => None end) (events r).

Definition printed (r : run) : list string :=
    omap (fun e => match e with Print s => Some s | _ => None end) (events r).

End Chunker.

End CutAudio.

(** ** transcribe_audio.py *)

Module Transcribe.

Import Py.

(** A Whisper segment and a Whisper result. *)
Record segment : Type := mk_segment {
  seg_start : Q;
  seg_end : Q;
  seg_text : string
}.

Record transcript : Type := mk_transcript {
  text : string;
  segments : list segment;
  language : string
}.

(** *** The renderers (lines 131-167) *)

Definition format_time_srt (seconds : Q) : string :=
  let hours := int_of (floordiv seconds 3600) in
  let minutes := int_of (floordiv (fmod seconds 3600) 60) in
  let seconds := fmod seconds 60 in
  replace_char "." ","
    (format_0d 2 hours +:+ ":" +:+ format_0d 2 minutes +:+ ":" +:+ format_0_3f 6 seconds).

Definition format_time_vtt (seconds : Q) : string :=
  let hours := int_of (floordiv seconds 3600) in
  let minutes := int_of (floordiv (fmod seconds 3600) 60) in
  let seconds := fmod seconds 60 in
  format_0d 2 hours +:+ ":" +:+ format_0d 2 minutes +:+ ":" +:+ format_0_3f 6 seconds.

(** The f-string of line 139, from the values of lines 135-137. *)
Definition srt_block (i : Z) (segment : segment) : string :=
  let start_time := format_time_srt (seg_start segment) in
  let end_time := format_time_srt (seg_end segment) in
  let text := strip (seg_text segment) in
  str_int i +:+ nl +:+ start_time +:+ " --> " +:+ end_time +:+ nl
  +:+ text +:+ nl +:+ nl.

Definition generate_srt (segments : list segment) : string :=
  fold_left
    (fun srt_content '(i, segment) => srt_content +:+ srt_block i segment)
    (enumerate 1 segments) "".

(** The f-string of line 151, from the values of lines 147-149. *)
Definition vtt_block (segment : segment) : string :=
  let start_time := format_time_vtt (seg_start segment) in
  let end_time := format_time_vtt (seg_end segment) in
  let text := strip (seg_text segment) in
  start_time +:+ " --> " +:+ end_time +:+ nl +:+ text +:+ nl +:+ nl.

Definition generate_vtt (segments : list segment) : string :=
  fold_left
    (fun vtt_content segment => vtt_content +:+ vtt_block segment)
    segments ("WEBVTT" +:+ nl +:+ nl).

(** **** Taking an SRT block to a VTT block

    What the comparison of the two renderers needs: cutting a string at
    its first line feed, and the rewriting of one SRT block (number
    line dropped, commas of the time line turned into points). *)
Fixpoint split_line (s : string) : string * string :=
  match s with
  | EmptyString => (EmptyString, EmptyString)
  | String c s' =>
      if Ascii.eqb c "010" then (EmptyString, s')
      else let '(line, rest) := split_line s' in (String c line, rest)
  end.

Definition vtt_of_srt_block (block : string) : string :=
  let '(_, body) := split_line block in
  let '(time_line, rest) := split_line body in
  replace_char "," "." time_line +:+ nl +:+ rest.

Definition join (blocks : list string) : string :=
  foldr String.append "" blocks.

(** The blocks the SRT loop appends, in order. *)
Definition srt_blocks (segments : list segment) : list string :=
  map (fun '(i, segment) => srt_block i segment) (enumerate 1 segments).

(** The characters a rendered time is made of. *)
Definition is_time_char (c : ascii) : bool :=
  is_digit c || Ascii.eqb c "-" || Ascii.eqb c ":" || Ascii.eqb c ".".

(** *** File selection and the engine call (lines 14-129) *)

(** [Path.glob(pattern)] in one directory, for the patterns the script
    uses: a star followed by a literal suffix.  On POSIX the match is
    case-sensitive; [names] is the directory as the file system
    enumerates it. *)
Definition glob (dir : string) (names : list string) (pattern : string) : list string :=
  match pattern with
  | String "*" suffix =>
      map (path_join dir) (filter (fun name => endswith name suffix) names)
  | _ =>
      map (path_join dir) (filter (fun name => String.eqb name pattern) names)
  end.

Definition audio_extensions : list string :=
  ["*.mp3"; "*.wav"; "*.m4a"; "*.flac"; "*.aac"].

(** The keyword arguments of the engine call. *)
Definition transcribe_options (language : string) : gmap string string :=
  if negb (String.eqb language "auto")
  then <[ "language" := language ]> ∅
  else ∅.

Inductive event : Type :=
  | Mkdir (p : string)
  | LoadModel (model : string)
  | Call (audio_file : string) (options : gmap string string)
  | Write (output_file : string) (content : string).

Section Transcriber.
Context {frame : Type}.

  (** The environment: the directory enumeration, the engine (nothing
      when it raises), [json.dumps], and which of [mkdir],
      [whisper.load_model] and [open(..., "w")] go through. *)
Variable listdir : string -> list string.
Variable engine : string -> gmap string string -> option transcript.
Variable json_dumps : transcript -> string.
Variable mkdir_ok : string -> bool.
Variable load_model_ok : string -> bool.
Variable write_ok : string -> bool.

Record run : Type := mk_run {
    result : bool;
    events : list event;
    final : FS.t frame
  }.

Definition loop_state : Type := (Z * list event * FS.t frame)%type.

  (** The extension and the content for an output format; nothing for
      an unsupported one. *)
Definition render (output_format : string) (res : transcript) : option (string * string) :=
    if String.eqb output_format "txt" then Some (".txt", text res)
    else if String.eqb output_format "json" then Some (".json", json_dumps res)
    else if String.eqb output_format "srt" then Some (".srt", generate_srt (segments res))
    else if String.eqb output_format "vtt" then Some (".vtt", generate_vtt (segments res))
    else None.

Definition loop_body (language output_path output_format : string)
      (st : loop_state) (audio_file : string) : loop_state :=
    let '(successful_transcriptions, evs, w) := st in
    let options := transcribe_options language in
    match engine audio_file options with
    | None => (successful_transcriptions, evs ++ [Call audio_file options], w)
    | Some res =>
        let base_name := stem audio_file in
        match render output_format res with
        | None => (successful_transcriptions, evs ++ [Call audio_file options], w)
        | Some (ext, content) =>
            let output_file := path_join output_path (base_name +:+ ext) in
            if write_ok output_file then
              (successful_transcriptions + 1,
               evs ++ [Call audio_file options; Write output_file content],
               FS.write output_file (FS.Bytes content) w)
            else
              (successful_transcriptions, evs ++ [Call audio_file options], w)
        end
    end.

  (** Lines 28-44: the files to process and the default output
      directory; nothing when the path does not exist. *)
Definition select_files (w : FS.t frame) (input_path : string)
      (output_dir : option string) : option (list string * string) :=
    if FS.is_file w input_path then
      Some ([input_path], default (path_join (parent input_path) "transcripts") output_dir)
    else if FS.is_dir w input_path then
      let audio_files :=
        fold_left (fun audio_files ext => audio_files ++ glob input_path (listdir input_path) ext)
          audio_extensions [] in
      Some (audio_files, default (path_join input_path "transcripts") output_dir)
    else None.

Definition transcribe_audio_files (w : FS.t frame) (input_path language model : string)
      (output_dir : option string) (output_format : string) : run :=
    match select_files w input_path output_dir with
    | None => mk_run false [] w
    | Some (audio_files, output_dir) =>
        if bool_decide (audio_files = []) then mk_run false [] w
        else
          let audio_files := merge_sort String.le audio_files in
          match FS.mkdir_p (mkdir_ok output_dir) output_dir w with
          | None => mk_run false [] w
          | Some w1 =>
              if negb (load_model_ok model) then
                mk_run false [Mkdir output_dir; LoadModel model] w1
              else
                let '(successful_transcriptions, evs, w2) :=
                  fold_left (loop_body language output_dir output_format) audio_files
                    (0, [Mkdir output_dir; LoadModel model], w1) in
                mk_run (successful_transcriptions =? Z.of_nat (length audio_files)) evs w2
          end
    end.

  (** The engine calls of a run, in order, and the files they were
      made on. *)
Definition event_call (e : event) : option (string * gmap string string) :=
    match e with Call f o => Some (f, o) | _ => None end.

Definition calls (r : run) : list (string * gmap string string) :=
    omap event_call (events r).

Definition processed (r : run) : list string := map fst (calls r).

(** The files a run wrote, in order, with their content. *)
Definition event_write (e : event) : option (string * string) :=
  match e with Write f c => Some (f, c) | _ => None end.

Definition writes (r : run) : list (string * string) :=
  omap event_write (events r).

(** Writing a list of text files, one after the other. *)
Definition write_all (w : FS.t frame) (l : list (string * string)) : FS.t frame :=
  fold_left (fun w '(f, c) => FS.write f (FS.Bytes c) w) l w.

(** What one round writes for a file: the output path and the content,
    or nothing when the engine raises, the format is not one of the
    four, or the file cannot be written. *)
Definition transcript_of (language output_path output_format audio_file : string)
    : option (string * string) :=
  match engine audio_file (transcribe_options language) with
  | None => None
  | Some res =>
      match render output_format res with
      | None => None
      | Some (ext, content) =>
          let output_file := path_join output_path (stem audio_file +:+ ext) in
          if write_ok output_file then Some (output_file, content) else None
      end
  end.

End Transcriber.

(** The claim's reading of "a known audio extension": one of the five,
    letter case ignored. *)
Definition has_audio_extension_nocase (name : string) : bool :=
  existsb (fun ext => endswith (lower name) ext) [".mp3"; ".wav"; ".m4a"; ".flac"; ".aac"].

(** The files the five globs collect from a listing, as the loop of
    lines 37-38 accumulates them. *)
Definition globbed (input_path : string) (names : list string) : list string :=
  ((((([] ++ glob input_path names "*.mp3")
        ++ glob input_path names "*.wav")
        ++ glob input_path names "*.m4a")
        ++ glob input_path names "*.flac")
        ++ glob input_path names "*.aac").

(** What the globs select: one of the five, as written. *)
Definition has_audio_extension (name : string) : bool :=
  existsb (fun ext => endswith name ext) [".mp3"; ".wav"; ".m4a"; ".flac"; ".aac"].

End Transcribe.

(** ** video_to_audio.py *)

Module VideoToAudio.

Import Py.

(** What [subprocess.run] does with the ffmpeg command: the program is
    missing ([FileNotFoundError]), some other exception is raised, or
    the process ends with a return code and its standard error. *)
Inductive ffmpeg_outcome : Type :=
  | NotFound
  | Failed
  | Exited (returncode : Z) (stderr : string).

Inductive event : Type :=
  | Input (prompt : string)
  | RunFfmpeg (cmd : list string).

Section Converter.
Context {frame : Type}.

  (** The environment: the line [input] reads (nothing at end of
      input, where it raises [EOFError]), and ffmpeg with its effect on
      the file system. *)
Variable response : option string.
Variable ffmpeg : list string -> FS.t frame -> ffmpeg_outcome * FS.t frame.

Record run : Type := mk_run {
    result : outcome bool;
    events : list event;
    final : FS.t frame
  }.

  (** Lines 43-74: the command and its outcome. *)
Definition run_conversion (w : FS.t frame) (input_file output_file : string)
      (audio_format quality : string) (evs : list event) : run :=
    let cmd :=
      ["ffmpeg"; "-i"; input_file; "-vn";
       "-acodec"; if String.eqb audio_format "mp3" then "libmp3lame" else "copy";
       "-ab"; quality; "-y"; output_file] in
    match ffmpeg cmd w with
    | (Exited returncode stderr, w') =>
        mk_run (Returned (returncode =? 0)) (evs ++ [RunFfmpeg cmd]) w'
    | (NotFound, _) => mk_run (Returned false) (evs ++ [RunFfmpeg cmd]) w
    | (Failed, w') => mk_run (Returned false) (evs ++ [RunFfmpeg cmd]) w'
    end.

Definition convert_video_to_audio (w : FS.t frame) (input_file : string)
      (output_file : option string) (audio_format quality : string) : run :=
    if negb (FS.exists_ w input_file) then mk_run (Returned false) [] w
    else
      let output_file := default (stem input_file +:+ "." +:+ audio_format) output_file in
      if FS.exists_ w output_file then
        let prompt :=
          "⚠️  Output file '" +:+ output_file +:+ "' already exists. Overwrite? (y/N): " in
        match response with
        | None => mk_run (Raised EOFError) [Input prompt] w
        | Some response =>
            if negb (String.eqb (lower response) "y")
            then mk_run (Returned false) [Input prompt] w
            else run_conversion w input_file output_file audio_format quality [Input prompt]
        end
      else run_conversion w input_file output_file audio_format quality [].

Definition is_run_ffmpeg (e : event) : bool :=
    match e with RunFfmpeg _ => true | Input _ => false end.

End Converter.

End VideoToAudio.

(** ** process_media.py *)

Module ProcessMedia.

Import Py.

(** The parsed command line. *)
Record args : Type := mk_args {
  input_file : string;
  language : string;
  skip_video_conversion : bool;
  skip_cutting : bool;
  skip_transcription : bool;
  duration : Z;
  model : string;
  format : string;
  output_dir : option string;
  audio_format : string;
  audio_quality : string
}.

(** A child process the orchestrator started, with what [run_script]
    returned for it, or a directory it made. *)
Inductive event : Type :=
  | Mkdir (p : string)
  | RunScript (script_name : string) (script_args : list string) (ok : bool).

Section Orchestrator.
Context {frame : Type}.

  (** The environment: a child script, run to its end, gives an exit
      status (zero or not) and leaves the file system changed; creating
      the output directory goes through or raises. *)
Variable child : string -> list string -> FS.t frame -> bool * FS.t frame.
Variable mkdir_ok : string -> bool.

Definition state : Type := (list event * FS.t frame)%type.

  (** [run_script]: [True] when the child exits with status zero. *)
Definition run_script (script_name : string) (script_args : list string)
      (st : state) : bool * state :=
    let '(evs, w) := st in
    let '(ok, w') := child script_name script_args w in
    (ok, (evs ++ [RunScript script_name script_args ok], w')).

  (** The exit status of the process (1 from [sys.exit(1)], 0 at the end
      of [main]) or the exception that ended it. *)
Record run : Type := mk_run {
    result : outcome Z;
    events : list event;
    final : FS.t frame
  }.

Definition exit (code : Z) (st : state) : run := mk_run (Returned code) st.1 st.2.

  (** Step 3 (lines 127-144). *)
Definition step3 (a : args) (base_name output_dir transcription_input : string)
      (st : state) : run :=
    if negb (skip_transcription a) then
      let transcripts_dir := path_join output_dir (base_name +:+ "_transcripts") in
      let transcription_args :=
        [transcription_input; "-l"; language a; "-m"; model a;
         "-o"; transcripts_dir; "-f"; format a] in
      let '(ok, st) := run_script "transcribe_audio.py" transcription_args st in
      if negb ok then exit 1 st else exit 0 st
    else exit 0 st.

  (** Step 2 (lines 106-125). *)
Definition step2 (a : args) (base_name output_dir current_audio_file : string)
      (st : state) : run :=
    if negb (skip_cutting a) then
      let chunks_dir := path_join output_dir (base_name +:+ "_chunks") in
      let cutting_args :=
        [current_audio_file; "-d"; str_int (duration a);
         "-o"; chunks_dir; "-f"; audio_format a] in
      let '(ok, st) := run_script "cut_audio.py" cutting_args st in
      if negb ok then exit 1 st
      else step3 a base_name output_dir chunks_dir st
    else step3 a base_name output_dir current_audio_file st.

  (** Step 1 (lines 85-104). *)
Definition step1 (a : args) (base_name output_dir : string) (st : state) : run :=
    if negb (skip_video_conversion a) then
      let audio_file := path_join output_dir (base_name +:+ "." +:+ audio_format a) in
      let video_args :=
        [input_file a; "-o"; audio_file; "-f"; audio_format a; "-q"; audio_quality a] in
      let '(ok, st) := run_script "video_to_audio.py" video_args st in
      if negb ok then exit 1 st
      else step2 a base_name output_dir audio_file st
    else step2 a base_name output_dir (input_file a) st.

Definition main (a : args) (w : FS.t frame) : run :=
    if negb (FS.exists_ w (input_file a)) then mk_run (Returned 1) [] w
    else
      let base_name := stem (input_file a) in
      let working_dir := parent (input_file a) in
      match output_dir a with
      | Some dir =>
          if negb (String.eqb dir "") then
            match FS.mkdir_p (mkdir_ok dir) dir w with
            | None => mk_run (Raised OSError) [] w
            | Some w1 => step1 a base_name dir ([Mkdir dir], w1)
            end
          else step1 a base_name working_dir ([], w)
      | None => step1 a base_name working_dir ([], w)
      end.

  (** The scripts a run started, in order. *)
Definition event_script (e : event) : option string :=
    match e with RunScript s _ _ => Some s | Mkdir _ => None end.

Definition scripts (r : run) : list string := omap event_script (events r).

  (** The directories the orchestrator itself made. *)
Definition event_dir (e : event) : option string :=
    match e with Mkdir p => Some p | RunScript _ _ _ => None end.

Definition made_dirs (r : run) : list string := omap event_dir (events r).

  (** A script that failed is the last thing in the trace. *)
Fixpoint stops_at_failure (evs : list event) : Prop :=
    match evs with
    | [] => True
    | RunScript _ _ false :: evs' => evs' = []
    | _ :: evs' => stops_at_failure evs'
    end.

Definition failed (e : event) : bool :=
    match e with RunScript _ _ ok => negb ok | Mkdir _ => false end.

  (** The file system after the effects of a trace, one after the
      other, with nothing undone. *)
Definition replay (evs : list event) (w : FS.t frame) : FS.t frame :=
    fold_left
      (fun w e =>
         match e with
         | Mkdir p => FS.mk (FS.files w) (FS.created p ∪ FS.dirs w)
         | RunScript s script_args _ => (child s script_args w).2
         end)
      evs w.

  (** The trace is honest: each recorded status is the one the child
      gave in the file system of that moment. *)
Fixpoint faithful (evs : list event) (w : FS.t frame) : Prop :=
    match evs with
    | [] => True
    | Mkdir p :: evs' => faithful evs' (FS.mk (FS.files w) (FS.created p ∪ FS.dirs w))
    | RunScript s script_args ok :: evs' =>
        ok = (child s script_args w).1 /\ faithful evs' (child s script_args w).2
    end.

  (** A state between two steps: nothing has failed so far, the trace
      is honest, and the file system is the replay of the trace. *)
Definition healthy (a : args) (w0 : FS.t frame) (st : state) : Prop :=
    existsb failed st.1 = false /\
    faithful st.1 w0 /\
    st.2 = replay st.1 w0 /\
    (forall p, p ∈ omap event_dir st.1 -> output_dir a = Some p).

  (** What every run of [main] satisfies: a failed script ends the
      trace and gives exit status 1, the trace is honest, the final
      file system is the replay of the trace, and the only directory
      [main] makes itself is the output directory. *)
Definition well_run (a : args) (w : FS.t frame) (r : run) : Prop :=
    stops_at_failure (events r) /\
    faithful (events r) w /\
    final r = replay (events r) w /\
    (forall p, p ∈ made_dirs r -> output_dir a = Some p) /\
    (existsb failed (events r) = true -> result r = Returned 1) /\
    (result r = Returned 0 -> existsb failed (events r) = false) /\
    (forall script_args,
       RunScript "video_to_audio.py" script_args false ∈ events r ->
       scripts r = ["video_to_audio.py"]).

End Orchestrator.

(** The plan of a run, read off the command line: where the outputs
    go, what each stage is given, and which scripts are to run. *)
Definition resolved_output_dir (a : args) : string :=
  match output_dir a with
  | Some dir => if negb (String.eqb dir "") then dir else parent (input_file a)
  | None => parent (input_file a)
  end.

Definition audio_file_of (a : args) : string :=
  if skip_video_conversion a then input_file a
  else path_join (resolved_output_dir a)
         (stem (input_file a) +:+ "." +:+ audio_format a).

Definition chunks_dir_of (a : args) : string :=
  path_join (resolved_output_dir a) (stem (input_file a) +:+ "_chunks").

Definition transcription_input_of (a : args) : string :=
  if skip_cutting a then audio_file_of a else chunks_dir_of a.

Definition planned_scripts (a : args) : list string :=
  (if skip_video_conversion a then [] else ["video_to_audio.py"]) ++
  (if skip_cutting a then [] else ["cut_audio.py"]) ++
  (if skip_transcription a then [] else ["transcribe_audio.py"]).

(** An event that follows the plan. *)
Definition planned (a : args) (e : event) : Prop :=
  match e with
  | Mkdir p => output_dir a = Some p /\ p = resolved_output_dir a
  | RunScript s script_args _ =>
      (s = "video_to_audio.py" /\ skip_video_conversion a = false /\
       script_args = [input_file a; "-o"; audio_file_of a;
                      "-f"; audio_format a; "-q"; audio_quality a]) \/
      (s = "cut_audio.py" /\ skip_cutting a = false /\
       script_args = [audio_file_of a; "-d"; str_int (duration a);
                      "-o"; chunks_dir_of a; "-f"; audio_format a]) \/
      (s = "transcribe_audio.py" /\ skip_transcription a = false /\
       script_args = [transcription_input_of a; "-l"; language a; "-m"; model a;
                      "-o"; path_join (resolved_output_dir a)
                              (stem (input_file a) +:+ "_transcripts");
                      "-f"; format a])
  end.

(** What a step adds to the trace: planned events only, for a prefix of
    the scripts left to run, and for all of them when the run ends
    with status 0. *)
Definition follows {frame : Type} (a : args) (plan : list string)
    (r : run (frame:=frame)) (st : state (frame:=frame)) : Prop :=
  exists l,
    events r = st.1 ++ l /\
    Forall (planned a) l /\
    omap event_script l `prefix_of` plan /\
    (result r = Returned 0 -> omap event_script l = plan).

End ProcessMedia.

(** ** Concrete inputs used by the examples *)

Module Demo.

(** A five-millisecond recording [in.wav] in an otherwise empty tree. *)
Definition short_audio : list Z := [10; 11; 12; 13; 14].
Definition short_fs : FS.t Z := FS.mk {[ "in.wav" := FS.Audio short_audio ]} ∅.

(** A recording of one minute and one millisecond. *)
Definition long_audio : list Z := repeat 0 (Z.to_nat 60001).
Definition long_fs : FS.t Z := FS.mk {[ "long.wav" := FS.Audio long_audio ]} ∅.

(** An empty recording: a file that loads and has length zero. *)
Definition empty_fs : FS.t Z := FS.mk {[ "silence.wav" := FS.Audio [] ]} ∅.

Definition always (_ : string) : bool := true.

(** Failed exports that leave nothing behind, and failed exports that
    leave the opened, empty file. *)
Definition untouched (_ : string) : option string := None.
Definition emptied (_ : string) : option string := Some "".

(** Two segments, the second with a comma in its text and blanks
    around it. *)
(** A directory [d] whose listing comes back unsorted, one name in
    capitals. *)
Definition dir_fs : FS.t Z := FS.mk ∅ {[ "d" ]}.
Definition listing (_ : string) : list string :=
  ["b.wav"; "TALK.MP3"; "notes.txt"; "a.mp3"].
Definition engine (_ : string) (_ : gmap string string) : option Transcribe.transcript :=
  Some (Transcribe.mk_transcript "hi" [] "en").
Definition no_json (_ : Transcribe.transcript) : string := "{}".

(** A video next to an audio file of the same name, and an ffmpeg that
    would overwrite the audio file. *)
Definition video_fs : FS.t Z :=
  FS.mk {[ "talk.mp4" := FS.Bytes "video"; "talk.mp3" := FS.Audio [1; 2; 3] ]} ∅.
Definition ffmpeg (cmd : list string) (w : FS.t Z)
    : VideoToAudio.ffmpeg_outcome * FS.t Z :=
  (VideoToAudio.Exited 0 "", FS.write "talk.mp3" (FS.Audio [4; 5]) w).

(** Children of the orchestrator: the conversion fails after leaving a
    partial file; the other scripts would succeed. *)
Definition child (script : string) (script_args : list string) (w : FS.t Z)
    : bool * FS.t Z :=
  if String.eqb script "video_to_audio.py"
  then (false, FS.write "out/talk.mp3" (FS.Bytes "partial") w)
  else (true, FS.mk (FS.files w) ({[ "out/talk_chunks"; "out/talk_transcripts" ]} ∪ FS.dirs w)).
Definition pipeline_args : ProcessMedia.args :=
  ProcessMedia.mk_args "talk.mp4" "en" false false false 10 "base" "srt"
    (Some "out") "mp3" "192k".

(** Two recordings of one name, and an engine that transcribes every
    file as its own path. *)
Definition twin_listing (_ : string) : list string := ["a.wav"; "a.mp3"].
Definition echo_engine (file : string) (_ : gmap string string)
    : option Transcribe.transcript :=
  Some (Transcribe.mk_transcript file [] "en").

Definition two_segments : list Transcribe.segment :=
  [ Transcribe.mk_segment 0 (5 # 2) " Hello, world. ";
    Transcribe.mk_segment (5 # 2) (251 # 2) "Good bye" ].

End Demo.

(** * Properties *)

#[local] Open Scope string_scope.
#[local] Open Scope Z_scope.
#[local] Open Scope list_scope.

(** ** Python primitives *)

Example format_0d_examples :
  Py.format_0d 3 7 = "007" /\ Py.format_0d 2 (-5) = "-5" /\
  Py.format_0d 3 (-5) = "-05" /\ Py.format_0d 3 1234 = "1234" /\
  Py.str_int 0 = "0" /\ Py.str_int 120 = "120".
Proof. repeat split; vm_compute; reflexivity. Qed.

Example format_0_3f_examples :
  Py.format_0_3f 6 (11 # 2) = "05.500" /\
  Py.format_0_3f 6 (1 # 16) = "00.062" /\
  Py.format_0_3f 6 (3 # 16) = "00.188" /\
  Py.format_0_3f 6 (599996 # 10000) = "60.000" /\
  Py.format_0_3f 6 (-1 # 3) = "-0.333".
Proof. repeat split; vm_compute; reflexivity. Qed.

Example strip_examples :
  Py.strip "  a b  " = "a b" /\ Py.strip "   " = "" /\ Py.strip "x" = "x".
Proof. repeat split; vm_compute; reflexivity. Qed.

(** A no-break space (U+00A0) and an ideographic space (U+3000) are
    stripped too; a zero-width space (U+200B) is not whitespace. *)
Example strip_unicode_examples :
  Py.strip "  hi 　" = "hi" /\ Py.strip "​x " = "​x".
Proof. repeat split; vm_compute; reflexivity. Qed.

(** Floats: the double nearest to a tenth, and to 2^53 + 1; [%] and
    [//] on a tiny negative number, where the remainder rounds up to
    the divisor. *)
Example float_examples :
  (Py.nearest_double (1 # 10) == 3602879701896397 # 36028797018963968)%Q /\
  (Py.nearest_double (inject_Z (2 ^ 53 + 1)) == inject_Z (2 ^ 53))%Q /\
  (Py.fmod (-1 # 10 ^ 20) 3600 == 3600)%Q /\
  (Py.floordiv (-1 # 10 ^ 20) 3600 == -1)%Q /\
  (Py.floordiv (7 # 2) 2 == 1)%Q /\ (Py.fmod (-7 # 2) 2 == 1 # 2)%Q.
Proof. repeat split; vm_compute; reflexivity. Qed.

(** Paths: the current directory and the root on the left of [/]. *)
Example path_join_examples :
  Py.path_join "." "transcripts" = "transcripts" /\
  Py.path_join "/" "x.mp3" = "/x.mp3" /\
  Py.path_join "out" "x.mp3" = "out/x.mp3" /\
  FS.ancestors "a/b/c" = ["a/b"; "a"] /\ FS.ancestors "/x" = [] /\
  FS.ancestors "talk_chunks" = [].
Proof. repeat split; vm_compute; reflexivity. Qed.

(** *** Strings *)

Lemma append_cons (c : ascii) (s t : string) :
  String c s +:+ t = String c (s +:+ t).
Proof. reflexivity. Qed.

Lemma append_nil_l (s : string) : "" +:+ s = s.
Proof. reflexivity. Qed.

Lemma append_length (s t : string) :
  String.length (s +:+ t) = (String.length s + String.length t)%nat.
Proof.
  induction s as [|c s IH]; [done|].
  rewrite append_cons. simpl. now rewrite IH.
Qed.

Lemma append_assoc (s t u : string) : (s +:+ t) +:+ u = s +:+ (t +:+ u).
Proof.
  induction s as [|c s IH]; [done|]. rewrite !append_cons. now rewrite IH.
Qed.

Lemma append_nil_r (s : string) : s +:+ "" = s.
Proof.
  induction s as [|c s IH]; [done|]. rewrite append_cons. now rewrite IH.
Qed.

Lemma append_inv_head (s t u : string) : s +:+ t = s +:+ u -> t = u.
Proof.
  induction s as [|c s IH]; [done|]. rewrite !append_cons. intros [= H]. auto.
Qed.

(** [Path(a) / b] puts a prefix that depends on [a] alone in front of
    [b]. *)
Lemma path_join_prefix (a : string) :
  exists pre, forall b, Py.path_join a b = pre +:+ b.
Proof.
  unfold Py.path_join. destruct (String.eqb a ".").
  - exists "". intros b. now rewrite append_nil_l.
  - destruct (String.eqb a "/"); [now exists a|].
    exists (a +:+ "/"). intros b. now rewrite append_assoc.
Qed.

Lemma append_inv_tail (s t u : string) : s +:+ u = t +:+ u -> s = t.
Proof.
  revert t. induction s as [|c s IH]; intros [|d t] H.
  - reflexivity.
  - apply (f_equal String.length) in H. rewrite !append_length in H. simpl in H. lia.
  - apply (f_equal String.length) in H. rewrite !append_length in H. simpl in H. lia.
  - rewrite !append_cons in H. injection H as -> H. f_equal. auto.
Qed.

(** *** Decimal digits *)

Lemma string_forall_app p s t :
  Py.string_forall p (s +:+ t) = Py.string_forall p s && Py.string_forall p t.
Proof.
  induction s as [|c s IH]; [done|].
  rewrite append_cons. simpl. now rewrite IH, andb_assoc.
Qed.

Lemma string_forall_impl (p q : ascii -> bool) s :
  (forall c, p c = true -> q c = true) ->
  Py.string_forall p s = true -> Py.string_forall q s = true.
Proof.
  intros Hpq. induction s as [|c s IH]; simpl; [done|].
  rewrite !andb_true_iff. intros [? ?]. auto.
Qed.

Lemma digit_char_is_digit (d : N) : (d < 10)%N -> Py.is_digit (Py.digit_char d) = true.
Proof.
  intros Hd. unfold Py.is_digit, Py.digit_char.
  rewrite N_ascii_embedding by lia.
  apply andb_true_iff. split; apply N.leb_le; lia.
Qed.

Lemma digit_value_char (d : N) : (d < 10)%N -> Py.digit_value (Py.digit_char d) = d.
Proof.
  intros Hd. unfold Py.digit_value, Py.digit_char.
  rewrite N_ascii_embedding by lia. lia.
Qed.

Lemma dec_digits_aux_spec (fuel : nat) : forall (n : N) (acc : string),
  (n < 2 ^ N.of_nat fuel)%N ->
  exists ds, (Py.dec_digits_aux fuel n acc = ds +:+ acc) /\
    (Py.string_forall Py.is_digit ds = true) /\
    (fuel <> O -> ds <> "") /\
    (Py.parse_dec (ds +:+ acc)
      = (n * 10 ^ N.of_nat (String.length acc) + Py.parse_dec acc)%N).
Proof.
  induction fuel as [|fuel IH]; intros n acc Hn.
  - assert (n = 0%N) as -> by (simpl in Hn; lia).
    exists "". rewrite append_nil_l. repeat split; try done.
  - simpl Py.dec_digits_aux.
    assert (Hd : (n mod 10 < 10)%N) by (apply N.mod_lt; lia).
    pose proof (N.div_mod n 10 ltac:(lia)) as Hdm.
    destruct (N.eqb_spec (n / 10) 0) as [Hq|Hq].
    + exists (String (Py.digit_char (n mod 10)) "").
      rewrite append_cons, append_nil_l. simpl.
      rewrite digit_char_is_digit, digit_value_char by done.
      repeat split; try done. f_equal. f_equal. lia.
    + assert (Hn' : (n / 10 < 2 ^ N.of_nat fuel)%N).
      { apply N.Div0.div_lt_upper_bound.
        rewrite Nat2N.inj_succ, N.pow_succ_r' in Hn. lia. }
      destruct (IH (n / 10)%N (String (Py.digit_char (n mod 10)) acc) Hn')
        as (ds & E & Hds & _ & Hv).
      exists (ds +:+ String (Py.digit_char (n mod 10)) "").
      rewrite append_assoc, append_cons, append_nil_l. split; [exact E|].
      split.
      { rewrite string_forall_app, Hds. simpl. now rewrite digit_char_is_digit. }
      split.
      { intros _ H. apply (f_equal String.length) in H.
        rewrite append_length in H. simpl in H. lia. }
      rewrite Hv. simpl.
      rewrite digit_value_char by done.
      rewrite Nat2N.inj_succ, N.pow_succ_r'. lia.
Qed.

Lemma dec_digits_spec (n : N) :
  Py.string_forall Py.is_digit (Py.dec_digits n) = true /\
  Py.dec_digits n <> "" /\
  Py.parse_dec (Py.dec_digits n) = n.
Proof.
  unfold Py.dec_digits.
  assert (Hn : (n < 2 ^ N.of_nat (S (N.to_nat (N.size n))))%N).
  { rewrite Nat2N.inj_succ, N.pow_succ_r', N2Nat.id.
    pose proof (N.size_gt n). lia. }
  destruct (dec_digits_aux_spec _ n "" Hn) as (ds & -> & Hds & Hne & Hv).
  rewrite append_nil_r in *. repeat split; auto.
  rewrite Hv. change (N.of_nat (String.length "")) with 0%N.
  rewrite N.pow_0_r. simpl. lia.
Qed.

Lemma parse_dec_zeros (k : nat) (s : string) :
  Py.parse_dec (Py.zeros k +:+ s) = Py.parse_dec s.
Proof.
  induction k as [|k IH]; [done|].
  change (Py.zeros (S k)) with (String "0" (Py.zeros k)).
  rewrite append_cons.
  change (Py.parse_dec (String "0" (Py.zeros k +:+ s)))
    with (0 * 10 ^ N.of_nat (String.length (Py.zeros k +:+ s))
          + Py.parse_dec (Py.zeros k +:+ s))%N.
  rewrite IH. lia.
Qed.

Lemma zeros_length (k : nat) : String.length (Py.zeros k) = k.
Proof. induction k as [|k IH]; simpl; [done|]. now rewrite IH. Qed.

Lemma zeros_digits (k : nat) : Py.string_forall Py.is_digit (Py.zeros k) = true.
Proof. induction k as [|k IH]; simpl; done. Qed.

(** A non-negative number can be read back from its zero-filled form. *)
Lemma parse_format_0d (width : nat) (n : Z) :
  0 <= n -> Py.parse_dec (Py.format_0d width n) = Z.to_N n.
Proof.
  intros Hn. unfold Py.format_0d.
  destruct (Z.ltb_spec n 0) as [?|_]; [lia|]. rewrite ?append_cons, ?append_nil_l.
  rewrite parse_dec_zeros.
  destruct (dec_digits_spec (Z.abs_N n)) as (_ & _ & ->). lia.
Qed.

Lemma format_0d_inj (width : nat) (n m : Z) :
  0 <= n -> 0 <= m -> Py.format_0d width n = Py.format_0d width m -> n = m.
Proof.
  intros Hn Hm E. apply (f_equal Py.parse_dec) in E.
  rewrite !parse_format_0d in E by done. lia.
Qed.

Lemma format_0d_nonneg_digits (width : nat) (n : Z) :
  0 <= n -> Py.string_forall Py.is_digit (Py.format_0d width n) = true.
Proof.
  intros Hn. unfold Py.format_0d.
  destruct (Z.ltb_spec n 0) as [?|_]; [lia|]. rewrite ?append_cons, ?append_nil_l.
  rewrite string_forall_app, zeros_digits.
  now destruct (dec_digits_spec (Z.abs_N n)) as (-> & _).
Qed.

(** ** The chunker *)

Lemma Qfloor_truediv (a b : Z) :
  0 < b -> Qfloor (inject_Z a / inject_Z b) = a / b.
Proof.
  intros Hb. destruct b as [|p|p]; try lia.
  unfold Qdiv, Qinv, Qmult, inject_Z, Qfloor. simpl.
  rewrite Z.mul_1_r. reflexivity.
Qed.

Lemma Qceiling_truediv (a b : Z) :
  0 < b -> Qceiling (inject_Z a / inject_Z b) = - ((- a) / b).
Proof.
  intros Hb. unfold Qceiling. f_equal.
  assert (E : (- (inject_Z a / inject_Z b) == inject_Z (- a) / inject_Z b)%Q).
  { unfold Qdiv. rewrite inject_Z_opp. ring. }
  rewrite E. apply Qfloor_truediv; lia.
Qed.

(** The ceiling of [a / b] is the least [n] with [a <= n * b]. *)
Lemma ceiling_bounds (a b : Z) :
  0 < b -> (- ((- a) / b) - 1) * b < a <= - ((- a) / b) * b.
Proof.
  intros Hb.
  pose proof (Z.div_mod (- a) b ltac:(lia)).
  pose proof (Z.mod_pos_bound (- a) b Hb). nia.
Qed.

(** *** Floors and roundings *)

Lemma Qfloor_bounds (x : Q) :
  (inject_Z (Qfloor x) <= x < inject_Z (Qfloor x) + 1)%Q.
Proof.
  split; [apply Qfloor_le|].
  pose proof (Qlt_floor x) as H. rewrite inject_Z_plus in H. exact H.
Qed.

Lemma Qfloor_range (x : Q) (a b : Z) :
  (inject_Z a <= x < inject_Z b)%Q -> a <= Qfloor x < b.
Proof.
  intros [Ha Hb]. split.
  - rewrite <- (Qfloor_Z a). now apply Qfloor_resp_le.
  - pose proof (Qfloor_le x) as Hf.
    assert (H : (inject_Z (Qfloor x) < inject_Z b)%Q) by lra.
    now rewrite <- Zlt_Qlt in H.
Qed.

Lemma round_half_even_range (q : Q) (a b : Z) :
  (inject_Z a <= q < inject_Z b)%Q -> a <= Py.round_half_even q <= b.
Proof.
  intros H. apply Qfloor_range in H. unfold Py.round_half_even. cbv zeta.
  destruct (Qcompare _ _); [destruct (Z.even _)|..]; lia.
Qed.

(** Rounding moves a value by at most one half. *)
Lemma round_half_even_near (q : Q) :
  (inject_Z (Py.round_half_even q) - (1 # 2) <= q
   <= inject_Z (Py.round_half_even q) + (1 # 2))%Q.
Proof.
  unfold Py.round_half_even. cbv zeta. pose proof (Qfloor_bounds q) as [H1 H2].
  destruct (Qcompare (q - inject_Z (Qfloor q)) (1 # 2)) eqn:E.
  - apply Qeq_alt in E.
    destruct (Z.even _); rewrite ?inject_Z_plus;
      change (inject_Z 1) with 1%Q; split; lra.
  - apply Qlt_alt in E. split; lra.
  - apply Qgt_alt in E. rewrite inject_Z_plus.
    change (inject_Z 1) with 1%Q. split; lra.
Qed.

Lemma round_half_even_int (q : Q) (z : Z) :
  (q == inject_Z z)%Q -> Py.round_half_even q = z.
Proof.
  intros E. pose proof (round_half_even_near q) as [H1 H2].
  set (n := Py.round_half_even q) in *.
  assert (Hlo : (inject_Z n < inject_Z (z + 1))%Q)
    by (rewrite inject_Z_plus; change (inject_Z 1) with 1%Q; lra).
  assert (Hhi : (inject_Z z < inject_Z (n + 1))%Q)
    by (rewrite inject_Z_plus; change (inject_Z 1) with 1%Q; lra).
  rewrite <- Zlt_Qlt in Hlo, Hhi. lia.
Qed.

Lemma round_half_even_nonneg (q : Q) : (0 <= q)%Q -> 0 <= Py.round_half_even q.
Proof.
  intros H. assert (Hf : 0 <= Qfloor q).
  { change 0 with (Qfloor 0). now apply Qfloor_resp_le. }
  unfold Py.round_half_even. cbv zeta.
  destruct (Qcompare _ _); [destruct (Z.even _)|..]; lia.
Qed.

Lemma round_half_even_comp (p q : Q) :
  (p == q)%Q -> Py.round_half_even p = Py.round_half_even q.
Proof.
  intros E. unfold Py.round_half_even. cbv zeta.
  rewrite (Qfloor_comp _ _ E).
  assert (E' : (p - inject_Z (Qfloor q) == q - inject_Z (Qfloor q))%Q)
    by (rewrite E; reflexivity).
  now rewrite (Qcompare_comp _ _ E' _ _ (Qeq_refl (1 # 2))).
Qed.

Lemma round_half_even_le (q : Q) (z : Z) :
  (q <= inject_Z z)%Q -> Py.round_half_even q <= z.
Proof.
  intros H. pose proof (Qfloor_bounds q) as [H1 H2].
  assert (Hf : Qfloor q <= z).
  { rewrite <- (Qfloor_Z z). now apply Qfloor_resp_le. }
  unfold Py.round_half_even. cbv zeta.
  destruct (Z.eq_dec (Qfloor q) z) as [E|E].
  - rewrite E in *.
    assert (Eq : (q - inject_Z z == 0)%Q) by lra.
    rewrite (Qcompare_comp _ _ Eq _ _ (Qeq_refl (1 # 2))).
    change ((0 ?= 1 # 2)%Q) with Lt. cbv iota. lia.
  - destruct (Qcompare _ _); [destruct (Z.even _)|..]; lia.
Qed.

Lemma round_half_even_gt (q : Q) (z : Z) :
  (inject_Z z + (1 # 2) < q)%Q -> z < Py.round_half_even q.
Proof.
  intros H. pose proof (round_half_even_near q) as [_ H2].
  assert (H3 : (inject_Z z < inject_Z (Py.round_half_even q))%Q) by lra.
  now rewrite <- Zlt_Qlt in H3.
Qed.

Lemma round_half_even_small (q : Q) :
  (0 <= q <= 1 # 2)%Q -> Py.round_half_even q = 0.
Proof.
  intros [H0 H1].
  assert (Hf : 0 <= Qfloor q < 1).
  { apply Qfloor_range. change (inject_Z 0) with 0%Q. change (inject_Z 1) with 1%Q.
    split; lra. }
  assert (Ef : Qfloor q = 0) by lia.
  unfold Py.round_half_even. cbv zeta. rewrite Ef.
  destruct (Qcompare (q - inject_Z 0) (1 # 2)) eqn:E; try reflexivity.
  apply Qgt_alt in E. change (inject_Z 0) with 0%Q in E. lra.
Qed.

Lemma ceiling_unique (M R k : Z) :
  0 < R -> k * R < M <= (k + 1) * R -> - ((- M) / R) = k + 1.
Proof.
  intros HR H.
  assert (E : - (k + 1) = (- M) / R).
  { apply (Z.div_unique (- M) R (- (k + 1)) ((k + 1) * R - M)); [left; lia | ring]. }
  lia.
Qed.

Lemma Qlt_half_div (z n b : Z) :
  0 < b -> (2 * z + 1) * b < 2 * n ->
  (inject_Z z + (1 # 2) < inject_Z n / inject_Z b)%Q.
Proof.
  intros Hb H. apply Qlt_shift_div_l; [now rewrite <- (Zlt_Qlt 0)|].
  unfold Qlt, Qplus, Qmult, inject_Z. cbn. lia.
Qed.

(** *** Doubles *)

Lemma inject_Z_nonzero (z : Z) : 0 < z -> ~ (inject_Z z == 0)%Q.
Proof.
  intros Hz E. unfold Qeq in E. cbn in E. lia.
Qed.

(** A whole number below 2^53 is a double. *)
Lemma nearest_double_int (q : Q) (n : Z) :
  (q == inject_Z n)%Q -> 0 <= n < 2 ^ 53 -> (Py.nearest_double q == inject_Z n)%Q.
Proof.
  intros E Hn. unfold Py.nearest_double. cbv zeta.
  set (P := 2 ^ 1074).
  assert (HP : 0 < P) by (unfold P; apply Z.pow_pos_nonneg; lia).
  assert (Ey : (q * inject_Z P == inject_Z (n * P))%Q)
    by (rewrite E, inject_Z_mult; reflexivity).
  assert (Eabs : (Qabs (q * inject_Z P) == inject_Z (n * P))%Q).
  { rewrite Ey. apply Qabs_pos. rewrite <- (Zle_Qle 0). nia. }
  rewrite (Qfloor_comp _ _ Eabs), Qfloor_Z.
  set (d := Z.max 0 (Z.log2 (n * P) - 52)).
  assert (Hd : 0 <= d <= 1074).
  { unfold d. destruct (Z.eq_dec n 0) as [->|Hn0].
    - rewrite Z.mul_0_l. change (Z.log2 0) with 0. lia.
    - unfold P. rewrite Z.log2_mul_pow2 by lia.
      assert (Z.log2 n < 53) by (apply Z.log2_lt_pow2; lia). lia. }
  assert (EP : P = 2 ^ (1074 - d) * 2 ^ d).
  { unfold P. rewrite <- Z.pow_add_r by lia. f_equal. lia. }
  clearbody d P.
  assert (HS : 0 < 2 ^ d) by (apply Z.pow_pos_nonneg; lia).
  assert (HR : 0 < 2 ^ (1074 - d)) by (apply Z.pow_pos_nonneg; lia).
  set (S := 2 ^ d) in *. set (R := 2 ^ (1074 - d)) in *. clearbody S R. subst P.
  pose proof (inject_Z_nonzero S HS) as HS0.
  pose proof (inject_Z_nonzero R HR) as HR0.
  assert (Er : (q * inject_Z (R * S) / inject_Z S == inject_Z (n * R))%Q).
  { rewrite E, !inject_Z_mult. now field. }
  rewrite (round_half_even_int _ _ Er).
  rewrite !inject_Z_mult. now field.
Qed.

Lemma nearest_double_nonneg (q : Q) : (0 <= q)%Q -> (0 <= Py.nearest_double q)%Q.
Proof.
  intros Hq. unfold Py.nearest_double. cbv zeta.
  set (y := (q * inject_Z (2 ^ 1074))%Q).
  set (d := Z.max 0 (Z.log2 (Qfloor (Qabs y)) - 52)).
  assert (HP : 0 < 2 ^ 1074) by (apply Z.pow_pos_nonneg; lia).
  assert (HS : 0 < 2 ^ d) by (apply Z.pow_pos_nonneg; lia).
  set (P := 2 ^ 1074) in *. set (S := 2 ^ d) in *. clearbody P S.
  assert (HPq : (0 < inject_Z P)%Q) by (now rewrite <- (Zlt_Qlt 0)).
  assert (HSq : (0 < inject_Z S)%Q) by (now rewrite <- (Zlt_Qlt 0)).
  assert (Hy : (0 <= y)%Q) by (unfold y; apply Qmult_le_0_compat; lra).
  assert (Hr : 0 <= Py.round_half_even (y / inject_Z S)).
  { apply round_half_even_nonneg. apply Qle_shift_div_l; lra. }
  apply Qle_shift_div_l; [exact HPq|].
  rewrite Qmult_0_l. rewrite <- (Zle_Qle 0). nia.
Qed.

(** *** [%] and [//] on a non-negative float and a positive divisor *)

Lemma int_of_Z (z : Z) : Py.int_of (inject_Z z) = z.
Proof. unfold Py.int_of. cbn. apply Z.quot_1_r. Qed.

Lemma int_of_nonneg (q : Q) : (0 <= q)%Q -> Py.int_of q = Qfloor q.
Proof.
  intros H. destruct q as [n d]. unfold Py.int_of, Qfloor. cbn.
  apply Z.quot_div_nonneg; [|lia]. unfold Qle in H. cbn in H. lia.
Qed.

Lemma Qnum_nonneg (q : Q) : (0 <= q)%Q -> (Qnum q <? 0) = false.
Proof. intros H. apply Z.ltb_ge. unfold Qle in H. cbn in H. lia. Qed.

(** C's [fmod] leaves the remainder of the floored division, and no
    sign to put right. *)
Lemma c_fmod_nonneg (x y : Q) :
  (0 <= x)%Q -> (0 < y)%Q ->
  Py.c_fmod x y = (x - y * inject_Z (Qfloor (x / y)))%Q /\
  (0 <= Py.c_fmod x y < y)%Q /\
  Py.wrong_sign (Py.c_fmod x y) y = false.
Proof.
  intros Hx Hy.
  assert (Hq : (0 <= x / y)%Q) by (apply Qle_shift_div_l; lra).
  assert (Em : Py.c_fmod x y = (x - y * inject_Z (Qfloor (x / y)))%Q).
  { unfold Py.c_fmod. now rewrite (int_of_nonneg _ Hq). }
  assert (Hm : (0 <= Py.c_fmod x y < y)%Q).
  { rewrite Em. pose proof (Qfloor_bounds (x / y)) as [H1 H2].
    set (f := inject_Z (Qfloor (x / y))) in *.
    assert (E : (x == y * (x / y))%Q) by (field; lra).
    split.
    - assert (y * f <= y * (x / y))%Q by (apply Qmult_le_l; lra). lra.
    - assert (y * (x / y) < y * (f + 1))%Q by (apply Qmult_lt_l; lra). lra. }
  split; [exact Em|]. split; [exact Hm|].
  unfold Py.wrong_sign. rewrite (Qnum_nonneg (Py.c_fmod x y)) by apply Hm.
  rewrite (Qnum_nonneg y) by lra. cbn. apply andb_false_r.
Qed.

(** [x % y] is exact. *)
Lemma fmod_nonneg (x y : Q) :
  (0 <= x)%Q -> (0 < y)%Q ->
  Py.fmod x y = (x - y * inject_Z (Qfloor (x / y)))%Q.
Proof.
  intros Hx Hy. destruct (c_fmod_nonneg x y Hx Hy) as (Em & _ & Hws).
  unfold Py.fmod. cbv zeta. now rewrite Hws.
Qed.

(** [x % y] lies in [[0, y)]. *)
Lemma fmod_bounds (x y : Q) :
  (0 <= x)%Q -> (0 < y)%Q -> (0 <= Py.fmod x y < y)%Q.
Proof.
  intros Hx Hy. destruct (c_fmod_nonneg x y Hx Hy) as (_ & Hm & Hws).
  unfold Py.fmod. cbv zeta. now rewrite Hws.
Qed.

(** [x // y] is a whole number, not negative. *)
Lemma floordiv_nonneg (x y : Q) :
  (0 <= x)%Q -> (0 < y)%Q ->
  exists z : Z, Py.floordiv x y = inject_Z z /\ 0 <= z.
Proof.
  intros Hx Hy. destruct (c_fmod_nonneg x y Hx Hy) as (Em & Hm & Hws).
  unfold Py.floordiv. cbv zeta. rewrite Hws.
  assert (Hk : 0 <= Qfloor (x / y)).
  { change 0 with (Qfloor 0). apply Qfloor_resp_le. apply Qle_shift_div_l; lra. }
  assert (H1 : (0 <= x - Py.c_fmod x y)%Q).
  { destruct Hm as [_ Hm]. rewrite Em in Hm |- *. rewrite (Zle_Qle 0) in Hk.
    change (inject_Z 0) with 0%Q in Hk.
    assert (0 <= y * inject_Z (Qfloor (x / y)))%Q by (apply Qmult_le_0_compat; lra).
    lra. }
  apply nearest_double_nonneg in H1.
  assert (H2 : (0 <= Py.nearest_double (x - Py.c_fmod x y) / y)%Q)
    by (apply Qle_shift_div_l; lra).
  apply nearest_double_nonneg in H2.
  set (div := Py.nearest_double (Py.nearest_double (x - Py.c_fmod x y) / y)) in *.
  assert (Hf : 0 <= Qfloor div).
  { change 0 with (Qfloor 0). now apply Qfloor_resp_le. }
  destruct (Qcompare _ _); eexists; (split; [reflexivity|lia]).
Qed.

(** [x // y] is the floor of the quotient as long as the whole
    multiple of the divisor below [x] is less than 2^53: the
    subtraction and the division of line [div = (vx - mod) / wx] are
    then exact. *)
Lemma floordiv_exact (x : Q) (c : Z) :
  (0 <= x)%Q -> 0 < c -> c * Qfloor (x / inject_Z c) < 2 ^ 53 ->
  Py.floordiv x (inject_Z c) = inject_Z (Qfloor (x / inject_Z c)).
Proof.
  intros Hx Hc Hbound.
  assert (Hy : (0 < inject_Z c)%Q) by (now rewrite <- (Zlt_Qlt 0)).
  destruct (c_fmod_nonneg x (inject_Z c) Hx Hy) as (Em & Hm & Hws).
  set (k := Qfloor (x / inject_Z c)) in *.
  assert (Hk : 0 <= k).
  { change 0 with (Qfloor 0). apply Qfloor_resp_le. apply Qle_shift_div_l; lra. }
  unfold Py.floordiv. cbv zeta. rewrite Hws.
  assert (E1 : (x - Py.c_fmod x (inject_Z c) == inject_Z (c * k))%Q)
    by (rewrite Em, inject_Z_mult; ring).
  assert (Hck : 0 <= c * k /\ k <= c * k) by nia.
  assert (Hc53 : 0 <= c * k < 2 ^ 53) by (split; [apply Hck | exact Hbound]).
  assert (Hk53 : 0 <= k < 2 ^ 53) by (split; [exact Hk | lia]).
  assert (E2 : (Py.nearest_double (x - Py.c_fmod x (inject_Z c)) / inject_Z c
                == inject_Z k)%Q).
  { rewrite (nearest_double_int _ _ E1 Hc53). rewrite inject_Z_mult.
    field. now apply inject_Z_nonzero. }
  pose proof (nearest_double_int _ _ E2 Hk53) as E3.
  set (div := Py.nearest_double
                (Py.nearest_double (x - Py.c_fmod x (inject_Z c)) / inject_Z c)) in *.
  rewrite (Qfloor_comp _ _ E3), Qfloor_Z.
  assert (E4 : (div - inject_Z k == 0)%Q) by (rewrite E3; ring).
  rewrite (Qcompare_comp _ _ E4 _ _ (Qeq_refl (1 # 2))). reflexivity.
Qed.

(** The number of chunks for a non-negative length and a positive
    chunk duration: zero when the quotient underflows, else the least
    [n] with [a <= n * b]. *)
Lemma ceil_truediv_pos (a b : Z) :
  0 <= a -> 0 < b ->
  exists n, CutAudio.ceil_truediv a b = Py.Returned n /\ 0 <= n /\
    (a * 2 ^ 1075 <= b -> n = 0) /\
    (b < a * 2 ^ 1075 -> (n - 1) * b < a <= n * b).
Proof.
  intros Ha Hb. unfold CutAudio.ceil_truediv.
  destruct (Z.eqb_spec b 0) as [->|_]; [lia|].
  rewrite (Z.abs_eq a), (Z.abs_eq b) by lia.
  destruct (Z.leb_spec (a * 2 ^ 1075) b) as [Hu|Hu].
  - exists 0. repeat split; lia.
  - exists (- ((- a) / b)). rewrite Qceiling_truediv by done.
    pose proof (ceiling_bounds a b Hb) as Hc.
    repeat split; lia.
Qed.

(** The double nearest to a quotient [a / b] of a dividend below 2^53:
    the quotient rounded to a whole multiple of [1 / R], where [R] is
    a power of two, the largest on the doubles' grid (2^1074) or one
    that leaves the quotient at least 52 bits. *)
Lemma nearest_double_quotient (a b : Z) :
  0 <= a < 2 ^ 53 -> 0 < b ->
  exists R : Z,
    0 < R <= 2 ^ 1074 /\
    (R = 2 ^ 1074 \/ 2 ^ 52 * b <= a * R) /\
    (Py.nearest_double (inject_Z a / inject_Z b)
     == inject_Z (Py.round_half_even (inject_Z (a * R) / inject_Z b)) / inject_Z R)%Q.
Proof.
  intros Ha Hb. unfold Py.nearest_double. cbv zeta.
  pose proof (inject_Z_nonzero b Hb) as Hb0.
  assert (HP : 0 < 2 ^ 1074) by (apply Z.pow_pos_nonneg; lia).
  assert (Ey : (inject_Z a / inject_Z b * inject_Z (2 ^ 1074)
                == inject_Z (a * 2 ^ 1074) / inject_Z b)%Q)
    by (rewrite inject_Z_mult; now field).
  assert (Hy : (0 <= inject_Z (a * 2 ^ 1074) / inject_Z b)%Q).
  { apply Qle_shift_div_l; [now rewrite <- (Zlt_Qlt 0)|].
    rewrite Qmult_0_l, <- (Zle_Qle 0). apply Z.mul_nonneg_nonneg; lia. }
  assert (Eabs : (Qabs (inject_Z a / inject_Z b * inject_Z (2 ^ 1074))
                  == inject_Z (a * 2 ^ 1074) / inject_Z b)%Q)
    by (rewrite Ey; now apply Qabs_pos).
  rewrite (Qfloor_comp _ _ Eabs), Qfloor_truediv by done.
  set (F := a * 2 ^ 1074 / b).
  assert (HF : 0 <= F /\ F * b <= a * 2 ^ 1074).
  { unfold F. split; [apply Z.div_pos; [apply Z.mul_nonneg_nonneg|]; lia|].
    rewrite Z.mul_comm. apply Z.mul_div_le. lia. }
  assert (HF' : F < 2 ^ 1127).
  { apply Z.le_lt_trans with (a * 2 ^ 1074).
    - apply Z.le_trans with (F * b); [|apply HF].
      rewrite <- (Z.mul_1_r F) at 1. apply Z.mul_le_mono_nonneg_l; lia.
    - change (2 ^ 1127) with (2 ^ 53 * 2 ^ 1074).
      apply Z.mul_lt_mono_pos_r; lia. }
  set (d := Z.max 0 (Z.log2 F - 52)).
  assert (Hd : 0 <= d <= 1074).
  { unfold d. destruct (Z.eq_dec F 0) as [->|HF0]; [change (Z.log2 0) with 0; lia|].
    assert (Z.log2 F < 1127) by (apply Z.log2_lt_pow2; lia). lia. }
  assert (Hlog : d = 0 \/ 2 ^ 52 * 2 ^ d <= F).
  { unfold d. destruct (Z.max_spec 0 (Z.log2 F - 52)) as [[Hlt ->]|[Hge ->]].
    - right. rewrite <- Z.pow_add_r by lia.
      replace (52 + (Z.log2 F - 52)) with (Z.log2 F) by lia.
      apply Z.log2_spec. destruct (Z.eq_dec F 0) as [E|E]; [|lia].
      rewrite E in Hlt. change (Z.log2 0) with 0 in Hlt. lia.
    - now left. }
  assert (EP : 2 ^ 1074 = 2 ^ (1074 - d) * 2 ^ d).
  { rewrite <- Z.pow_add_r by lia. f_equal. lia. }
  assert (HS : 0 < 2 ^ d) by (apply Z.pow_pos_nonneg; lia).
  assert (HR : 0 < 2 ^ (1074 - d)) by (apply Z.pow_pos_nonneg; lia).
  assert (Hd0 : d = 0 -> 2 ^ (1074 - d) = 2 ^ 1074) by (intros ->; reflexivity).
  clearbody d F.
  set (S := 2 ^ d) in *. set (R := 2 ^ (1074 - d)) in *.
  set (P := 2 ^ 1074) in *. set (c52 := 2 ^ 52) in *.
  clearbody S R P c52.
  exists R. split; [|split].
  - split; [exact HR|]. rewrite EP. rewrite <- (Z.mul_1_r R) at 1.
    apply Z.mul_le_mono_nonneg_l; lia.
  - destruct Hlog as [Hz|Hlog]; [left; now apply Hd0|]. right.
    apply (Z.mul_le_mono_pos_r _ _ S HS).
    apply Z.le_trans with (F * b).
    + replace (c52 * b * S) with (c52 * S * b) by ring.
      apply Z.mul_le_mono_nonneg_r; lia.
    + replace (a * R * S) with (a * (R * S)) by ring. rewrite <- EP. apply HF.
  - pose proof (inject_Z_nonzero S HS) as HS0.
    pose proof (inject_Z_nonzero R HR) as HR0.
    assert (Er : (inject_Z a / inject_Z b * inject_Z P / inject_Z S
                  == inject_Z (a * R) / inject_Z b)%Q).
    { rewrite EP, !inject_Z_mult. now field. }
    rewrite (round_half_even_comp _ _ Er).
    rewrite EP, !inject_Z_mult. now field.
Qed.

(** [ceil_truediv] is the ceiling of the double quotient. *)
Lemma ceil_truediv_double (a b : Z) :
  0 <= a < 2 ^ 53 -> 0 < b ->
  CutAudio.ceil_truediv a b
  = Py.Returned (Qceiling (Py.nearest_double (inject_Z a / inject_Z b))).
Proof.
  intros Ha Hb.
  destruct (nearest_double_quotient a b Ha Hb) as (R & HR & Hcase & Erd).
  rewrite (Qceiling_comp _ _ Erd), Qceiling_truediv by lia.
  set (M := Py.round_half_even (inject_Z (a * R) / inject_Z b)).
  assert (Hbq : (0 < inject_Z b)%Q) by (now rewrite <- (Zlt_Qlt 0)).
  unfold CutAudio.ceil_truediv. destruct (Z.eqb_spec b 0) as [?|_]; [lia|].
  rewrite (Z.abs_eq a), (Z.abs_eq b) by lia.
  change (2 ^ 1075) with (2 * 2 ^ 1074).
  assert (H53 : 2 ^ 53 = 2 * 2 ^ 52) by reflexivity.
  assert (H52 : 0 < 2 ^ 52 <= 2 ^ 1074) by (split; [reflexivity | apply Z.leb_le; reflexivity]).
  rewrite H53 in Ha. clear H53.
  set (P := 2 ^ 1074) in *. set (c52 := 2 ^ 52) in *. clearbody P c52.
  destruct (Z.leb_spec (a * (2 * P)) b) as [Hu|Hu].
  - (* the quotient is at most 2^-1075 *)
    f_equal. assert (HM : M = 0); [|rewrite HM; reflexivity].
    destruct Hcase as [->|Hcase].
    + apply round_half_even_small. split.
      * apply Qle_shift_div_l; [exact Hbq|].
        rewrite Qmult_0_l, <- (Zle_Qle 0). apply Z.mul_nonneg_nonneg; lia.
      * apply Qle_shift_div_r; [exact Hbq|].
        unfold Qle, Qmult, inject_Z. cbn. lia.
    + exfalso. assert (a * R <= a * P) by (apply Z.mul_le_mono_nonneg_l; lia). nia.
  - (* the quotient rounds to a double above the whole number below it *)
    f_equal. rewrite Qceiling_truediv by done.
    pose proof (ceiling_bounds a b Hb) as Hc.
    set (N := - (- a / b)) in *.
    replace N with (N - 1 + 1) by lia.
    assert (HN : 1 <= N) by nia.
    symmetry. apply ceiling_unique; [lia|]. split.
    + apply round_half_even_gt, Qlt_half_div; [exact Hb|].
      assert (Hgap : 1 <= a - (N - 1) * b) by lia.
      assert (Hb2R : b < 2 * R * (a - (N - 1) * b)); [|nia].
      destruct Hcase as [->|Hcase].
      * destruct (Z.eq_dec N 1) as [->|HN1].
        -- replace (a - (1 - 1) * b) with a by lia. lia.
        -- assert (b < a) by nia. nia.
      * assert (b < 2 * R); [|nia].
        apply (Z.mul_lt_mono_pos_l c52); [lia|].
        apply Z.le_lt_trans with (a * R); [exact Hcase|]. nia.
    + apply round_half_even_le. apply Qle_shift_div_r; [exact Hbq|].
      rewrite <- inject_Z_mult, <- Zle_Qle. nia.
Qed.

Lemma range_length (n : Z) : length (Py.range n) = Z.to_nat n.
Proof. unfold Py.range. now rewrite length_map, length_seq. Qed.

Lemma range_lookup (n : Z) (k : nat) :
  (k < Z.to_nat n)%nat -> Py.range n !! k = Some (Z.of_nat k).
Proof.
  intros Hk. unfold Py.range.
  rewrite list_lookup_fmap, lookup_seq_lt by done. reflexivity.
Qed.

Lemma range_succ (n : nat) :
  Py.range (Z.of_nat (S n)) = Py.range (Z.of_nat n) ++ [Z.of_nat n].
Proof.
  unfold Py.range. rewrite !Nat2Z.id, seq_S, map_app. reflexivity.
Qed.

Lemma elem_of_range (n i : Z) : i ∈ Py.range n <-> 0 <= i < n.
Proof.
  unfold Py.range. rewrite list_elem_of_fmap. split.
  - intros (k & -> & Hk). apply elem_of_seq in Hk. lia.
  - intros Hi. exists (Z.to_nat i). split; [lia|]. apply elem_of_seq. lia.
Qed.

Section ChunkerFacts.
Context {frame : Type}.
Variable mkdir_ok : string -> bool.
Variable export_ok : string -> bool.
Variable export_leaves : string -> option string.
Variable audio : list frame.
Variable T_ms : Z.
Variable output_dir output_format : string.

Let D := Z.of_nat (length audio).
Let body := CutAudio.loop_body export_ok export_leaves audio T_ms D output_dir output_format.
Let at_ := CutAudio.attempt_at export_ok audio T_ms D output_dir output_format.

Lemma loop_body_round s evs w i :
    body (s, evs, w) i =
      (s + CutAudio.round_count (at_ i), evs ++ [CutAudio.Export (at_ i)], CutAudio.round_write export_leaves w (at_ i)).
  Proof.
    unfold body, at_, CutAudio.loop_body, CutAudio.attempt_at,
      CutAudio.round_count, CutAudio.round_write.
    cbn. destruct (export_ok _); cbn; f_equal; try f_equal; lia.
  Qed.

Lemma loop_fold (ixs : list Z) s evs w :
    fold_left body ixs (s, evs, w) =
      (s + foldr Z.add 0 (map (fun i => CutAudio.round_count (at_ i)) ixs),
       evs ++ map (fun i => CutAudio.Export (at_ i)) ixs,
       fold_left (CutAudio.round_write export_leaves) (map at_ ixs) w).
  Proof.
    revert s evs w. induction ixs as [|i ixs IH]; intros s evs w.
    - cbn. now rewrite Z.add_0_r, app_nil_r.
    - change (fold_left body (i :: ixs) (s, evs, w))
        with (fold_left body ixs (body (s, evs, w) i)).
      rewrite loop_body_round, IH. rewrite <- app_assoc. cbn [map foldr app].
      replace (s + CutAudio.round_count (at_ i)
               + foldr Z.add 0 (map (fun i => CutAudio.round_count (at_ i)) ixs))
        with (s + (CutAudio.round_count (at_ i)
               + foldr Z.add 0 (map (fun i => CutAudio.round_count (at_ i)) ixs))) by lia.
      reflexivity.
  Qed.

  (** The slices of consecutive rounds, glued, are a prefix of the
      stream. *)
Lemma slices_prefix (n : nat) :
    0 < T_ms -> Z.of_nat n * T_ms <= D + T_ms ->
    concat (map (fun i => CutAudio.chunk (at_ i)) (Py.range (Z.of_nat n)))
      = take (Z.to_nat (Z.min (Z.of_nat n * T_ms) D)) audio.
  Proof.
    intros HT. induction n as [|n IH]; intros Hn.
    - replace (Z.to_nat _) with 0%nat by lia. reflexivity.
    - rewrite range_succ, map_app, concat_app, IH by lia.
      cbn [map concat]. rewrite app_nil_r.
      unfold at_, CutAudio.attempt_at, CutAudio.slice. cbn [CutAudio.chunk].
      fold D. rewrite take_take_drop. f_equal. lia.
  Qed.
End ChunkerFacts.

Section ChunkerRun.
Context {frame : Type}.
Variable mkdir_ok : string -> bool.
Variable export_ok : string -> bool.
Variable export_leaves : string -> option string.

Abbreviation attempt_at := (CutAudio.attempt_at export_ok).

Lemma omap_export_map (l : list (CutAudio.attempt (frame:=frame))) :
    omap (fun e => match e with CutAudio.Export a => Some a | _ => None end)
         (map CutAudio.Export l) = l.
  Proof. induction l as [|a l IH]; cbn; [done|]. now rewrite IH. Qed.

Lemma omap_print_map (l : list (CutAudio.attempt (frame:=frame))) :
    omap (fun e => match e with CutAudio.Print s => Some s | _ => None end)
         (map CutAudio.Export l) = [].
  Proof. induction l as [|a l IH]; cbn; [done|]. now rewrite IH. Qed.

  (** [cut_loaded], once the number of chunks is known. *)
Lemma cut_loaded_shape (audio : list frame) T dir fmt evs w N :
    CutAudio.ceil_truediv (Z.of_nat (length audio)) (T * 60 * 1000) = Py.Returned N ->
    let D := Z.of_nat (length audio) in
    let cs := map (attempt_at audio (T * 60 * 1000) D dir fmt) (Py.range N) in
    let k := foldr Z.add 0 (map CutAudio.round_count cs) in
    let r := CutAudio.cut_loaded export_ok export_leaves audio T dir fmt evs w in
    CutAudio.result r = Py.Returned (k =? N) /\
    CutAudio.attempts r
      = omap (fun e => match e with CutAudio.Export a => Some a | _ => None end) evs ++ cs /\
    CutAudio.final r = fold_left (CutAudio.round_write export_leaves) cs w /\
    CutAudio.printed r
      = omap (fun e => match e with CutAudio.Print s => Some s | _ => None end) evs ++
        [if k =? N
         then "🎉 Successfully created " +:+ Py.str_int k +:+ " audio chunks in '" +:+ dir +:+ "'"
         else "⚠️  Created " +:+ Py.str_int k +:+ " out of " +:+ Py.str_int N +:+ " chunks"].
  Proof.
    intros HN D cs k r. subst r. unfold CutAudio.cut_loaded. rewrite HN.
    rewrite loop_fold. rewrite Z.add_0_l.
    rewrite <- (map_map (attempt_at audio (T * 60 * 1000) D dir fmt) CutAudio.round_count).
    rewrite <- (map_map (attempt_at audio (T * 60 * 1000) D dir fmt) CutAudio.Export).
    fold D cs k.
    unfold CutAudio.attempts, CutAudio.printed.
    destruct (k =? N); cbn [CutAudio.result CutAudio.events CutAudio.final];
      rewrite !omap_app, omap_export_map, omap_print_map; cbn;
      rewrite ?app_nil_r; repeat split; reflexivity.
  Qed.

Lemma load_mkdir_p ok p (w w1 : FS.t frame) q :
    FS.mkdir_p ok p w = Some w1 -> CutAudio.load w1 q = CutAudio.load w q.
  Proof.
    unfold FS.mkdir_p. destruct (_ || _); [done|]. intros [= <-]. reflexivity.
  Qed.

Lemma load_exists (w : FS.t frame) p a :
    CutAudio.load w p = Some a -> FS.exists_ w p = true.
  Proof.
    unfold CutAudio.load, FS.exists_, FS.is_file.
    destruct (FS.files w !! p) as [c|] eqn:E; [|done]. intros _.
    rewrite bool_decide_true by eauto. reflexivity.
  Qed.

  (** The whole function, on an input that loads. *)
Lemma cut_audio_file_loaded (w w1 : FS.t frame) input_file T output_dir fmt audio :
    let dir := default (Py.stem input_file +:+ "_chunks") output_dir in
    CutAudio.load w input_file = Some audio ->
    FS.mkdir_p (mkdir_ok dir) dir w = Some w1 ->
    CutAudio.cut_audio_file mkdir_ok export_ok export_leaves w input_file T output_dir fmt
    = CutAudio.cut_loaded export_ok export_leaves audio T dir fmt [CutAudio.Mkdir dir] w1.
  Proof.
    intros dir Hload Hdir. unfold CutAudio.cut_audio_file.
    rewrite (load_exists _ _ _ Hload). cbn [negb]. fold dir. rewrite Hdir.
    rewrite (load_mkdir_p _ _ _ _ _ Hdir), Hload. reflexivity.
  Qed.
End ChunkerRun.

Section ChunkerPartition.
Context {frame : Type}.
Variable export_ok : string -> bool.
Variable export_leaves : string -> option string.
Variable audio : list frame.
Variable T_ms N : Z.
Variable dir fmt : string.

Let D := Z.of_nat (length audio).
Let at_ := CutAudio.attempt_at export_ok audio T_ms D dir fmt.
Let cs := map at_ (Py.range N).

Hypothesis T_pos : 0 < T_ms.
Hypothesis N_ceiling : (N - 1) * T_ms < D <= N * T_ms.

Lemma chunks_lookup (k : nat) a :
    cs !! k = Some a <-> (Z.of_nat k < N) /\ a = at_ (Z.of_nat k).
  Proof.
    unfold cs. rewrite list_lookup_fmap. split.
    - intros H. destruct (Py.range N !! k) as [i|] eqn:E; [|done].
      injection H as <-.
      assert (Hk : (k < Z.to_nat N)%nat).
      { apply lookup_lt_Some in E. now rewrite range_length in E. }
      rewrite range_lookup in E by done. injection E as <-. split; [lia|done].
    - intros [Hk ->]. rewrite range_lookup by lia. reflexivity.
  Qed.

Lemma chunks_elem a :
    a ∈ cs <-> exists i, 0 <= i < N /\ a = at_ i.
  Proof.
    unfold cs. rewrite list_elem_of_fmap. split.
    - intros (i & -> & Hi). apply elem_of_range in Hi. eauto.
    - intros (i & Hi & ->). exists i. split; [done|]. now apply elem_of_range.
  Qed.

Lemma chunks_length : Z.of_nat (length cs) = Z.max 0 N.
  Proof. unfold cs. rewrite length_map, range_length. lia. Qed.

Lemma chunks_numbers :
    map CutAudio.number cs = map Z.of_nat (seq 1 (length cs)).
  Proof.
    unfold cs. rewrite length_map, range_length, map_map. unfold Py.range.
    rewrite map_map. cbn [at_ CutAudio.attempt_at CutAudio.number].
    rewrite <- seq_shift, map_map. apply map_ext. intros k. cbn. lia.
  Qed.

Lemma chunks_glued : 0 <= N -> concat (map CutAudio.chunk cs) = audio.
  Proof.
    intros HN. unfold cs. rewrite map_map.
    pose proof (slices_prefix export_ok audio T_ms dir fmt (Z.to_nat N) T_pos) as H.
    rewrite Z2Nat.id in H by lia. fold D in H.
    unfold at_. rewrite H by lia. apply firstn_all2. fold D. lia.
  Qed.
End ChunkerPartition.




Section ChunkerWrites.
Context {frame : Type}.
Variable export_ok : string -> bool.
Variable export_leaves : string -> option string.
Variable audio : list frame.
Variable T_ms D : Z.
Variable dir fmt : string.

Let at_ := CutAudio.attempt_at export_ok audio T_ms D dir fmt.

  (** Different rounds write to different files. *)
Lemma chunk_path_inj (i j : Z) :
    0 <= i -> 0 <= j ->
    CutAudio.chunk_path (at_ i) = CutAudio.chunk_path (at_ j) -> i = j.
  Proof.
    intros Hi Hj. unfold at_, CutAudio.attempt_at.
    cbn [CutAudio.chunk_path]. destruct (path_join_prefix dir) as [pre Hpre].
    rewrite !Hpre. intros H.
    do 2 apply append_inv_head in H.
    apply append_inv_tail in H.
    apply format_0d_inj in H; lia.
  Qed.

Lemma round_write_other (cs : list (CutAudio.attempt (frame:=frame))) w p :
    p ∉ map CutAudio.chunk_path cs ->
    FS.files (fold_left (CutAudio.round_write export_leaves) cs w) !! p = FS.files w !! p.
  Proof.
    revert w. induction cs as [|c cs IH]; intros w Hp; [done|].
    cbn [fold_left]. rewrite IH.
    - assert (Hne : CutAudio.chunk_path c <> p).
      { intros E. apply Hp. rewrite <- E. cbn. apply list_elem_of_here. }
      unfold CutAudio.round_write, CutAudio.failed_export.
      destruct (CutAudio.saved c); [|destruct (export_leaves _); [|done]];
        cbn; now apply lookup_insert_ne.
    - intros H. apply Hp. cbn. now apply list_elem_of_further.
  Qed.

Lemma round_write_dirs (cs : list (CutAudio.attempt (frame:=frame))) w :
    FS.dirs (fold_left (CutAudio.round_write export_leaves) cs w) = FS.dirs w.
  Proof.
    revert w. induction cs as [|c cs IH]; intros w; [done|].
    cbn [fold_left]. rewrite IH. unfold CutAudio.round_write, CutAudio.failed_export.
    destruct (CutAudio.saved c); [done|]. now destruct (export_leaves _).
  Qed.

Lemma round_write_saved (cs : list (CutAudio.attempt (frame:=frame))) w a :
    NoDup (map CutAudio.chunk_path cs) ->
    a ∈ cs -> CutAudio.saved a = true ->
    FS.files (fold_left (CutAudio.round_write export_leaves) cs w) !! CutAudio.chunk_path a
      = Some (FS.Audio (CutAudio.chunk a)).
  Proof.
    revert w. induction cs as [|c cs IH]; intros w Hnd Ha Hs.
    - now apply elem_of_nil in Ha.
    - cbn [map] in Hnd. apply NoDup_cons in Hnd as [Hc Hnd].
      cbn [fold_left]. apply elem_of_cons in Ha as [->|Ha].
      + rewrite round_write_other by done.
        unfold CutAudio.round_write. rewrite Hs. cbn. apply lookup_insert_eq.
      + now apply IH.
  Qed.

Lemma chunk_paths_NoDup (N : Z) :
    NoDup (map CutAudio.chunk_path (map at_ (Py.range N))).
  Proof.
    rewrite map_map. apply NoDup_fmap_2_strong; [|apply NoDup_fmap_2, NoDup_seq; intros ???; lia].
    intros i j Hi Hj. apply elem_of_range in Hi, Hj. apply chunk_path_inj; lia.
  Qed.

  (** The counter after the loop is the number of saved chunks. *)
Lemma round_count_sum (cs : list (CutAudio.attempt (frame:=frame))) :
    foldr Z.add 0 (map CutAudio.round_count cs)
    = Z.of_nat (length (filter (fun a => CutAudio.saved a = true) cs)).
  Proof.
    induction cs as [|c cs IH]; [done|]. cbn [map foldr]. rewrite IH.
    rewrite filter_cons. unfold CutAudio.round_count.
    destruct (CutAudio.saved c); cbn.
    - rewrite decide_True by done. cbn. lia.
    - rewrite decide_False by done. lia.
  Qed.
End ChunkerWrites.

(** C3.  A failed export does not stop the loop.  On every input that
    loads, with a positive chunk duration, the chunker attempts all
    [N = ceil(D / T_ms)] chunks, in order, each one saved or not as the
    environment decides for its path; with [k] the number of saved
    chunks it returns [True] exactly when [k = N], its report line
    carries [k] (and [N] when they differ), and every saved chunk is in
    its [part_NNN] file at the end, whatever the overall result. *)
Theorem C3_failed_exports_are_counted_not_fatal {frame : Type}
    (mkdir_ok export_ok : string -> bool) (export_leaves : string -> option string) (w : FS.t frame)
    (input_file : string) (T : Z) (output_dir : option string) (fmt : string)
    (audio : list frame) :
  let dir := default (Py.stem input_file +:+ "_chunks") output_dir in
  let D := Z.of_nat (length audio) in
  let r := CutAudio.cut_audio_file mkdir_ok export_ok export_leaves w input_file T output_dir fmt in
  let cs := CutAudio.attempts r in
  let k := Z.of_nat (length (filter (fun a => CutAudio.saved a = true) cs)) in
  CutAudio.load w input_file = Some audio ->
  is_Some (FS.mkdir_p (mkdir_ok dir) dir w) ->
  0 < T ->
  exists N,
    CutAudio.ceil_truediv D (T * 60000) = Py.Returned N /\
    Z.of_nat (length cs) = N /\
    map CutAudio.number cs = map Z.of_nat (seq 1 (length cs)) /\
    (forall a, a ∈ cs -> CutAudio.saved a = export_ok (CutAudio.chunk_path a)) /\
    CutAudio.result r = Py.Returned (k =? N) /\
    (CutAudio.result r = Py.Returned true <-> k = N) /\
    CutAudio.printed r =
      [if k =? N
       then "🎉 Successfully created " +:+ Py.str_int k +:+ " audio chunks in '" +:+ dir +:+ "'"
       else "⚠️  Created " +:+ Py.str_int k +:+ " out of " +:+ Py.str_int N +:+ " chunks"] /\
    (forall a, a ∈ cs -> CutAudio.saved a = true ->
       FS.files (CutAudio.final r) !! CutAudio.chunk_path a
         = Some (FS.Audio (CutAudio.chunk a))).
Proof.
  intros dir D r cs k Hload [w1 Hdir] HT.
  assert (HTms : 0 < T * 60 * 1000) by lia.
  destruct (ceil_truediv_pos D (T * 60 * 1000) ltac:(unfold D; lia) HTms)
    as (N & HN & HN0 & _).
  pose proof (cut_loaded_shape export_ok export_leaves audio T dir fmt [CutAudio.Mkdir dir] w1 N HN)
    as Hshape.
  cbv zeta in Hshape.
  pose proof (cut_audio_file_loaded mkdir_ok export_ok export_leaves w w1 input_file T output_dir
                fmt audio Hload Hdir) as E.
  cbv zeta in E. fold dir r in E. rewrite <- E in Hshape. clear E.
  fold D in Hshape. destruct Hshape as (Hres & Hcs & Hfin & Hpr).
  cbn [omap list_omap app] in Hcs, Hpr. fold cs in Hcs.
  rewrite <- Hcs in Hres, Hfin, Hpr. rewrite round_count_sum in Hres, Hpr.
  fold k in Hres, Hpr.
  exists N. replace (T * 60000) with (T * 60 * 1000) by lia.
  split; [exact HN|].
  split; [rewrite Hcs, length_map, range_length; lia|].
  split; [rewrite Hcs; apply chunks_numbers|].
  split.
  { intros a Ha. rewrite Hcs in Ha. apply list_elem_of_fmap in Ha as (i & -> & _).
    reflexivity. }
  split; [exact Hres|].
  split.
  { rewrite Hres. split.
    - intros [= H]. now apply Z.eqb_eq.
    - intros ->. now rewrite Z.eqb_refl. }
  split; [exact Hpr|].
  intros a Ha Hs. rewrite Hfin. apply round_write_saved; [|done..].
  rewrite Hcs. apply chunk_paths_NoDup.
Qed.

Lemma C3_failed_exports_are_counted_not_fatal_witness :
  let r := CutAudio.cut_audio_file Demo.always (fun _ => false) Demo.emptied Demo.short_fs
             "in.wav" 1 (Some "out") "wav" in
  CutAudio.load Demo.short_fs "in.wav" = Some Demo.short_audio /\
  0 < 1 /\
  exists N, Z.of_nat (length (CutAudio.attempts r)) = N /\
    (CutAudio.result r = Py.Returned true <->
     Z.of_nat (length (filter (fun a => CutAudio.saved a = true) (CutAudio.attempts r))) = N).
Proof.
  intros r. split; [reflexivity|]. split; [reflexivity|].
  destruct (C3_failed_exports_are_counted_not_fatal Demo.always (fun _ => false)
              Demo.emptied Demo.short_fs "in.wav" 1 (Some "out") "wav" Demo.short_audio
              eq_refl (ex_intro _ _ eq_refl) eq_refl)
    as (N & _ & HN & _ & _ & _ & Hiff & _).
  exists N. split; [exact HN | exact Hiff].
Defined.

(** One export in a run of one fails: the report says 0 out of 1 and
    the result is [False]. *)
Example failed_export_report :
  let r := CutAudio.cut_audio_file Demo.always (fun _ => false) Demo.emptied Demo.short_fs
             "in.wav" 1 (Some "out") "wav" in
  CutAudio.result r = Py.Returned false /\
  CutAudio.printed r = ["⚠️  Created 0 out of 1 chunks"] /\
  map CutAudio.chunk_path (CutAudio.attempts r) = ["out/part_001.wav"].
Proof. vm_compute. repeat split. Qed.

(** C2 (the code departs from it).  An input that loads with a length of
    zero milliseconds gives zero chunks, and the chunker then reports
    success: zero saved chunks equal zero computed chunks. *)
Theorem C2_empty_audio_reports_success :
  let r := CutAudio.cut_audio_file Demo.always Demo.always Demo.untouched Demo.empty_fs
             "silence.wav" 10 None "mp3" in
  CutAudio.attempts r = [] /\
  CutAudio.result r = Py.Returned true /\
  CutAudio.printed r = ["🎉 Successfully created 0 audio chunks in 'silence_chunks'"].
Proof. vm_compute. repeat split. Qed.

(** The same on every empty recording and every non-zero chunk
    duration. *)
Lemma empty_audio_returns_true {frame : Type}
    (mkdir_ok export_ok : string -> bool) (export_leaves : string -> option string) (w : FS.t frame)
    (input_file : string) (T : Z) (output_dir : option string) (fmt : string) :
  let dir := default (Py.stem input_file +:+ "_chunks") output_dir in
  let r := CutAudio.cut_audio_file mkdir_ok export_ok export_leaves w input_file T output_dir fmt in
  CutAudio.load w input_file = Some [] ->
  is_Some (FS.mkdir_p (mkdir_ok dir) dir w) ->
  T <> 0 ->
  CutAudio.attempts r = [] /\ CutAudio.result r = Py.Returned true.
Proof.
  intros dir r Hload [w1 Hdir] HT. unfold r.
  rewrite (cut_audio_file_loaded _ _ _ _ w1 _ _ _ _ []) by done.
  unfold CutAudio.cut_loaded, CutAudio.ceil_truediv.
  destruct (Z.eqb_spec (T * 60 * 1000) 0) as [?|_]; [lia|].
  change (Z.of_nat (length [])) with 0. change (Z.abs 0) with 0.
  rewrite Z.mul_0_l.
  destruct (Z.leb_spec 0 (Z.abs (T * 60 * 1000))) as [_|?]; [|lia].
  split; reflexivity.
Qed.

(** ** Time formatting *)

(** A check that holds on every element of [range n], run once. *)
Lemma range_forallb (P : Z -> bool) (n i : Z) :
  forallb P (Py.range n) = true -> 0 <= i < n -> P i = true.
Proof.
  intros H Hi. rewrite forallb_forall in H. apply H.
  apply list_elem_of_In, elem_of_range, Hi.
Qed.

Lemma format_0d_two (m : Z) :
  0 <= m < 100 -> Py.format_0d 2 m = Py.two_digits m.
Proof.
  intros Hm. apply String.eqb_eq.
  apply (range_forallb
           (fun m => String.eqb (Py.format_0d 2 m) (Py.two_digits m)) 100 m);
    [vm_compute; reflexivity | exact Hm].
Qed.

Lemma format_0d_three (m : Z) :
  0 <= m < 1000 -> Py.format_0d 3 m = Py.three_digits m.
Proof.
  intros Hm. apply String.eqb_eq.
  apply (range_forallb
           (fun m => String.eqb (Py.format_0d 3 m) (Py.three_digits m)) 1000 m);
    [vm_compute; reflexivity | exact Hm].
Qed.

Lemma two_digits_length m : String.length (Py.two_digits m) = 2%nat.
Proof. reflexivity. Qed.

Lemma three_digits_length m : String.length (Py.three_digits m) = 3%nat.
Proof. reflexivity. Qed.

Lemma two_digits_are_digits (m : Z) :
  0 <= m < 100 -> Py.string_forall Py.is_digit (Py.two_digits m) = true.
Proof.
  intros Hm. unfold Py.two_digits. simpl.
  rewrite !digit_char_is_digit; [done| |].
  - pose proof (Z.mod_pos_bound m 10 ltac:(lia)). lia.
  - assert (m / 10 < 10) by (apply Z.div_lt_upper_bound; lia).
    pose proof (Z.div_pos m 10 ltac:(lia) ltac:(lia)). lia.
Qed.

Lemma three_digits_are_digits (m : Z) :
  0 <= m < 1000 -> Py.string_forall Py.is_digit (Py.three_digits m) = true.
Proof.
  intros Hm. unfold Py.three_digits. simpl.
  pose proof (Z.mod_pos_bound m 10 ltac:(lia)).
  pose proof (Z.mod_pos_bound (m / 10) 10 ltac:(lia)).
  assert (m / 100 < 10) by (apply Z.div_lt_upper_bound; lia).
  pose proof (Z.div_pos m 100 ltac:(lia) ltac:(lia)).
  rewrite !digit_char_is_digit; [done|lia..].
Qed.

(** The ["06.3f"] presentation of a non-negative value below 100: two
    digits, the point, three digits. *)
Lemma format_0_3f_fields (x : Q) :
  let n := Py.round_half_even (x * 1000) in
  (0 <= x)%Q -> 0 <= n < 100000 ->
  Py.format_0_3f 6 x
  = Py.two_digits (n / 1000) +:+ "." +:+ Py.three_digits (n mod 1000).
Proof.
  intros n Hx Hn. unfold Py.format_0_3f. fold n.
  assert (Hnum : (Qnum x <? 0) = false).
  { apply Z.ltb_ge. unfold Qle in Hx. simpl in Hx. lia. }
  rewrite Hnum, append_nil_l.
  assert (Hq : 0 <= n / 1000 < 100).
  { split; [apply Z.div_pos; lia | apply Z.div_lt_upper_bound; lia]. }
  pose proof (Z.mod_pos_bound n 1000 ltac:(lia)) as Hr.
  replace (Z.of_N (Z.abs_N n mod 1000)) with (n mod 1000)
    by (rewrite N2Z.inj_mod, N2Z.inj_abs_N, Z.abs_eq by lia; reflexivity).
  rewrite format_0d_three by done.
  rewrite <- (format_0d_two (n / 1000)) by done.
  unfold Py.format_0d.
  destruct (Z.ltb_spec (n / 1000) 0) as [?|_]; [lia|].
  rewrite append_nil_l.
  replace (Z.abs_N (n / 1000)) with (Z.abs_N n / 1000)%N
    by (apply N2Z.inj; rewrite N2Z.inj_div, !N2Z.inj_abs_N, !Z.abs_eq by lia; reflexivity).
  rewrite !append_length, three_digits_length. simpl String.length.
  rewrite append_assoc. f_equal. f_equal. lia.
Qed.

Lemma replace_char_app (a b : ascii) (s t : string) :
  Py.replace_char a b (s +:+ t) = Py.replace_char a b s +:+ Py.replace_char a b t.
Proof.
  induction s as [|c s IH]; [done|].
  rewrite append_cons. simpl. now rewrite IH.
Qed.

Lemma replace_char_absent (a b : ascii) (s : string) :
  Py.string_forall (fun c => negb (Ascii.eqb c a)) s = true ->
  Py.replace_char a b s = s.
Proof.
  induction s as [|c s IH]; [done|]. simpl.
  intros [Hc Hs]%andb_true_iff.
  apply negb_true_iff in Hc. rewrite Hc. f_equal. auto.
Qed.

(** A digit is none of the characters below ["0"] or above ["9"]. *)
Lemma is_digit_neq (a c : ascii) :
  (N_of_ascii a < 48 \/ 57 < N_of_ascii a)%N ->
  Py.is_digit c = true -> negb (Ascii.eqb c a) = true.
Proof.
  intros Ha Hc. apply negb_true_iff, Ascii.eqb_neq. intros ->.
  unfold Py.is_digit in Hc. apply andb_true_iff in Hc as [H1 H2].
  apply N.leb_le in H1, H2. lia.
Qed.

Lemma digits_avoid (a : ascii) (s : string) :
  (N_of_ascii a < 48 \/ 57 < N_of_ascii a)%N ->
  Py.string_forall Py.is_digit s = true ->
  Py.string_forall (fun c => negb (Ascii.eqb c a)) s = true.
Proof. intros Ha. apply string_forall_impl. intros c. now apply is_digit_neq. Qed.

Lemma format_0d_length (width : nat) (n : Z) :
  (width <= String.length (Py.format_0d width n))%nat.
Proof. unfold Py.format_0d. rewrite !append_length, zeros_length. lia. Qed.

(** The three numbers a non-negative time is rendered from. *)
Lemma time_fields_range (t : Q) :
  (0 <= t)%Q ->
  0 <= Py.int_of (Py.floordiv t 3600) /\
  0 <= Qfloor (Py.fmod t 3600 / 60) < 60 /\
  0 <= Py.round_half_even (Py.fmod t 60 * 1000) <= 60000.
Proof.
  intros Ht. split; [|split].
  - destruct (floordiv_nonneg t 3600 Ht ltac:(lra)) as (z & -> & Hz).
    now rewrite int_of_Z.
  - pose proof (fmod_bounds t 3600 Ht ltac:(lra)) as [H1 H2].
    apply (Qfloor_range _ 0 60). split.
    + apply Qle_shift_div_l; [lra|]. change (inject_Z 0) with 0%Q. lra.
    + apply Qlt_shift_div_r; [lra|]. change (inject_Z 60) with 60%Q. lra.
  - pose proof (fmod_bounds t 60 Ht ltac:(lra)) as [H1 H2].
    apply (round_half_even_range _ 0 60000).
    change (inject_Z 0) with 0%Q. change (inject_Z 60000) with 60000%Q.
    split; lra.
Qed.

(** The minutes are the whole minutes of what [% 3600] leaves: on a
    value below 3600 the floor division is exact. *)
Lemma minutes_exact (t : Q) :
  (0 <= t)%Q ->
  Py.int_of (Py.floordiv (Py.fmod t 3600) 60) = Qfloor (Py.fmod t 3600 / 60).
Proof.
  intros Ht. destruct (time_fields_range t Ht) as (_ & Hm & _).
  pose proof (fmod_bounds t 3600 Ht ltac:(lra)) as [H1 _].
  change 60%Q with (inject_Z 60) in *.
  rewrite floordiv_exact; [apply int_of_Z | exact H1 | lia |].
  apply Z.lt_trans with 3600; [lia | reflexivity].
Qed.

(** The hours are the whole hours of the time as long as the time is
    below 2^53 seconds. *)
Lemma hours_exact (t : Q) :
  (0 <= t < inject_Z (2 ^ 53))%Q ->
  Py.int_of (Py.floordiv t 3600) = Qfloor (t / 3600).
Proof.
  intros [Ht Hlt]. change 3600%Q with (inject_Z 3600).
  rewrite floordiv_exact; [apply int_of_Z | exact Ht | lia |].
  pose proof (Qfloor_le (t / inject_Z 3600)) as Hf.
  set (k := Qfloor (t / inject_Z 3600)) in *.
  assert (H : (inject_Z (3600 * k) < inject_Z (2 ^ 53))%Q).
  { rewrite inject_Z_mult. change (inject_Z 3600) with 3600%Q in *.
    assert (E : (t == 3600 * (t / 3600))%Q) by (field; lra).
    assert (3600 * inject_Z k <= 3600 * (t / 3600))%Q by (apply Qmult_le_l; lra).
    lra. }
  now rewrite <- Zlt_Qlt in H.
Qed.

(** The VTT form of a non-negative time, field by field. *)
Lemma format_time_vtt_fields (t : Q) :
  (0 <= t)%Q ->
  let h := Py.int_of (Py.floordiv t 3600) in
  let m := Qfloor (Py.fmod t 3600 / 60) in
  let n := Py.round_half_even (Py.fmod t 60 * 1000) in
  Transcribe.format_time_vtt t
  = Py.format_0d 2 h +:+ ":" +:+ Py.two_digits m +:+ ":" +:+
    Py.two_digits (n / 1000) +:+ "." +:+ Py.three_digits (n mod 1000).
Proof.
  intros Ht h m n. destruct (time_fields_range t Ht) as (Hh & Hm & Hn).
  fold h m n in Hh, Hm, Hn.
  unfold Transcribe.format_time_vtt. rewrite (minutes_exact t Ht). fold h m.
  rewrite (format_0d_two m) by lia.
  rewrite format_0_3f_fields; fold n; [reflexivity| |lia].
  apply (fmod_bounds t 60); [exact Ht | lra].
Qed.

(** The two time formats are one computation; SRT swaps the point. *)
Lemma format_time_srt_vtt (t : Q) :
  Transcribe.format_time_srt t
  = Py.replace_char "." "," (Transcribe.format_time_vtt t).
Proof. reflexivity. Qed.

Lemma format_time_srt_fields (t : Q) :
  (0 <= t)%Q ->
  let h := Py.int_of (Py.floordiv t 3600) in
  let m := Qfloor (Py.fmod t 3600 / 60) in
  let n := Py.round_half_even (Py.fmod t 60 * 1000) in
  Transcribe.format_time_srt t
  = Py.format_0d 2 h +:+ ":" +:+ Py.two_digits m +:+ ":" +:+
    Py.two_digits (n / 1000) +:+ "," +:+ Py.three_digits (n mod 1000).
Proof.
  intros Ht h m n. destruct (time_fields_range t Ht) as (Hh & Hm & Hn).
  fold h m n in Hh, Hm, Hn.
  rewrite format_time_srt_vtt, format_time_vtt_fields by done. fold h m n.
  assert (Hq : 0 <= n / 1000 < 100).
  { split; [apply Z.div_pos; lia | apply Z.div_lt_upper_bound; lia]. }
  pose proof (Z.mod_pos_bound n 1000 ltac:(lia)) as Hr.
  assert (Hdot : (N_of_ascii "." < 48 \/ 57 < N_of_ascii ".")%N)
    by (left; vm_compute; reflexivity).
  rewrite !replace_char_app.
  rewrite (replace_char_absent _ _ (Py.format_0d 2 h))
    by (apply digits_avoid; [done | now apply format_0d_nonneg_digits]).
  rewrite (replace_char_absent _ _ (Py.two_digits m))
    by (apply digits_avoid; [done | apply two_digits_are_digits; lia]).
  rewrite (replace_char_absent _ _ (Py.two_digits (n / 1000)))
    by (apply digits_avoid; [done | now apply two_digits_are_digits]).
  rewrite (replace_char_absent _ _ (Py.three_digits (n mod 1000)))
    by (apply digits_avoid; [done | now apply three_digits_are_digits]).
  reflexivity.
Qed.

(** C4.  A non-negative time [t] renders as [HH:MM:SS,mmm] in SRT and
    as [HH:MM:SS.mmm] in VTT: [HH] is the floor division [t // 3600]
    in at least two digits (more when it needs them), [MM] the floor
    division of [t % 3600] by 60 in exactly two, and [SS] and [mmm]
    the two and three digits of [t % 60] rounded to the nearest
    thousandth; the two forms differ in the separator only.  The
    remainders are exact and [MM] is the floor of [(t mod 3600) / 60];
    the double division behind [HH] gives the floor of [t / 3600] for
    every time below 2^53 seconds.  125.5 s renders as [00:02:05,500]
    and [00:02:05.500]. *)
Theorem C4_time_rendering (t : Q) (Ht : (0 <= t)%Q) :
  let h := Py.int_of (Py.floordiv t 3600) in
  let m := Py.int_of (Py.floordiv (Py.fmod t 3600) 60) in
  let n := Py.round_half_even (Py.fmod t 60 * 1000) in
  (0 <= h /\ 0 <= m < 60 /\ 0 <= n <= 60000) /\
  ((t < inject_Z (2 ^ 53))%Q -> h = Qfloor (t / 3600)) /\
  m = Qfloor ((t - 3600 * inject_Z (Qfloor (t / 3600))) / 60) /\
  Py.fmod t 60 = (t - 60 * inject_Z (Qfloor (t / 60)))%Q /\
  (inject_Z n - (1 # 2) <= Py.fmod t 60 * 1000 <= inject_Z n + (1 # 2))%Q /\
  Transcribe.format_time_srt t
    = Py.format_0d 2 h +:+ ":" +:+ Py.two_digits m +:+ ":" +:+
      Py.two_digits (n / 1000) +:+ "," +:+ Py.three_digits (n mod 1000) /\
  Transcribe.format_time_vtt t
    = Py.format_0d 2 h +:+ ":" +:+ Py.two_digits m +:+ ":" +:+
      Py.two_digits (n / 1000) +:+ "." +:+ Py.three_digits (n mod 1000) /\
  (Py.string_forall Py.is_digit (Py.format_0d 2 h) = true /\
   (2 <= String.length (Py.format_0d 2 h))%nat /\
   Py.parse_dec (Py.format_0d 2 h) = Z.to_N h) /\
  Transcribe.format_time_srt (251 # 2) = "00:02:05,500" /\
  Transcribe.format_time_vtt (251 # 2) = "00:02:05.500".
Proof.
  intros h m n. pose proof (time_fields_range t Ht) as Hrange.
  assert (Em : m = Qfloor (Py.fmod t 3600 / 60)) by apply (minutes_exact t Ht).
  rewrite <- Em in Hrange. fold h n in Hrange.
  split; [exact Hrange|]. destruct Hrange as (Hh & Hm & Hn).
  split; [intros Hlt; now apply hours_exact|].
  split; [rewrite Em, fmod_nonneg by lra; reflexivity|].
  split; [apply fmod_nonneg; lra|].
  split; [apply round_half_even_near|].
  split; [rewrite Em; now apply format_time_srt_fields|].
  split; [rewrite Em; now apply format_time_vtt_fields|].
  split.
  { split; [now apply format_0d_nonneg_digits|].
    split; [apply format_0d_length | now apply parse_format_0d]. }
  split; vm_compute; reflexivity.
Qed.

Lemma C4_time_rendering_witness :
  (0 <= 36610007 # 10000)%Q /\
  Transcribe.format_time_srt (36610007 # 10000) = "01:01:01,001" /\
  Transcribe.format_time_vtt (36610007 # 10000) = "01:01:01.001".
Proof.
  assert (H : (0 <= 36610007 # 10000)%Q) by (vm_compute; discriminate).
  split; [exact H|].
  pose proof (C4_time_rendering (36610007 # 10000) H)
    as (_ & _ & _ & _ & _ & Hs & Hv & _).
  split; [rewrite Hs | rewrite Hv]; vm_compute; reflexivity.
Defined.

(** Beyond 2^53 seconds the double division behind the hours rounds:
    at 10^20 seconds the hours shown are one less than the whole hours
    of the time. *)
Example format_time_srt_beyond_2_53 :
  Transcribe.format_time_srt (inject_Z (10 ^ 20)) = "27777777777777776:46:40,000" /\
  Qfloor (inject_Z (10 ^ 20) / 3600) = 27777777777777777.
Proof. split; vm_compute; reflexivity. Qed.

(** Rounding to thousandths can carry into the seconds field: just
    under a minute renders with [60] seconds, still in two digits. *)
Example format_time_srt_carry :
  Transcribe.format_time_srt (599996 # 10000) = "00:00:60,000" /\
  Transcribe.format_time_srt (360000 # 1) = "100:00:00,000".
Proof. split; vm_compute; reflexivity. Qed.

(** ** The two subtitle renderers *)

(** A loop that appends one piece per element builds the pieces joined. *)
Lemma fold_left_append {A : Type} (g : string -> A -> string) (f : A -> string)
    (l : list A) (init : string) :
  (forall acc x, g acc x = acc +:+ f x) ->
  fold_left g l init = init +:+ Transcribe.join (map f l).
Proof.
  intros Hg. revert init. induction l as [|x l IH]; intros init.
  - cbn. now rewrite append_nil_r.
  - cbn [fold_left map]. rewrite IH, Hg. unfold Transcribe.join. cbn [foldr].
    now rewrite append_assoc.
Qed.

Lemma split_line_app (line rest : string) :
  Py.string_forall (fun c => negb (Ascii.eqb c "010")) line = true ->
  Transcribe.split_line (line +:+ Py.nl +:+ rest) = (line, rest).
Proof.
  induction line as [|c line IH].
  - intros _. reflexivity.
  - intros H. simpl in H. apply andb_true_iff in H as [Hc Hl].
    apply negb_true_iff in Hc.
    rewrite append_cons. simpl. rewrite Hc, IH by done. reflexivity.
Qed.

Lemma string_forall_replace (p : ascii -> bool) (a b : ascii) (s : string) :
  p b = true -> Py.string_forall p s = true ->
  Py.string_forall p (Py.replace_char a b s) = true.
Proof.
  intros Hb. induction s as [|c s IH]; [done|]. simpl.
  intros [Hc Hs]%andb_true_iff. rewrite IH by done.
  destruct (Ascii.eqb c a); now rewrite ?Hb, ?Hc.
Qed.

Lemma replace_char_back (a b : ascii) (s : string) :
  Py.string_forall (fun c => negb (Ascii.eqb c b)) s = true ->
  Py.replace_char b a (Py.replace_char a b s) = s.
Proof.
  induction s as [|c s IH]; [done|]. simpl.
  intros [Hc Hs]%andb_true_iff. apply negb_true_iff in Hc.
  rewrite IH by done. f_equal.
  destruct (Ascii.eqb_spec c a) as [->|Hca].
  - now rewrite Ascii.eqb_refl.
  - now rewrite Hc.
Qed.

Lemma format_0d_chars (width : nat) (n : Z) :
  Py.string_forall Transcribe.is_time_char (Py.format_0d width n) = true.
Proof.
  unfold Py.format_0d. rewrite !string_forall_app.
  assert (Hd : forall s, Py.string_forall Py.is_digit s = true ->
                         Py.string_forall Transcribe.is_time_char s = true).
  { intros s. apply string_forall_impl. intros c Hc.
    unfold Transcribe.is_time_char. now rewrite Hc. }
  rewrite (Hd _ (zeros_digits _)).
  destruct (dec_digits_spec (Z.abs_N n)) as (Hds & _). rewrite (Hd _ Hds).
  now destruct (n <? 0).
Qed.

Lemma format_0_3f_chars (width : nat) (x : Q) :
  Py.string_forall Transcribe.is_time_char (Py.format_0_3f width x) = true.
Proof.
  unfold Py.format_0_3f. rewrite !string_forall_app.
  assert (Hd : forall s, Py.string_forall Py.is_digit s = true ->
                         Py.string_forall Transcribe.is_time_char s = true).
  { intros s. apply string_forall_impl. intros c Hc.
    unfold Transcribe.is_time_char. now rewrite Hc. }
  rewrite (Hd _ (zeros_digits _)), format_0d_chars.
  destruct (dec_digits_spec (Z.abs_N (Py.round_half_even (x * 1000)) / 1000))
    as (Hds & _).
  rewrite (Hd _ Hds). now destruct (Qnum x <? 0).
Qed.

Lemma format_time_vtt_chars (x : Q) :
  Py.string_forall Transcribe.is_time_char (Transcribe.format_time_vtt x) = true.
Proof.
  unfold Transcribe.format_time_vtt.
  now rewrite !string_forall_app, !format_0d_chars, format_0_3f_chars.
Qed.

(** A rendered time holds no comma and no line feed. *)
Lemma is_time_char_plain (c : ascii) :
  Transcribe.is_time_char c = true ->
  negb (Ascii.eqb c ",") = true /\ negb (Ascii.eqb c "010") = true.
Proof.
  destruct c as [[] [] [] [] [] [] [] []]; vm_compute; intros H;
    (discriminate H || (split; reflexivity)).
Qed.

Lemma format_time_srt_back (x : Q) :
  Py.replace_char "," "." (Transcribe.format_time_srt x)
  = Transcribe.format_time_vtt x.
Proof.
  rewrite format_time_srt_vtt. apply replace_char_back.
  apply (string_forall_impl Transcribe.is_time_char); [|apply format_time_vtt_chars].
  intros c Hc. now apply is_time_char_plain.
Qed.

Lemma format_time_srt_one_line (x : Q) :
  Py.string_forall (fun c => negb (Ascii.eqb c "010")) (Transcribe.format_time_srt x)
  = true.
Proof.
  rewrite format_time_srt_vtt. apply string_forall_replace; [reflexivity|].
  apply (string_forall_impl Transcribe.is_time_char); [|apply format_time_vtt_chars].
  intros c Hc. now apply is_time_char_plain.
Qed.

Lemma str_int_one_line (i : Z) :
  Py.string_forall (fun c => negb (Ascii.eqb c "010")) (Py.str_int i) = true.
Proof.
  apply (string_forall_impl Transcribe.is_time_char); [|apply format_0d_chars].
  intros c Hc. now apply is_time_char_plain.
Qed.

(** One SRT block, rewritten, is the VTT block of the same segment. *)
Lemma vtt_of_srt_block_correct (i : Z) (segment : Transcribe.segment) :
  Transcribe.vtt_of_srt_block (Transcribe.srt_block i segment)
  = Transcribe.vtt_block segment.
Proof.
  unfold Transcribe.vtt_of_srt_block, Transcribe.srt_block, Transcribe.vtt_block.
  cbv zeta. rewrite split_line_app by apply str_int_one_line.
  set (a := Transcribe.format_time_srt (Transcribe.seg_start segment)).
  set (b := Transcribe.format_time_srt (Transcribe.seg_end segment)).
  set (rest := Py.strip (Transcribe.seg_text segment) +:+ Py.nl +:+ Py.nl).
  replace (a +:+ " --> " +:+ b +:+ Py.nl +:+ rest)
    with ((a +:+ " --> " +:+ b) +:+ Py.nl +:+ rest)
    by (now rewrite !append_assoc).
  rewrite split_line_app.
  - rewrite !replace_char_app. subst a b. rewrite !format_time_srt_back.
    now rewrite !append_assoc.
  - rewrite !string_forall_app. subst a b.
    now rewrite !format_time_srt_one_line.
Qed.

Lemma srt_blocks_rewritten (start : Z) (segments : list Transcribe.segment) :
  map Transcribe.vtt_of_srt_block
      (map (fun '(i, segment) => Transcribe.srt_block i segment)
           (Py.enumerate start segments))
  = map Transcribe.vtt_block segments.
Proof.
  revert start. induction segments as [|segment segments IH]; intros start; [done|].
  cbn [Py.enumerate map]. now rewrite vtt_of_srt_block_correct, IH.
Qed.

(** C10.  For every segment sequence the SRT output is its blocks one
    after the other, and the VTT output is the header [WEBVTT] and an
    empty line followed by the same blocks, in the same order, each
    with its number line removed and the commas of its time line
    turned into points; the text lines, trimmed, are the same. *)
Theorem C10_vtt_is_srt_rewritten (segments : list Transcribe.segment) :
  Transcribe.generate_srt segments = Transcribe.join (Transcribe.srt_blocks segments) /\
  Transcribe.generate_vtt segments
    = "WEBVTT" +:+ Py.nl +:+ Py.nl +:+
      Transcribe.join (map Transcribe.vtt_of_srt_block (Transcribe.srt_blocks segments)) /\
  length (Transcribe.srt_blocks segments) = length segments /\
  map Transcribe.vtt_of_srt_block (Transcribe.srt_blocks segments)
    = map (fun segment =>
             Transcribe.format_time_vtt (Transcribe.seg_start segment) +:+ " --> " +:+
             Transcribe.format_time_vtt (Transcribe.seg_end segment) +:+ Py.nl +:+
             Py.strip (Transcribe.seg_text segment) +:+ Py.nl +:+ Py.nl)
          segments.
Proof.
  split; [|split; [|split]].
  - unfold Transcribe.generate_srt, Transcribe.srt_blocks.
    rewrite (fold_left_append _ (fun '(i, segment) => Transcribe.srt_block i segment))
      by (now intros acc [i segment]).
    reflexivity.
  - unfold Transcribe.generate_vtt, Transcribe.srt_blocks.
    rewrite (fold_left_append _ Transcribe.vtt_block) by done.
    rewrite srt_blocks_rewritten. now rewrite !append_assoc.
  - unfold Transcribe.srt_blocks. rewrite length_map.
    generalize 1. induction segments as [|s l IH]; intros z; [done|].
    cbn. now rewrite IH.
  - unfold Transcribe.srt_blocks. apply srt_blocks_rewritten.
Qed.

Example two_segments_rendered :
  Transcribe.generate_srt Demo.two_segments
  = "1" +:+ Py.nl +:+ "00:00:00,000 --> 00:00:02,500" +:+ Py.nl +:+
    "Hello, world." +:+ Py.nl +:+ Py.nl +:+
    "2" +:+ Py.nl +:+ "00:00:02,500 --> 00:02:05,500" +:+ Py.nl +:+
    "Good bye" +:+ Py.nl +:+ Py.nl /\
  Transcribe.generate_vtt Demo.two_segments
  = "WEBVTT" +:+ Py.nl +:+ Py.nl +:+
    "00:00:00.000 --> 00:00:02.500" +:+ Py.nl +:+
    "Hello, world." +:+ Py.nl +:+ Py.nl +:+
    "00:00:02.500 --> 00:02:05.500" +:+ Py.nl +:+
    "Good bye" +:+ Py.nl +:+ Py.nl.
Proof. split; vm_compute; reflexivity. Qed.

(** ** The transcriber *)

Example directory_run :
  let r := Transcribe.transcribe_audio_files Demo.listing Demo.engine Demo.no_json
             Demo.always Demo.always Demo.always Demo.dir_fs "d" "auto" "base" None "txt" in
  Transcribe.result r = true /\
  Transcribe.processed r = ["d/a.mp3"; "d/b.wav"] /\
  map snd (Transcribe.calls r) = [∅; ∅].
Proof. vm_compute. repeat split. Qed.

Section TranscriberFacts.
Context {frame : Type}.
Variable listdir : string -> list string.
Variable engine : string -> gmap string string -> option Transcribe.transcript.
Variable json_dumps : Transcribe.transcript -> string.
Variable mkdir_ok load_model_ok write_ok : string -> bool.

Abbreviation body :=
    (Transcribe.loop_body (frame:=frame) engine json_dumps write_ok).
Abbreviation run_of :=
    (Transcribe.transcribe_audio_files (frame:=frame)
       listdir engine json_dumps mkdir_ok load_model_ok write_ok).

  (** Every round makes one engine call, with the options of the
      configured language. *)
Lemma loop_body_calls language out fmt s evs (w : FS.t frame) file :
    omap Transcribe.event_call (body language out fmt (s, evs, w) file).1.2
    = omap Transcribe.event_call evs ++ [(file, Transcribe.transcribe_options language)].
  Proof.
    unfold Transcribe.loop_body.
    destruct (engine _ _) as [res|]; [destruct (Transcribe.render _ _ _) as [[ext content]|];
      [destruct (write_ok _)|]|]; cbn [fst snd]; rewrite omap_app; reflexivity.
  Qed.

Lemma loop_calls language out fmt files : forall s evs (w : FS.t frame),
    omap Transcribe.event_call (fold_left (body language out fmt) files (s, evs, w)).1.2
    = omap Transcribe.event_call evs
      ++ map (fun file => (file, Transcribe.transcribe_options language)) files.
  Proof.
    induction files as [|file files IH]; intros s evs w.
    - cbn. now rewrite app_nil_r.
    - cbn [fold_left map].
      destruct (body language out fmt (s, evs, w) file) as [[s' evs'] w'] eqn:E.
      rewrite IH. pose proof (loop_body_calls language out fmt s evs w file) as H.
      rewrite E in H. cbn [fst snd] in H. rewrite H, <- app_assoc. reflexivity.
  Qed.

  (** The calls of a whole run: none when the run stops before the
      loop, else one per selected file, in sorted order. *)
Lemma calls_shape (w : FS.t frame) input_path language model output_dir fmt :
    Transcribe.calls (run_of w input_path language model output_dir fmt) = [] \/
    exists files out,
      Transcribe.select_files listdir w input_path output_dir = Some (files, out) /\
      Transcribe.calls (run_of w input_path language model output_dir fmt)
      = map (fun file => (file, Transcribe.transcribe_options language))
            (merge_sort String.le files).
  Proof.
    unfold Transcribe.transcribe_audio_files.
    destruct (Transcribe.select_files _ _ _ _) as [[files out]|]; [|now left].
    destruct (bool_decide _); [now left|].
    destruct (FS.mkdir_p _ _ _) as [w1|]; [|now left].
    destruct (load_model_ok model); cbn [negb]; [|now left].
    right. exists files, out. split; [reflexivity|].
    destruct (fold_left _ _ _) as [[s evs] w2] eqn:E.
    unfold Transcribe.calls. cbn [Transcribe.events].
    pose proof (loop_calls language out fmt (merge_sort String.le files) 0
                  [Transcribe.Mkdir out; Transcribe.LoadModel model] w1) as H.
    rewrite E in H. cbn [fst snd] in H. rewrite H. reflexivity.
  Qed.

  (** When the run gets to the loop. *)
Lemma calls_reached (w : FS.t frame) input_path language model output_dir fmt files out :
    Transcribe.select_files listdir w input_path output_dir = Some (files, out) ->
    files <> [] ->
    is_Some (FS.mkdir_p (mkdir_ok out) out w) ->
    load_model_ok model = true ->
    Transcribe.calls (run_of w input_path language model output_dir fmt)
    = map (fun file => (file, Transcribe.transcribe_options language))
          (merge_sort String.le files).
  Proof.
    intros Hsel Hne [w1 Hdir] Hmodel. unfold Transcribe.transcribe_audio_files.
    rewrite Hsel, bool_decide_false, Hdir, Hmodel by done. cbn [negb].
    destruct (fold_left _ _ _) as [[s evs] w2] eqn:E.
    unfold Transcribe.calls. cbn [Transcribe.events].
    pose proof (loop_calls language out fmt (merge_sort String.le files) 0
                  [Transcribe.Mkdir out; Transcribe.LoadModel model] w1) as H.
    rewrite E in H. cbn [fst snd] in H. rewrite H. reflexivity.
  Qed.
End TranscriberFacts.

(** C6.  In every engine call of every run the keyword arguments are
    empty when the configured language is ["auto"], and are exactly
    [language = <the configured value>] otherwise; no call carries the
    value ["auto"]. *)
Theorem C6_auto_is_never_passed {frame : Type}
    (listdir : string -> list string)
    (engine : string -> gmap string string -> option Transcribe.transcript)
    (json_dumps : Transcribe.transcript -> string)
    (mkdir_ok load_model_ok write_ok : string -> bool)
    (w : FS.t frame) (input_path language model : string)
    (output_dir : option string) (fmt : string)
    (file : string) (options : gmap string string) :
  (file, options) ∈ Transcribe.calls
      (Transcribe.transcribe_audio_files listdir engine json_dumps
         mkdir_ok load_model_ok write_ok w input_path language model output_dir fmt) ->
  (language = "auto" -> options = ∅) /\
  (language <> "auto" -> options = {[ "language" := language ]}) /\
  (forall key value, options !! key = Some value ->
     key = "language" /\ value = language /\ value <> "auto").
Proof.
  intros Hin.
  assert (Hopt : options = Transcribe.transcribe_options language).
  { destruct (calls_shape listdir engine json_dumps mkdir_ok load_model_ok write_ok
                w input_path language model output_dir fmt)
      as [E|(files & out & _ & E)]; rewrite E in Hin.
    - now apply elem_of_nil in Hin.
    - apply list_elem_of_fmap in Hin as (f & [= _ ->] & _). reflexivity. }
  subst options. unfold Transcribe.transcribe_options.
  destruct (String.eqb_spec language "auto") as [->|Hne]; cbn [negb].
  - split; [done|]. split; [done|]. intros key value H.
    now rewrite lookup_empty in H.
  - split; [done|]. split; [done|]. intros key value H.
    apply lookup_insert_Some in H as [[<- <-]|[_ H]]; [done|].
    now rewrite lookup_empty in H.
Qed.

Lemma C6_auto_is_never_passed_witness :
  let r := Transcribe.transcribe_audio_files Demo.listing Demo.engine Demo.no_json
             Demo.always Demo.always Demo.always Demo.dir_fs "d" "ru" "base" None "txt" in
  ("d/a.mp3", {[ "language" := "ru" ]}) ∈ Transcribe.calls r /\
  forall key value,
    ({[ "language" := "ru" ]} : gmap string string) !! key = Some value ->
    key = "language" /\ value = "ru" /\ value <> "auto".
Proof.
  intros r.
  assert (Hin : ("d/a.mp3", ({[ "language" := "ru" ]} : gmap string string))
                ∈ Transcribe.calls r).
  { assert (E : Transcribe.calls r
                = [("d/a.mp3", {[ "language" := "ru" ]});
                   ("d/b.wav", {[ "language" := "ru" ]})])
      by (vm_compute; reflexivity).
    rewrite E. apply list_elem_of_here. }
  split; [exact Hin|].
  exact (proj2 (proj2 (C6_auto_is_never_passed Demo.listing Demo.engine Demo.no_json
                         Demo.always Demo.always Demo.always Demo.dir_fs "d" "ru" "base"
                         None "txt" "d/a.mp3" _ Hin))).
Defined.

(** *** Directory mode *)

Lemma elem_of_glob_star (dir : string) (names : list string) (suffix f : string) :
  f ∈ Transcribe.glob dir names (String "*" suffix) <->
  exists name, name ∈ names /\ Py.endswith name suffix = true /\ f = Py.path_join dir name.
Proof.
  unfold Transcribe.glob. rewrite list_elem_of_fmap. split.
  - intros (name & -> & [H1 H2]%list_elem_of_filter).
    exists name. split; [done|]. split; [|done]. now apply Is_true_true.
  - intros (name & H1 & H2 & ->). exists name. split; [done|].
    apply list_elem_of_filter. split; [|done]. now apply Is_true_true.
Qed.

Lemma glob_Permutation (dir : string) (names names' : list string) (pattern : string) :
  names ≡ₚ names' ->
  Transcribe.glob dir names pattern ≡ₚ Transcribe.glob dir names' pattern.
Proof.
  intros H. unfold Transcribe.glob.
  destruct pattern as [|c suffix]; [|destruct (Ascii.eqb c "*")];
    try (apply fmap_Permutation, filter_Permutation, H).
  all: destruct c as [[] [] [] [] [] [] [] []];
    apply fmap_Permutation, filter_Permutation, H.
Qed.

Section DirectoryMode.
Context {frame : Type}.
Variable w : FS.t frame.
Variable input_path : string.
Variable output_dir : option string.

Hypothesis not_a_file : FS.is_file w input_path = false.
Hypothesis a_directory : FS.is_dir w input_path = true.

Abbreviation globbed := (Transcribe.globbed input_path).

Lemma select_files_directory (listdir : string -> list string) :
    Transcribe.select_files listdir w input_path output_dir
    = Some (globbed (listdir input_path),
            default (Py.path_join input_path "transcripts") output_dir).
  Proof.
    unfold Transcribe.select_files. rewrite not_a_file, a_directory. reflexivity.
  Qed.

Lemma elem_of_globbed (names : list string) (f : string) :
    f ∈ globbed names <->
    exists name, name ∈ names /\ Transcribe.has_audio_extension name = true /\
                 f = Py.path_join input_path name.
  Proof.
    unfold Transcribe.globbed, Transcribe.has_audio_extension. cbn [existsb app].
    rewrite !elem_of_app, !elem_of_glob_star. split.
    - intros [[[[(n & ? & E & ?)|(n & ? & E & ?)]|(n & ? & E & ?)]|(n & ? & E & ?)]|(n & ? & E & ?)];
        exists n; rewrite E, ?orb_true_r; auto.
    - intros (n & Hn & He & ->).
      destruct (Py.endswith n ".mp3") eqn:E1; [do 4 left; eauto|].
      destruct (Py.endswith n ".wav") eqn:E2; [do 3 left; right; eauto|].
      destruct (Py.endswith n ".m4a") eqn:E3; [do 2 left; right; eauto|].
      destruct (Py.endswith n ".flac") eqn:E4; [left; right; eauto|].
      destruct (Py.endswith n ".aac") eqn:E5; [right; eauto|].
      discriminate He.
  Qed.

Lemma globbed_Permutation (names names' : list string) :
    names ≡ₚ names' -> globbed names ≡ₚ globbed names'.
  Proof.
    intros H. unfold Transcribe.globbed.
    repeat (apply Permutation_app; [|now apply glob_Permutation]).
    reflexivity.
  Qed.
End DirectoryMode.

Lemma processed_of_calls (language : string) (files : list string) :
  map fst (map (fun file => (file, Transcribe.transcribe_options language)) files)
  = files.
Proof. rewrite map_map. cbn. apply map_id. Qed.

(** Two listings that differ in order only lead to the same run. *)
Lemma run_order_independent {frame : Type}
    (listdir listdir' : string -> list string)
    (engine : string -> gmap string string -> option Transcribe.transcript)
    (json_dumps : Transcribe.transcript -> string)
    (mkdir_ok load_model_ok write_ok : string -> bool)
    (w : FS.t frame) (input_path language model : string)
    (output_dir : option string) (fmt : string) :
  FS.is_file w input_path = false -> FS.is_dir w input_path = true ->
  listdir' input_path ≡ₚ listdir input_path ->
  Transcribe.transcribe_audio_files listdir' engine json_dumps
    mkdir_ok load_model_ok write_ok w input_path language model output_dir fmt
  = Transcribe.transcribe_audio_files listdir engine json_dumps
      mkdir_ok load_model_ok write_ok w input_path language model output_dir fmt.
Proof.
  intros Hf Hd Hperm. unfold Transcribe.transcribe_audio_files.
  rewrite !(select_files_directory w input_path output_dir Hf Hd).
  pose proof (globbed_Permutation input_path _ _ Hperm) as Hg.
  set (files := Transcribe.globbed input_path (listdir input_path)) in *.
  set (files' := Transcribe.globbed input_path (listdir' input_path)) in *.
  assert (Hsort : merge_sort String.le files' = merge_sort String.le files).
  { apply (Sorted_unique String.le); try apply _.
    - apply Sorted_merge_sort, _.
    - apply Sorted_merge_sort, _.
    - now rewrite !merge_sort_Permutation. }
  assert (Hnil : bool_decide (files' = []) = bool_decide (files = [])).
  { apply bool_decide_ext. split; intros E; rewrite E in Hg.
    - now apply Permutation_nil_l in Hg.
    - now apply Permutation_nil_r in Hg. }
  rewrite Hnil, Hsort. reflexivity.
Qed.

(** C5, as the code has it.  In directory mode the files handed to the
    engine are entries of the directory whose name ends in [.mp3],
    [.wav], [.m4a], [.flac] or [.aac] as written (the match is
    case-sensitive); when the run gets as far as the loop they are all
    of them; they are handed over in ascending lexicographic order, and
    neither the set nor the order depends on the order in which the
    directory is enumerated. *)
Theorem C5_directory_files_sorted {frame : Type}
    (listdir : string -> list string)
    (engine : string -> gmap string string -> option Transcribe.transcript)
    (json_dumps : Transcribe.transcript -> string)
    (mkdir_ok load_model_ok write_ok : string -> bool)
    (w : FS.t frame) (input_path language model : string)
    (output_dir : option string) (fmt : string) :
  let run_on listing :=
    Transcribe.transcribe_audio_files listing engine json_dumps
      mkdir_ok load_model_ok write_ok w input_path language model output_dir fmt in
  let out := default (Py.path_join input_path "transcripts") output_dir in
  FS.is_file w input_path = false -> FS.is_dir w input_path = true ->
  Sorted String.le (Transcribe.processed (run_on listdir)) /\
  (forall file, file ∈ Transcribe.processed (run_on listdir) ->
     exists name, name ∈ listdir input_path /\
       Transcribe.has_audio_extension name = true /\
       file = Py.path_join input_path name) /\
  (is_Some (FS.mkdir_p (mkdir_ok out) out w) -> load_model_ok model = true ->
   forall name, name ∈ listdir input_path ->
     Transcribe.has_audio_extension name = true ->
     Py.path_join input_path name ∈ Transcribe.processed (run_on listdir)) /\
  (forall listdir', listdir' input_path ≡ₚ listdir input_path ->
     Transcribe.processed (run_on listdir') = Transcribe.processed (run_on listdir)).
Proof.
  intros run_on out Hf Hd.
  pose proof (select_files_directory w input_path output_dir Hf Hd listdir) as Hsel.
  fold out in Hsel.
  set (files := Transcribe.globbed input_path (listdir input_path)) in *.
  assert (Hshape : Transcribe.processed (run_on listdir) = [] \/
                   Transcribe.processed (run_on listdir) = merge_sort String.le files).
  { unfold Transcribe.processed, run_on.
    destruct (calls_shape listdir engine json_dumps mkdir_ok load_model_ok write_ok
                w input_path language model output_dir fmt)
      as [E|(files0 & out0 & Hsel0 & E)]; rewrite E; [now left|right].
    rewrite Hsel in Hsel0. injection Hsel0 as <- <-. apply processed_of_calls. }
  split; [|split; [|split]].
  - destruct Hshape as [-> | ->]; [constructor | apply Sorted_merge_sort, _].
  - intros file Hin. destruct Hshape as [E|E]; rewrite E in Hin.
    + now apply elem_of_nil in Hin.
    + rewrite merge_sort_Permutation in Hin. now apply elem_of_globbed in Hin.
  - intros Hdir Hmodel name Hname Hext.
    assert (Hin : Py.path_join input_path name ∈ files)
      by (apply elem_of_globbed; eauto).
    unfold Transcribe.processed, run_on.
    rewrite (calls_reached listdir engine json_dumps mkdir_ok load_model_ok write_ok
               w input_path language model output_dir fmt files out); try done.
    + rewrite processed_of_calls. now rewrite merge_sort_Permutation.
    + intros E. rewrite E in Hin. now apply elem_of_nil in Hin.
  - intros listdir' Hperm. unfold run_on. f_equal.
    now apply run_order_independent.
Qed.

Lemma C5_directory_files_sorted_witness :
  let run_on listing :=
    Transcribe.transcribe_audio_files listing Demo.engine Demo.no_json
      Demo.always Demo.always Demo.always Demo.dir_fs "d" "auto" "base" None "txt" in
  FS.is_file Demo.dir_fs "d" = false /\ FS.is_dir Demo.dir_fs "d" = true /\
  Sorted String.le (Transcribe.processed (run_on Demo.listing)) /\
  Transcribe.processed (run_on (fun _ => ["a.mp3"; "notes.txt"; "TALK.MP3"; "b.wav"]))
  = Transcribe.processed (run_on Demo.listing).
Proof.
  intros run_on.
  assert (Hf : FS.is_file Demo.dir_fs "d" = false) by reflexivity.
  assert (Hd : FS.is_dir Demo.dir_fs "d" = true) by reflexivity.
  destruct (C5_directory_files_sorted Demo.listing Demo.engine Demo.no_json
              Demo.always Demo.always Demo.always Demo.dir_fs "d" "auto" "base"
              None "txt" Hf Hd) as (Hsorted & _ & _ & Hperm).
  split; [exact Hf|]. split; [exact Hd|]. split; [exact Hsorted|].
  exact (Hperm (fun _ => ["a.mp3"; "notes.txt"; "TALK.MP3"; "b.wav"])
           (Permutation_sym
              (Permutation_rev ["b.wav"; "TALK.MP3"; "notes.txt"; "a.mp3"]))).
Defined.

(** C5 as written fails: a file whose extension is in capitals has a
    known extension when case is ignored, and is not processed. *)
Lemma C5_uppercase_extension_not_processed :
  let r := Transcribe.transcribe_audio_files Demo.listing Demo.engine Demo.no_json
             Demo.always Demo.always Demo.always Demo.dir_fs "d" "auto" "base" None "txt" in
  ~ (forall name, name ∈ Demo.listing "d" ->
       Transcribe.has_audio_extension_nocase name = true ->
       Py.path_join "d" name ∈ Transcribe.processed r).
Proof.
  intros r H.
  specialize (H "TALK.MP3").
  assert (Hin : "TALK.MP3" ∈ Demo.listing "d")
    by (unfold Demo.listing; apply list_elem_of_further, list_elem_of_here).
  specialize (H Hin eq_refl).
  assert (E : Transcribe.processed r = ["d/a.mp3"; "d/b.wav"]) by (vm_compute; reflexivity).
  rewrite E in H.
  apply elem_of_cons in H as [H|H]; [discriminate H|].
  apply elem_of_cons in H as [H|H]; [discriminate H|].
  now apply elem_of_nil in H.
Qed.

(** ** The converter *)

Lemma lower_is_y (s : string) : Py.lower s = "y" <-> s = "y" \/ s = "Y".
Proof.
  split.
  - destruct s as [|c [|d s]]; [discriminate| |discriminate].
    simpl. intros [= H].
    destruct c as [[] [] [] [] [] [] [] []]; vm_compute in H; try discriminate H; auto.
  - intros [-> | ->]; reflexivity.
Qed.

(** C7.  When the output file exists, the converter prompts before
    anything else, and ffmpeg runs only after an answer that lowers to
    [y].  On any other answer the function returns [False] with
    ffmpeg not run and the file system as it was. *)
Theorem C7_overwrite_needs_confirmation {frame : Type}
    (response : option string)
    (ffmpeg : list string -> FS.t frame -> VideoToAudio.ffmpeg_outcome * FS.t frame)
    (w : FS.t frame) (input_file : string) (output_file : option string)
    (audio_format quality : string) :
  let out := default (Py.stem input_file +:+ "." +:+ audio_format) output_file in
  let r := VideoToAudio.convert_video_to_audio response ffmpeg w input_file
             output_file audio_format quality in
  FS.exists_ w input_file = true ->
  FS.exists_ w out = true ->
  (exists prompt rest, VideoToAudio.events r = VideoToAudio.Input prompt :: rest /\
     (rest = [] \/ exists cmd, rest = [VideoToAudio.RunFfmpeg cmd])) /\
  (existsb VideoToAudio.is_run_ffmpeg (VideoToAudio.events r) = true ->
     exists answer, response = Some answer /\ (answer = "y" \/ answer = "Y")) /\
  (forall answer, response = Some answer -> Py.lower answer <> "y" ->
     VideoToAudio.result r = Py.Returned false /\
     existsb VideoToAudio.is_run_ffmpeg (VideoToAudio.events r) = false /\
     VideoToAudio.final r = w).
Proof.
  intros out r Hin Hout. unfold r, VideoToAudio.convert_video_to_audio.
  rewrite Hin. cbn [negb]. fold out. rewrite Hout.
  destruct response as [answer|].
  - destruct (String.eqb_spec (Py.lower answer) "y") as [Hy|Hn]; cbn [negb].
    + unfold VideoToAudio.run_conversion.
      destruct (ffmpeg _ w) as [[| |code err] w']; cbn;
        (split; [eexists _, _; split; [reflexivity|right; eauto]|]);
        (split; [intros _; exists answer; split; [done|now apply lower_is_y]|]);
        intros a [= <-] Ha; contradiction.
    + cbn. split; [eexists _, _; split; [reflexivity|now left]|].
      split; [discriminate|]. auto.
  - cbn. split; [eexists _, _; split; [reflexivity|now left]|].
    split; [discriminate|]. intros a [=].
Qed.

Lemma C7_overwrite_needs_confirmation_witness :
  let r := VideoToAudio.convert_video_to_audio (Some "n") Demo.ffmpeg Demo.video_fs
             "talk.mp4" None "mp3" "192k" in
  FS.exists_ Demo.video_fs "talk.mp4" = true /\
  FS.exists_ Demo.video_fs "talk.mp3" = true /\
  VideoToAudio.result r = Py.Returned false /\
  VideoToAudio.final r = Demo.video_fs.
Proof.
  intros r.
  assert (H1 : FS.exists_ Demo.video_fs "talk.mp4" = true) by (vm_compute; reflexivity).
  assert (H2 : FS.exists_ Demo.video_fs "talk.mp3" = true) by (vm_compute; reflexivity).
  split; [exact H1|]. split; [exact H2|].
  destruct (C7_overwrite_needs_confirmation (Some "n") Demo.ffmpeg Demo.video_fs
              "talk.mp4" None "mp3" "192k" H1 H2) as (_ & _ & Hdecline).
  destruct (Hdecline "n" eq_refl) as (Hres & _ & Hfin); [discriminate|].
  split; [exact Hres | exact Hfin].
Defined.

(** With the answer [y] the same run does overwrite the file. *)
Example accepted_overwrite :
  let r := VideoToAudio.convert_video_to_audio (Some "Y") Demo.ffmpeg Demo.video_fs
             "talk.mp4" None "mp3" "192k" in
  VideoToAudio.result r = Py.Returned true /\
  FS.files (VideoToAudio.final r) !! "talk.mp3" = Some (FS.Audio [4; 5]) /\
  map VideoToAudio.is_run_ffmpeg (VideoToAudio.events r) = [false; true].
Proof. vm_compute. repeat split. Qed.

(** ** The orchestrator *)

Section OrchestratorFacts.
Context {frame : Type}.
Variable child : string -> list string -> FS.t frame -> bool * FS.t frame.
Variable mkdir_ok : string -> bool.

Abbreviation event := ProcessMedia.event.

Lemma stops_at_failure_split (evs pre post : list event) s sargs :
    ProcessMedia.stops_at_failure evs ->
    evs = pre ++ ProcessMedia.RunScript s sargs false :: post -> post = [].
  Proof.
    intros H ->. induction pre as [|e pre IH]; cbn in H; [done|].
    destruct e as [p|s' a' []]; auto.
    now destruct pre.
  Qed.

Lemma existsb_failed_split (evs pre post : list event) s sargs :
    evs = pre ++ ProcessMedia.RunScript s sargs false :: post ->
    existsb ProcessMedia.failed evs = true.
  Proof.
    intros ->. rewrite existsb_app. cbn. now rewrite orb_true_r.
  Qed.
End OrchestratorFacts.

Section OrchestratorRuns.
Context {frame : Type}.
Variable child : string -> list string -> FS.t frame -> bool * FS.t frame.
Variable a : ProcessMedia.args.
Variable w0 : FS.t frame.

Abbreviation healthy := (ProcessMedia.healthy child a w0).
Abbreviation well_run := (ProcessMedia.well_run child a w0).

Lemma replay_app (evs evs' : list ProcessMedia.event) (w : FS.t frame) :
    ProcessMedia.replay child (evs ++ evs') w
    = ProcessMedia.replay child evs' (ProcessMedia.replay child evs w).
  Proof. unfold ProcessMedia.replay. apply fold_left_app. Qed.

Lemma faithful_app (evs evs' : list ProcessMedia.event) (w : FS.t frame) :
    ProcessMedia.faithful child (evs ++ evs') w <->
    ProcessMedia.faithful child evs w /\
    ProcessMedia.faithful child evs' (ProcessMedia.replay child evs w).
  Proof.
    revert w. induction evs as [|e evs IH]; intros w.
    - cbn. tauto.
    - destruct e as [p|s sargs ok]; cbn [app ProcessMedia.faithful].
      + rewrite IH. reflexivity.
      + rewrite IH. cbn. tauto.
  Qed.

Lemma all_ok_stops (evs : list ProcessMedia.event) :
    existsb ProcessMedia.failed evs = false -> ProcessMedia.stops_at_failure evs.
  Proof.
    induction evs as [|e evs IH]; [done|]. cbn.
    intros [He Hevs]%orb_false_iff. destruct e as [p|s sargs []]; auto.
    discriminate He.
  Qed.

Lemma all_ok_then_failure_stops (evs : list ProcessMedia.event) s sargs :
    existsb ProcessMedia.failed evs = false ->
    ProcessMedia.stops_at_failure (evs ++ [ProcessMedia.RunScript s sargs false]).
  Proof.
    induction evs as [|e evs IH]; [done|]. cbn.
    intros [He Hevs]%orb_false_iff. destruct e as [p|s' sargs' []]; auto.
    discriminate He.
  Qed.

Lemma all_ok_no_failure (evs : list ProcessMedia.event) s sargs :
    existsb ProcessMedia.failed evs = false ->
    ProcessMedia.RunScript s sargs false ∉ evs.
  Proof.
    intros H Hin. apply list_elem_of_In in Hin.
    assert (existsb ProcessMedia.failed evs = true); [|congruence].
    apply existsb_exists. eexists. split; [exact Hin|reflexivity].
  Qed.

  (** A run that ends well in a healthy state. *)
Lemma exit_0_well_run (st : ProcessMedia.state) :
    healthy st -> well_run (ProcessMedia.exit 0 st).
  Proof.
    intros (Hok & Hf & Hw & Hd). unfold ProcessMedia.well_run, ProcessMedia.exit.
    cbn [ProcessMedia.events ProcessMedia.result ProcessMedia.final].
    repeat split; auto using all_ok_stops.
    - congruence.
    - intros sargs Hin. now apply all_ok_no_failure in Hin.
  Qed.

  (** One script, started in a healthy state: on success the state
      stays healthy; on failure, stopping there is a good run. *)
Lemma run_script_healthy s sargs (st st' : ProcessMedia.state) (ok : bool) :
    healthy st ->
    ProcessMedia.run_script child s sargs st = (ok, st') ->
    (ok = true -> healthy st') /\
    (ok = false ->
     (s = "video_to_audio.py" -> omap ProcessMedia.event_script st.1 = []) ->
     well_run (ProcessMedia.exit 1 st')).
  Proof.
    intros (Hok & Hf & Hw & Hd). destruct st as [evs w]. cbn [fst snd] in *.
    unfold ProcessMedia.run_script. destruct (child s sargs w) as [ok' w'] eqn:E.
    intros [= <- <-]. subst w.
    assert (Hfaith : ProcessMedia.faithful child
                       (evs ++ [ProcessMedia.RunScript s sargs ok']) w0).
    { apply faithful_app. split; [done|]. cbn. now rewrite E. }
    assert (Hreplay : w' = ProcessMedia.replay child
                             (evs ++ [ProcessMedia.RunScript s sargs ok']) w0).
    { rewrite replay_app. cbn. now rewrite E. }
    assert (Hdirs : forall p,
               p ∈ omap ProcessMedia.event_dir (evs ++ [ProcessMedia.RunScript s sargs ok']) ->
               ProcessMedia.output_dir a = Some p).
    { intros p. rewrite omap_app. cbn. rewrite app_nil_r. apply Hd. }
    split.
    - intros ->. repeat split; cbn [fst snd]; auto.
      rewrite existsb_app, Hok. reflexivity.
    - intros -> Hvideo. unfold ProcessMedia.well_run, ProcessMedia.exit.
      cbn [fst snd ProcessMedia.events ProcessMedia.result ProcessMedia.final].
      repeat split; auto using all_ok_then_failure_stops.
      + discriminate.
      + intros sargs' Hin. unfold ProcessMedia.scripts.
        cbn [ProcessMedia.events]. rewrite omap_app. cbn.
        apply elem_of_app in Hin as [Hin|Hin].
        * now apply all_ok_no_failure in Hin.
        * apply list_elem_of_singleton in Hin. injection Hin as <- _.
          now rewrite Hvideo.
  Qed.
End OrchestratorRuns.

Section OrchestratorSteps.
Context {frame : Type}.
Variable child : string -> list string -> FS.t frame -> bool * FS.t frame.
Variable a : ProcessMedia.args.
Variable w0 : FS.t frame.

Lemma step3_well_run base_name dir input (st : ProcessMedia.state) :
    ProcessMedia.healthy child a w0 st ->
    ProcessMedia.well_run child a w0 (ProcessMedia.step3 child a base_name dir input st).
  Proof.
    intros Hst. unfold ProcessMedia.step3.
    destruct (ProcessMedia.skip_transcription a); cbn [negb];
      [now apply exit_0_well_run|].
    destruct (ProcessMedia.run_script _ _ _ _) as [ok st'] eqn:E.
    destruct (run_script_healthy child a w0 _ _ _ _ _ Hst E) as [Hgood Hbad].
    destruct ok; cbn [negb].
    - now apply exit_0_well_run, Hgood.
    - apply Hbad; [done|discriminate].
  Qed.

Lemma step2_well_run base_name dir input (st : ProcessMedia.state) :
    ProcessMedia.healthy child a w0 st ->
    ProcessMedia.well_run child a w0 (ProcessMedia.step2 child a base_name dir input st).
  Proof.
    intros Hst. unfold ProcessMedia.step2.
    destruct (ProcessMedia.skip_cutting a); cbn [negb];
      [now apply step3_well_run|].
    destruct (ProcessMedia.run_script _ _ _ _) as [ok st'] eqn:E.
    destruct (run_script_healthy child a w0 _ _ _ _ _ Hst E) as [Hgood Hbad].
    destruct ok; cbn [negb].
    - now apply step3_well_run, Hgood.
    - apply Hbad; [done|discriminate].
  Qed.

Lemma step1_well_run base_name dir (st : ProcessMedia.state) :
    ProcessMedia.healthy child a w0 st ->
    omap ProcessMedia.event_script st.1 = [] ->
    ProcessMedia.well_run child a w0 (ProcessMedia.step1 child a base_name dir st).
  Proof.
    intros Hst Hnone. unfold ProcessMedia.step1.
    destruct (ProcessMedia.skip_video_conversion a); cbn [negb];
      [now apply step2_well_run|].
    destruct (ProcessMedia.run_script _ _ _ _) as [ok st'] eqn:E.
    destruct (run_script_healthy child a w0 _ _ _ _ _ Hst E) as [Hgood Hbad].
    destruct ok; cbn [negb].
    - now apply step2_well_run, Hgood.
    - now apply Hbad.
  Qed.

Lemma main_well_run (mkdir_ok : string -> bool) :
    ProcessMedia.well_run child a w0 (ProcessMedia.main child mkdir_ok a w0).
  Proof.
    assert (Hstop : forall r : ProcessMedia.run (frame:=frame),
              ProcessMedia.events r = [] -> ProcessMedia.final r = w0 ->
              ProcessMedia.result r <> Py.Returned 0 ->
              ProcessMedia.well_run child a w0 r).
    { intros r He Hf Hr. unfold ProcessMedia.well_run, ProcessMedia.scripts,
        ProcessMedia.made_dirs. rewrite He, Hf. cbn.
      repeat split; try done.
      - intros p H. now apply elem_of_nil in H.
      - intros s H. now apply elem_of_nil in H. }
    assert (Hstart : ProcessMedia.healthy child a w0 ([], w0)).
    { repeat split. intros p H. now apply elem_of_nil in H. }
    unfold ProcessMedia.main.
    destruct (FS.exists_ w0 _); cbn [negb]; [|now apply Hstop].
    destruct (ProcessMedia.output_dir a) as [dir|] eqn:Hdir;
      [|now apply step1_well_run].
    destruct (String.eqb dir ""); cbn [negb]; [now apply step1_well_run|].
    destruct (FS.mkdir_p _ _ _) as [w1|] eqn:Hmk; [|now apply Hstop].
    apply step1_well_run; [|reflexivity].
    unfold FS.mkdir_p in Hmk. destruct (_ || _); [discriminate|].
    injection Hmk as <-. repeat split.
    intros p H. cbn in H. apply list_elem_of_singleton in H as ->. exact Hdir.
  Qed.
End OrchestratorSteps.

(** C8.  In every run of the orchestrator a script that reports failure
    is the last thing the run does, and the exit status is then 1:
    nothing is started after it.  The file system at the end is the
    one left by the scripts that ran, each in turn, with nothing
    undone; the only directory the orchestrator makes itself is the
    output directory, so a stage that is not started leaves no
    directory behind.  In particular, when the conversion fails, it is
    the only script that ran. *)
Theorem C8_fail_fast {frame : Type}
    (child : string -> list string -> FS.t frame -> bool * FS.t frame)
    (mkdir_ok : string -> bool) (a : ProcessMedia.args) (w : FS.t frame) :
  let r := ProcessMedia.main child mkdir_ok a w in
  (forall pre s sargs post,
     ProcessMedia.events r = pre ++ ProcessMedia.RunScript s sargs false :: post ->
     post = [] /\ ProcessMedia.result r = Py.Returned 1) /\
  ProcessMedia.faithful child (ProcessMedia.events r) w /\
  ProcessMedia.final r = ProcessMedia.replay child (ProcessMedia.events r) w /\
  (forall p, p ∈ ProcessMedia.made_dirs r -> ProcessMedia.output_dir a = Some p) /\
  (forall sargs,
     ProcessMedia.RunScript "video_to_audio.py" sargs false ∈ ProcessMedia.events r ->
     ProcessMedia.scripts r = ["video_to_audio.py"]) /\
  (ProcessMedia.result r = Py.Returned 0 ->
   forall s sargs ok, ProcessMedia.RunScript s sargs ok ∈ ProcessMedia.events r -> ok = true).
Proof.
  intros r.
  destruct (main_well_run child a w mkdir_ok)
    as (Hstop & Hfaith & Hfinal & Hdirs & Hfail & Hgood & Hvideo).
  fold r in Hstop, Hfaith, Hfinal, Hdirs, Hfail, Hgood, Hvideo.
  split.
  { intros pre s sargs post E. split.
    - exact (stops_at_failure_split _ _ _ _ _ Hstop E).
    - apply Hfail. exact (existsb_failed_split _ _ _ _ _ E). }
  split; [exact Hfaith|]. split; [exact Hfinal|]. split; [exact Hdirs|].
  split; [exact Hvideo|].
  intros H0 s sargs ok Hin. destruct ok; [reflexivity|].
  specialize (Hgood H0). apply all_ok_no_failure in Hin; [contradiction|exact Hgood].
Qed.

(** The conversion fails after leaving a partial file: exit status 1,
    no other script, the partial file still there, no directory of a
    later stage. *)
Example failed_conversion_stops_the_pipeline :
  let r := ProcessMedia.main Demo.child Demo.always Demo.pipeline_args Demo.video_fs in
  ProcessMedia.result r = Py.Returned 1 /\
  ProcessMedia.events r
    = [ProcessMedia.Mkdir "out";
       ProcessMedia.RunScript "video_to_audio.py"
         ["talk.mp4"; "-o"; "out/talk.mp3"; "-f"; "mp3"; "-q"; "192k"] false] /\
  FS.files (ProcessMedia.final r) !! "out/talk.mp3" = Some (FS.Bytes "partial") /\
  FS.is_dir (ProcessMedia.final r) "out/talk_chunks" = false /\
  FS.is_dir (ProcessMedia.final r) "out/talk_transcripts" = false.
Proof. vm_compute. repeat split. Qed.

(** C9.  When the input path does not exist, the chunker and the
    converter return [False] and the orchestrator exits with status 1,
    each with an empty trace (no directory made, no file written, no
    prompt, no tool and no script run) and the file system as it was. *)
Theorem C9_missing_input_no_side_effects {frame : Type}
    (w : FS.t frame) (input_file : string)
    (Hmissing : FS.exists_ w input_file = false) :
  (forall mkdir_ok export_ok export_leaves chunk_duration output_dir output_format,
     CutAudio.cut_audio_file mkdir_ok export_ok export_leaves w input_file chunk_duration
       output_dir output_format
     = CutAudio.mk_run (Py.Returned false) [] w) /\
  (forall response ffmpeg output_file audio_format quality,
     VideoToAudio.convert_video_to_audio response ffmpeg w input_file output_file
       audio_format quality
     = VideoToAudio.mk_run (Py.Returned false) [] w) /\
  (forall child mkdir_ok a,
     ProcessMedia.input_file a = input_file ->
     ProcessMedia.main child mkdir_ok a w = ProcessMedia.mk_run (Py.Returned 1) [] w).
Proof.
  split; [|split].
  - intros. unfold CutAudio.cut_audio_file. now rewrite Hmissing.
  - intros. unfold VideoToAudio.convert_video_to_audio. now rewrite Hmissing.
  - intros child mkdir_ok a <-. unfold ProcessMedia.main. now rewrite Hmissing.
Qed.

Lemma C9_missing_input_no_side_effects_witness :
  FS.exists_ Demo.video_fs "absent.mp4" = false /\
  CutAudio.cut_audio_file Demo.always Demo.always Demo.untouched Demo.video_fs "absent.mp4" 10 None "mp3"
    = CutAudio.mk_run (Py.Returned false) [] Demo.video_fs /\
  VideoToAudio.convert_video_to_audio (Some "y") Demo.ffmpeg Demo.video_fs "absent.mp4"
    None "mp3" "192k"
    = VideoToAudio.mk_run (Py.Returned false) [] Demo.video_fs.
Proof.
  assert (H : FS.exists_ Demo.video_fs "absent.mp4" = false) by (vm_compute; reflexivity).
  destruct (C9_missing_input_no_side_effects Demo.video_fs "absent.mp4" H)
    as (Hcut & Hconv & _).
  split; [exact H|]. split; [apply Hcut | apply Hconv].
Defined.


(** * Further properties of the scripts *)

(** ** The chunker: edges and what it leaves alone *)

Section ChunkerEdges.
Context {frame : Type}.
Variable mkdir_ok export_ok : string -> bool.
Variable export_leaves : string -> option string.
Variable w : FS.t frame.
Variable input_file : string.
Variable output_dir : option string.
Variable fmt : string.

Abbreviation the_dir := (default (Py.stem input_file +:+ "_chunks") output_dir).

(** A run that gets to the loop, in one statement. *)
Lemma chunker_run_shape (T : Z) (audio : list frame) (w1 : FS.t frame) :
  CutAudio.load w input_file = Some audio ->
  FS.mkdir_p (mkdir_ok the_dir) the_dir w = Some w1 ->
  0 < T ->
  let D := Z.of_nat (length audio) in
  let r := CutAudio.cut_audio_file mkdir_ok export_ok export_leaves w input_file T output_dir fmt in
  exists N,
    0 <= N /\
    (D * 2 ^ 1075 <= T * 60 * 1000 -> N = 0) /\
    (T * 60 * 1000 < D * 2 ^ 1075 -> (N - 1) * (T * 60 * 1000) < D <= N * (T * 60 * 1000)) /\
    CutAudio.attempts r
      = map (CutAudio.attempt_at export_ok audio (T * 60 * 1000) D the_dir fmt) (Py.range N) /\
    CutAudio.final r = fold_left (CutAudio.round_write export_leaves) (CutAudio.attempts r) w1.
Proof.
  intros Hload Hdir HT D r.
  destruct (ceil_truediv_pos D (T * 60 * 1000) ltac:(unfold D; lia) ltac:(lia))
    as (N & HN & HN0 & Hunder & Hbounds).
  exists N. split; [exact HN0|]. split; [exact Hunder|]. split; [exact Hbounds|].
  pose proof (cut_loaded_shape export_ok export_leaves audio T the_dir fmt
                [CutAudio.Mkdir the_dir] w1 N HN) as Hshape.
  cbv zeta in Hshape.
  pose proof (cut_audio_file_loaded mkdir_ok export_ok export_leaves w w1 input_file T output_dir
                fmt audio Hload Hdir) as E.
  cbv zeta in E. fold r in E. rewrite <- E in Hshape. clear E.
  destruct Hshape as (_ & Hcs & Hfin & _).
  cbn [omap list_omap app] in Hcs. fold D in Hcs.
  split; [exact Hcs|]. now rewrite Hcs.
Qed.

Lemma mkdir_p_effect (ok : bool) (p : string) (w1 : FS.t frame) :
  FS.mkdir_p ok p w = Some w1 ->
  FS.files w1 = FS.files w /\ FS.dirs w1 = FS.created p ∪ FS.dirs w.
Proof.
  unfold FS.mkdir_p. destruct (_ || _); [discriminate|]. now intros [= <-].
Qed.
End ChunkerEdges.

(** A recording no longer than one chunk is exported whole, as the one
    file [part_001], unless the chunk is so much longer than the
    recording that the double quotient of line 71 is zero (the quotient
    has to be above 2^-1075). *)
Theorem chunker_short_audio_one_chunk {frame : Type}
    (mkdir_ok export_ok : string -> bool) (export_leaves : string -> option string) (w : FS.t frame)
    (input_file : string) (T : Z) (output_dir : option string) (fmt : string)
    (audio : list frame) :
  let dir := default (Py.stem input_file +:+ "_chunks") output_dir in
  let D := Z.of_nat (length audio) in
  let r := CutAudio.cut_audio_file mkdir_ok export_ok export_leaves w input_file T output_dir fmt in
  CutAudio.load w input_file = Some audio ->
  is_Some (FS.mkdir_p (mkdir_ok dir) dir w) ->
  0 < D <= T * 60000 ->
  T * 60000 < D * 2 ^ 1075 ->
  exists a, CutAudio.attempts r = [a] /\
    CutAudio.number a = 1 /\ CutAudio.start_ms a = 0 /\ CutAudio.end_ms a = D /\
    CutAudio.chunk a = audio /\
    CutAudio.chunk_path a = Py.path_join dir ("part_001." +:+ fmt).
Proof.
  intros dir D r Hload [w1 Hdir] HD Hquot.
  assert (HT : 0 < T) by lia.
  destruct (chunker_run_shape mkdir_ok export_ok export_leaves w input_file output_dir fmt T audio w1
              Hload Hdir HT) as (N & HN0 & Hu & Hb & Hcs & _).
  fold D r in Hb, Hcs. specialize (Hb ltac:(lia)).
  assert (N = 1) as -> by nia.
  eexists. split; [exact Hcs|]. cbn.
  repeat split; try lia.
  unfold CutAudio.slice. fold D.
  match goal with
  | |- take ?n (drop ?k audio) = audio =>
      replace k with 0%nat by lia; replace n with (length audio) by lia
  end.
  apply firstn_all.
Qed.

Lemma chunker_short_audio_one_chunk_witness :
  let r := CutAudio.cut_audio_file Demo.always Demo.always Demo.untouched Demo.short_fs
             "in.wav" 10 None "mp3" in
  0 < Z.of_nat (length Demo.short_audio) <= 10 * 60000 /\
  10 * 60000 < Z.of_nat (length Demo.short_audio) * 2 ^ 1075 /\
  exists a, CutAudio.attempts r = [a] /\ CutAudio.chunk a = Demo.short_audio /\
            CutAudio.chunk_path a = "in_chunks/part_001.mp3".
Proof.
  intros r. split; [cbn; lia|]. split; [reflexivity|].
  destruct (chunker_short_audio_one_chunk Demo.always Demo.always Demo.untouched Demo.short_fs
              "in.wav" 10 None "mp3" Demo.short_audio eq_refl (ex_intro _ _ eq_refl))
    as (a & Ha & _ & _ & _ & Hc & Hp); [cbn; lia|reflexivity|].
  exists a. split; [exact Ha|]. split; [exact Hc | exact Hp].
Defined.

(** A chunk duration of zero minutes is not caught: after the output
    directory has been made (with the missing directories above it)
    and the input loaded, the division raises [ZeroDivisionError]; no
    chunk is attempted and no file written. *)
Theorem chunker_zero_duration_raises {frame : Type}
    (mkdir_ok export_ok : string -> bool) (export_leaves : string -> option string) (w : FS.t frame)
    (input_file : string) (output_dir : option string) (fmt : string)
    (audio : list frame) :
  let dir := default (Py.stem input_file +:+ "_chunks") output_dir in
  let r := CutAudio.cut_audio_file mkdir_ok export_ok export_leaves w input_file 0 output_dir fmt in
  CutAudio.load w input_file = Some audio ->
  is_Some (FS.mkdir_p (mkdir_ok dir) dir w) ->
  CutAudio.result r = Py.Raised Py.ZeroDivisionError /\
  CutAudio.events r = [CutAudio.Mkdir dir] /\
  FS.files (CutAudio.final r) = FS.files w /\
  FS.dirs (CutAudio.final r) = FS.created dir ∪ FS.dirs w.
Proof.
  intros dir r Hload [w1 Hdir]. unfold r.
  rewrite (cut_audio_file_loaded mkdir_ok export_ok export_leaves w w1 input_file 0 output_dir fmt audio)
    by done.
  destruct (mkdir_p_effect w _ _ _ Hdir) as [Hf Hd].
  unfold CutAudio.cut_loaded. cbn. auto.
Qed.

Lemma chunker_zero_duration_raises_witness :
  let r := CutAudio.cut_audio_file Demo.always Demo.always Demo.untouched Demo.short_fs
             "in.wav" 0 (Some "a/b") "mp3" in
  CutAudio.load Demo.short_fs "in.wav" = Some Demo.short_audio /\
  CutAudio.result r = Py.Raised Py.ZeroDivisionError /\
  FS.is_dir (CutAudio.final r) "a/b" = true /\
  FS.is_dir (CutAudio.final r) "a" = true.
Proof.
  intros r. split; [reflexivity|].
  destruct (chunker_zero_duration_raises Demo.always Demo.always Demo.untouched
              Demo.short_fs "in.wav" (Some "a/b") "mp3" Demo.short_audio
              eq_refl (ex_intro _ _ eq_refl)) as (Hres & _ & _ & Hd).
  fold r in Hres, Hd. split; [exact Hres|].
  unfold FS.is_dir. rewrite Hd. split; vm_compute; reflexivity.
Defined.



Lemma round_write_unsaved {frame : Type} (export_leaves : string -> option string)
    (cs : list (CutAudio.attempt (frame:=frame))) (w : FS.t frame) a :
  NoDup (map CutAudio.chunk_path cs) ->
  a ∈ cs -> CutAudio.saved a = false ->
  FS.files (fold_left (CutAudio.round_write export_leaves) cs w) !! CutAudio.chunk_path a
  = match export_leaves (CutAudio.chunk_path a) with
    | Some bytes => Some (FS.Bytes bytes)
    | None => FS.files w !! CutAudio.chunk_path a
    end.
Proof.
  revert w. induction cs as [|c cs IH]; intros w Hnd Ha Hs.
  - now apply elem_of_nil in Ha.
  - cbn [map] in Hnd. apply NoDup_cons in Hnd as [Hc Hnd]. cbn [fold_left].
    apply elem_of_cons in Ha as [->|Ha].
    + rewrite round_write_other by done.
      unfold CutAudio.round_write, CutAudio.failed_export. rewrite Hs.
      destruct (export_leaves _); [|done]. cbn. apply lookup_insert_eq.
    + rewrite IH by done.
      assert (Hne : CutAudio.chunk_path c <> CutAudio.chunk_path a).
      { intros E. apply Hc. rewrite E. now apply list_elem_of_fmap_2. }
      destruct (export_leaves (CutAudio.chunk_path a)); [done|].
      unfold CutAudio.round_write, CutAudio.failed_export.
      destruct (CutAudio.saved c); [|destruct (export_leaves _); [|done]];
        cbn; now apply lookup_insert_ne.
Qed.

(** The chunker writes chunk files and nothing else: every path that is
    not the path of an attempted chunk holds at the end what it held
    before (the input file among them); the path of a chunk whose
    export failed holds what the failed export left there (the file it
    had opened, empty or partly written), or what it held before when
    the export could not open it; and the new directories are the
    output directory and the directories above it. *)
Theorem chunker_touches_only_chunk_files {frame : Type}
    (mkdir_ok export_ok : string -> bool) (export_leaves : string -> option string) (w : FS.t frame)
    (input_file : string) (T : Z) (output_dir : option string) (fmt : string)
    (audio : list frame) :
  let dir := default (Py.stem input_file +:+ "_chunks") output_dir in
  let r := CutAudio.cut_audio_file mkdir_ok export_ok export_leaves w input_file T output_dir fmt in
  CutAudio.load w input_file = Some audio ->
  is_Some (FS.mkdir_p (mkdir_ok dir) dir w) ->
  0 < T ->
  (forall p, p ∉ map CutAudio.chunk_path (CutAudio.attempts r) ->
     FS.files (CutAudio.final r) !! p = FS.files w !! p) /\
  (forall a, a ∈ CutAudio.attempts r -> CutAudio.saved a = false ->
     FS.files (CutAudio.final r) !! CutAudio.chunk_path a
     = match export_leaves (CutAudio.chunk_path a) with
       | Some bytes => Some (FS.Bytes bytes)
       | None => FS.files w !! CutAudio.chunk_path a
       end) /\
  FS.dirs (CutAudio.final r) = FS.created dir ∪ FS.dirs w.
Proof.
  intros dir r Hload [w1 Hdir] HT.
  destruct (chunker_run_shape mkdir_ok export_ok export_leaves w input_file output_dir fmt T audio w1
              Hload Hdir HT) as (N & HN0 & Hu & Hb & Hcs & Hfin).
  fold r in Hcs, Hfin. destruct (mkdir_p_effect w _ _ _ Hdir) as [Hf Hd].
  split; [|split].
  - intros p Hp. rewrite Hfin, round_write_other by done. now rewrite Hf.
  - intros a Ha Hs. rewrite Hfin, <- Hf. apply round_write_unsaved; try done.
    rewrite Hcs. apply chunk_paths_NoDup.
  - rewrite Hfin, round_write_dirs. exact Hd.
Qed.

Lemma chunker_touches_only_chunk_files_witness :
  let r := CutAudio.cut_audio_file Demo.always (fun _ => false) Demo.emptied Demo.short_fs
             "in.wav" 1 (Some "a/b") "wav" in
  CutAudio.load Demo.short_fs "in.wav" = Some Demo.short_audio /\
  FS.files (CutAudio.final r) !! "in.wav" = Some (FS.Audio Demo.short_audio) /\
  FS.files (CutAudio.final r) !! "a/b/part_001.wav" = Some (FS.Bytes "") /\
  FS.is_dir (CutAudio.final r) "a" = true.
Proof.
  intros r. split; [reflexivity|].
  destruct (chunker_touches_only_chunk_files Demo.always (fun _ => false) Demo.emptied
              Demo.short_fs "in.wav" 1 (Some "a/b") "wav" Demo.short_audio
              eq_refl (ex_intro _ _ eq_refl) eq_refl) as (Hother & Hfailed & Hd).
  fold r in Hother, Hfailed, Hd.
  assert (E : CutAudio.attempts r
              = [CutAudio.mk_attempt 1 0 5 Demo.short_audio "a/b/part_001.wav" false])
    by (vm_compute; reflexivity).
  split; [|split].
  - rewrite Hother; [reflexivity|]. rewrite E. intros H.
    apply list_elem_of_singleton in H. discriminate H.
  - rewrite E in Hfailed.
    exact (Hfailed _ (list_elem_of_here _ _) eq_refl).
  - unfold FS.is_dir. rewrite Hd. vm_compute. reflexivity.
Defined.

(** Every chunk holds as many milliseconds as its span, and every chunk
    but the last holds exactly the chunk duration; the last holds what
    is left, never more than the chunk duration and never nothing. *)
Theorem chunker_chunk_lengths {frame : Type}
    (mkdir_ok export_ok : string -> bool) (export_leaves : string -> option string) (w : FS.t frame)
    (input_file : string) (T : Z) (output_dir : option string) (fmt : string)
    (audio : list frame) :
  let dir := default (Py.stem input_file +:+ "_chunks") output_dir in
  let D := Z.of_nat (length audio) in
  let r := CutAudio.cut_audio_file mkdir_ok export_ok export_leaves w input_file T output_dir fmt in
  let N := Z.of_nat (length (CutAudio.attempts r)) in
  CutAudio.load w input_file = Some audio ->
  is_Some (FS.mkdir_p (mkdir_ok dir) dir w) ->
  0 < T ->
  forall a, a ∈ CutAudio.attempts r ->
    Z.of_nat (length (CutAudio.chunk a)) = CutAudio.end_ms a - CutAudio.start_ms a /\
    (CutAudio.number a < N -> Z.of_nat (length (CutAudio.chunk a)) = T * 60000) /\
    (CutAudio.number a = N ->
       Z.of_nat (length (CutAudio.chunk a)) = D - (N - 1) * (T * 60000)) /\
    0 < Z.of_nat (length (CutAudio.chunk a)) <= T * 60000.
Proof.
  intros dir D r N Hload [w1 Hdir] HT a Ha.
  destruct (chunker_run_shape mkdir_ok export_ok export_leaves w input_file output_dir fmt T audio w1
              Hload Hdir HT) as (n & Hn0 & Hu & Hb & Hcs & _).
  fold r D in Hcs, Hb, Hu.
  assert (HN : N = n) by (unfold N; rewrite Hcs, length_map, range_length; lia).
  rewrite HN. clear N HN. rewrite Hcs in Ha.
  apply list_elem_of_fmap in Ha as (i & -> & Hi). apply elem_of_range in Hi.
  destruct (Z.le_gt_cases (D * 2 ^ 1075) (T * 60 * 1000)) as [Hq|Hq];
    [specialize (Hu Hq); lia|].
  specialize (Hb ltac:(lia)). clear Hu Hq.
  cbn [CutAudio.attempt_at CutAudio.chunk CutAudio.end_ms CutAudio.start_ms
       CutAudio.number].
  unfold CutAudio.slice. rewrite length_take, length_drop. fold D.
  repeat split; nia.
Qed.

Lemma chunker_chunk_lengths_witness :
  let r := CutAudio.cut_audio_file Demo.always Demo.always Demo.untouched Demo.short_fs
             "in.wav" 1 (Some "out") "wav" in
  CutAudio.load Demo.short_fs "in.wav" = Some Demo.short_audio /\
  forall a, a ∈ CutAudio.attempts r ->
    Z.of_nat (length (CutAudio.chunk a)) = CutAudio.end_ms a - CutAudio.start_ms a.
Proof.
  intros r. split; [reflexivity|]. intros a Ha.
  exact (proj1 (chunker_chunk_lengths Demo.always Demo.always Demo.untouched Demo.short_fs
                  "in.wav" 1 (Some "out") "wav" Demo.short_audio
                  eq_refl (ex_intro _ _ eq_refl) eq_refl a Ha)).
Defined.

(** ** From the chunker to the transcriber: the order of the chunk files *)

Lemma ascii_compare_refl (c : ascii) : Ascii.compare c c = Eq.
Proof. unfold Ascii.compare. apply N.compare_refl. Qed.

Lemma compare_common_prefix (p a b : string) :
  String.compare (p +:+ a) (p +:+ b) = String.compare a b.
Proof.
  induction p as [|c p IH]; [done|].
  rewrite !append_cons. simpl. now rewrite ascii_compare_refl.
Qed.

(** Two strings of one length that compare as smaller keep doing so
    whatever follows them. *)
Lemma compare_lt_extend (a b x y : string) :
  String.length a = String.length b ->
  String.compare a b = Lt ->
  String.compare (a +:+ x) (b +:+ y) = Lt.
Proof.
  revert b. induction a as [|c a IH]; intros [|d b] Hlen H; try discriminate.
  rewrite !append_cons. simpl in *.
  destruct (Ascii.compare c d); [|done|discriminate].
  apply IH; [lia|done].
Qed.

Lemma three_digits_step (i : Z) :
  0 <= i < 999 ->
  String.compare (Py.three_digits i) (Py.three_digits (i + 1)) = Lt.
Proof.
  intros Hi.
  pose (P := fun i => match String.compare (Py.three_digits i) (Py.three_digits (i + 1))
                      with Lt => true | _ => false end).
  assert (H : P i = true)
    by (apply (range_forallb P 999 i); [vm_compute; reflexivity | exact Hi]).
  unfold P in H. now destruct (String.compare _ _).
Qed.

Lemma Sorted_map_seq {A : Type} (R : relation A) (f : nat -> A) (n start : nat) :
  (forall k, (start <= k)%nat -> (S k < start + n)%nat -> R (f k) (f (S k))) ->
  Sorted R (map f (seq start n)).
Proof.
  revert start. induction n as [|n IH]; intros start H; [constructor|].
  cbn [seq map]. constructor.
  - apply IH. intros k Hk1 Hk2. apply H; lia.
  - destruct n as [|n]; [constructor|]. cbn [seq map]. constructor. apply H; lia.
Qed.

Section ChunkOrder.
Context {frame : Type}.
Variable export_ok : string -> bool.
Variable export_leaves : string -> option string.
Variable audio : list frame.
Variable T_ms D : Z.
Variable dir fmt : string.

Abbreviation path_of i :=
  (CutAudio.chunk_path (CutAudio.attempt_at export_ok audio T_ms D dir fmt i)).

Lemma chunk_path_prefix :
  exists pre, forall i,
    path_of i = pre +:+ "part_" +:+ Py.format_0d 3 (i + 1) +:+ "." +:+ fmt.
Proof.
  destruct (path_join_prefix dir) as [pre Hpre]. exists pre. intros i.
  cbn [CutAudio.attempt_at CutAudio.chunk_path]. apply Hpre.
Qed.

Lemma chunk_path_step (i : Z) :
  0 <= i < 998 -> String.compare (path_of i) (path_of (i + 1)) = Lt.
Proof.
  intros Hi. destruct chunk_path_prefix as [pre Hpre]. rewrite !Hpre.
  rewrite !compare_common_prefix, !format_0d_three by lia.
  apply compare_lt_extend; [reflexivity|].
  apply three_digits_step. lia.
Qed.

(** Up to 999 chunks, the chunk paths are in ascending order. *)
Lemma chunk_paths_sorted (N : Z) :
  N <= 999 -> Sorted String.le (map (fun i => path_of i) (Py.range N)).
Proof.
  intros HN. unfold Py.range. rewrite map_map.
  apply Sorted_map_seq. intros k _ Hk.
  unfold String.le, String.leb.
  replace (Z.of_nat (S k)) with (Z.of_nat k + 1) by lia.
  rewrite chunk_path_step by lia. exact I.
Qed.

(** The path of chunk 1000 sorts before the path of chunk 101. *)
Lemma chunk_path_1000_before_101 :
  String.compare (path_of 999) (path_of 100) = Lt.
Proof.
  destruct chunk_path_prefix as [pre Hpre]. rewrite !Hpre.
  rewrite !compare_common_prefix.
  change (Py.format_0d 3 (999 + 1)) with "1000".
  change (Py.format_0d 3 (100 + 1)) with "101".
  reflexivity.
Qed.
End ChunkOrder.

(** When the chunker makes at most 999 chunks, sorting the chunk paths
    as the transcriber sorts its files gives them in chunk order,
    whatever order the directory is listed in. *)
Theorem chunk_files_sort_in_chunk_order {frame : Type}
    (mkdir_ok export_ok : string -> bool) (export_leaves : string -> option string) (w : FS.t frame)
    (input_file : string) (T : Z) (output_dir : option string) (fmt : string)
    (audio : list frame) (listed : list string) :
  let dir := default (Py.stem input_file +:+ "_chunks") output_dir in
  let r := CutAudio.cut_audio_file mkdir_ok export_ok export_leaves w input_file T output_dir fmt in
  let paths := map CutAudio.chunk_path (CutAudio.attempts r) in
  CutAudio.load w input_file = Some audio ->
  is_Some (FS.mkdir_p (mkdir_ok dir) dir w) ->
  0 < T ->
  (length (CutAudio.attempts r) <= 999)%nat ->
  listed ≡ₚ paths ->
  merge_sort String.le listed = paths.
Proof.
  intros dir r paths Hload [w1 Hdir] HT Hlen Hperm.
  destruct (chunker_run_shape mkdir_ok export_ok export_leaves w input_file output_dir fmt T audio w1
              Hload Hdir HT) as (N & HN0 & _ & _ & Hcs & _).
  fold r in Hcs.
  assert (HN : N <= 999).
  { rewrite Hcs, length_map, range_length in Hlen. lia. }
  apply (Sorted_unique String.le); try apply _.
  - apply Sorted_merge_sort, _.
  - unfold paths. rewrite Hcs, map_map. now apply chunk_paths_sorted.
  - now rewrite merge_sort_Permutation.
Qed.

Lemma chunk_files_sort_in_chunk_order_witness :
  let r := CutAudio.cut_audio_file Demo.always Demo.always Demo.untouched Demo.short_fs
             "in.wav" 1 (Some "out") "wav" in
  CutAudio.load Demo.short_fs "in.wav" = Some Demo.short_audio /\
  (length (CutAudio.attempts r) <= 999)%nat /\
  merge_sort String.le ["out/part_001.wav"] = map CutAudio.chunk_path (CutAudio.attempts r).
Proof.
  intros r.
  assert (Hlen : (length (CutAudio.attempts r) <= 999)%nat) by (vm_compute; lia).
  split; [reflexivity|]. split; [exact Hlen|].
  apply (chunk_files_sort_in_chunk_order Demo.always Demo.always Demo.untouched Demo.short_fs
           "in.wav" 1 (Some "out") "wav" Demo.short_audio ["out/part_001.wav"]
           eq_refl (ex_intro _ _ eq_refl) eq_refl Hlen).
  reflexivity.
Defined.

(** The bound is sharp: the fourth digit of [part_1000] makes it sort
    before [part_101], so from a thousand chunks on the sorted order is
    no longer the chunk order. *)
Theorem chunk_1000_sorts_before_chunk_101 {frame : Type}
    (export_ok : string -> bool) (audio : list frame) (T_ms D : Z)
    (dir fmt : string) :
  let a := CutAudio.attempt_at export_ok audio T_ms D dir fmt 999 in
  let b := CutAudio.attempt_at export_ok audio T_ms D dir fmt 100 in
  CutAudio.number a = 1000 /\ CutAudio.number b = 101 /\
  CutAudio.chunk_path a = Py.path_join dir ("part_1000." +:+ fmt) /\
  CutAudio.chunk_path b = Py.path_join dir ("part_101." +:+ fmt) /\
  String.compare (CutAudio.chunk_path a) (CutAudio.chunk_path b) = Lt /\
  merge_sort String.le [CutAudio.chunk_path b; CutAudio.chunk_path a]
  = [CutAudio.chunk_path a; CutAudio.chunk_path b].
Proof.
  intros a b.
  pose proof (chunk_path_1000_before_101 export_ok audio T_ms D dir fmt) as Hlt.
  fold a b in Hlt.
  split; [reflexivity|]. split; [reflexivity|].
  split; [reflexivity|]. split; [reflexivity|]. split; [exact Hlt|].
  apply (Sorted_unique String.le); try apply _.
  - apply Sorted_merge_sort, _.
  - repeat constructor. unfold String.le, String.leb. now rewrite Hlt.
  - rewrite merge_sort_Permutation. apply Permutation_swap.
Qed.

(** ** The transcriber: what stops it, and what it counts *)

Section TranscriberAccounting.
Context {frame : Type}.
Variable listdir : string -> list string.
Variable engine : string -> gmap string string -> option Transcribe.transcript.
Variable json_dumps : Transcribe.transcript -> string.
Variable mkdir_ok load_model_ok write_ok : string -> bool.

Abbreviation t_body :=
  (Transcribe.loop_body (frame:=frame) engine json_dumps write_ok).
Abbreviation t_of := (Transcribe.transcript_of engine json_dumps write_ok).

Abbreviation write_all := (Transcribe.write_all (frame:=frame)).

(** One round: the counter moves by one exactly when the round writes,
    and the file system gets that one file. *)
Lemma t_body_round language out fmt s evs (w : FS.t frame) file :
  let st := t_body language out fmt (s, evs, w) file in
  st.1.1 = s + match t_of language out fmt file with Some _ => 1 | None => 0 end /\
  omap Transcribe.event_write st.1.2
    = omap Transcribe.event_write evs ++ option_list (t_of language out fmt file) /\
  st.2 = write_all w (option_list (t_of language out fmt file)).
Proof.
  unfold Transcribe.loop_body, Transcribe.transcript_of.
  destruct (engine _ _) as [res|]; [destruct (Transcribe.render _ _ _) as [[ext content]|];
    [destruct (write_ok _)|]|]; cbn [fst snd]; rewrite omap_app; cbn;
    rewrite ?app_nil_r; repeat split; lia.
Qed.

Lemma t_loop language out fmt files : forall s evs (w : FS.t frame),
  let st := fold_left (t_body language out fmt) files (s, evs, w) in
  st.1.1 = s + Z.of_nat (length (omap (t_of language out fmt) files)) /\
  omap Transcribe.event_write st.1.2
    = omap Transcribe.event_write evs ++ omap (t_of language out fmt) files /\
  st.2 = write_all w (omap (t_of language out fmt) files).
Proof.
  induction files as [|file files IH]; intros s evs w.
  - cbn. rewrite app_nil_r. repeat split. lia.
  - cbn [fold_left].
    destruct (t_body language out fmt (s, evs, w) file) as [[s' evs'] w'] eqn:E.
    pose proof (t_body_round language out fmt s evs w file) as H.
    cbv zeta in H. rewrite E in H. cbn [fst snd] in H. destruct H as (Hs & He & Hw).
    specialize (IH s' evs' w'). cbv zeta in IH. destruct IH as (IHs & IHe & IHw).
    cbv zeta. rewrite IHs, IHe, IHw, Hs, He, Hw. cbn [omap list_omap].
    destruct (t_of language out fmt file) as [[f c]|]; cbn [option_list app length];
      rewrite <- ?app_assoc; cbn [app]; repeat split; try lia; try reflexivity.
Qed.
End TranscriberAccounting.

Lemma omap_length_le {A B : Type} (f : A -> option B) (l : list A) :
  (length (omap f l) <= length l)%nat.
Proof.
  induction l as [|x l IH]; cbn; [lia|]. destruct (f x); cbn; lia.
Qed.

Lemma omap_length_all {A B : Type} (f : A -> option B) (l : list A) :
  length (omap f l) = length l <-> forall x, x ∈ l -> is_Some (f x).
Proof.
  induction l as [|x l IH]; cbn.
  - split; [|done]. intros _ y Hy. now apply elem_of_nil in Hy.
  - pose proof (omap_length_le f l). destruct (f x) as [b|] eqn:E; cbn.
    + split.
      * intros H' y [->|Hy]%elem_of_cons; [rewrite E; eauto|].
        apply IH; [lia|done].
      * intros H'. f_equal. apply IH. intros y Hy. apply H'. now right.
    + split; [lia|]. intros H'.
      destruct (H' x ltac:(left)) as [b Hb]. congruence.
Qed.

Section TranscriberRuns.
Context {frame : Type}.
Variable listdir : string -> list string.
Variable engine : string -> gmap string string -> option Transcribe.transcript.
Variable json_dumps : Transcribe.transcript -> string.
Variable mkdir_ok load_model_ok write_ok : string -> bool.

Abbreviation t_run :=
  (Transcribe.transcribe_audio_files (frame:=frame)
     listdir engine json_dumps mkdir_ok load_model_ok write_ok).

(** A run that gets to the loop, in one statement. *)
Lemma transcriber_run_shape (w w1 : FS.t frame) input_path language model output_dir fmt
    files out :
  Transcribe.select_files listdir w input_path output_dir = Some (files, out) ->
  files <> [] ->
  FS.mkdir_p (mkdir_ok out) out w = Some w1 ->
  load_model_ok model = true ->
  let r := t_run w input_path language model output_dir fmt in
  let sorted := merge_sort String.le files in
  let written := omap (Transcribe.transcript_of engine json_dumps write_ok
                         language out fmt) sorted in
  Transcribe.processed r = sorted /\
  Transcribe.writes r = written /\
  Transcribe.result r = (Z.of_nat (length written) =? Z.of_nat (length sorted)) /\
  Transcribe.final r = Transcribe.write_all w1 written.
Proof.
  intros Hsel Hne Hdir Hmodel r sorted written.
  split.
  { unfold Transcribe.processed, r.
    rewrite (calls_reached listdir engine json_dumps mkdir_ok load_model_ok write_ok
               w input_path language model output_dir fmt files out) by eauto.
    apply processed_of_calls. }
  unfold r, Transcribe.transcribe_audio_files, Transcribe.writes.
  rewrite Hsel, bool_decide_false, Hdir, Hmodel by done. cbn [negb].
  fold sorted.
  pose proof (t_loop engine json_dumps write_ok language out fmt sorted 0
                [Transcribe.Mkdir out; Transcribe.LoadModel model] w1) as H.
  cbv zeta in H.
  destruct (fold_left _ sorted _) as [[s evs] w2].
  cbn [fst snd] in H. destruct H as (Hs & He & Hw).
  cbn [Transcribe.events Transcribe.result Transcribe.final].
  rewrite He, Hs, Hw. fold written. cbn. repeat split.
Qed.
End TranscriberRuns.



(** The transcriber stops before any effect when there is nothing to
    transcribe: a path that is neither a file nor a directory, or a
    directory in which no name ends in one of the five extensions,
    gives [False] with no directory made, no model loaded and no
    engine call. *)
Theorem transcriber_nothing_to_transcribe {frame : Type}
    (listdir : string -> list string)
    (engine : string -> gmap string string -> option Transcribe.transcript)
    (json_dumps : Transcribe.transcript -> string)
    (mkdir_ok load_model_ok write_ok : string -> bool)
    (w : FS.t frame) (input_path language model : string)
    (output_dir : option string) (fmt : string) :
  FS.is_file w input_path = false ->
  (FS.is_dir w input_path = false \/
   forall name, name ∈ listdir input_path -> Transcribe.has_audio_extension name = false) ->
  Transcribe.transcribe_audio_files listdir engine json_dumps
    mkdir_ok load_model_ok write_ok w input_path language model output_dir fmt
  = Transcribe.mk_run false [] w.
Proof.
  intros Hf Hcase. unfold Transcribe.transcribe_audio_files.
  destruct (FS.is_dir w input_path) eqn:Hd.
  - destruct Hcase as [?|Hnone]; [discriminate|].
    rewrite (select_files_directory w input_path output_dir Hf Hd).
    assert (E : Transcribe.globbed input_path (listdir input_path) = []).
    { apply elem_of_nil_inv. intros f Hin.
      apply elem_of_globbed in Hin as (name & Hname & Hext & _).
      rewrite (Hnone name Hname) in Hext. discriminate. }
    rewrite E. reflexivity.
  - unfold Transcribe.select_files. now rewrite Hf, Hd.
Qed.

Lemma transcriber_nothing_to_transcribe_witness :
  FS.is_file Demo.dir_fs "d" = false /\
  Transcribe.transcribe_audio_files (fun _ => ["notes.txt"; "TALK.MP3"]) Demo.engine
    Demo.no_json Demo.always Demo.always Demo.always Demo.dir_fs "d" "auto" "base" None "txt"
  = Transcribe.mk_run false [] Demo.dir_fs.
Proof.
  split; [reflexivity|].
  apply (transcriber_nothing_to_transcribe (fun _ => ["notes.txt"; "TALK.MP3"]));
    [reflexivity|].
  right. intros name Hin.
  apply elem_of_cons in Hin as [->|Hin]; [reflexivity|].
  apply list_elem_of_singleton in Hin as ->. reflexivity.
Defined.

(** Given a single file, the transcriber hands exactly that file to the
    engine, whatever its extension, and writes next to it, in
    [transcripts] under the file's parent, unless told otherwise. *)
Theorem transcriber_single_file {frame : Type}
    (listdir : string -> list string)
    (engine : string -> gmap string string -> option Transcribe.transcript)
    (json_dumps : Transcribe.transcript -> string)
    (mkdir_ok load_model_ok write_ok : string -> bool)
    (w : FS.t frame) (input_path language model : string)
    (output_dir : option string) (fmt : string) :
  let out := default (Py.path_join (Py.parent input_path) "transcripts") output_dir in
  let r := Transcribe.transcribe_audio_files listdir engine json_dumps
             mkdir_ok load_model_ok write_ok w input_path language model output_dir fmt in
  FS.is_file w input_path = true ->
  is_Some (FS.mkdir_p (mkdir_ok out) out w) ->
  load_model_ok model = true ->
  Transcribe.calls r = [(input_path, Transcribe.transcribe_options language)] /\
  Transcribe.writes r
    = option_list (Transcribe.transcript_of engine json_dumps write_ok
                     language out fmt input_path) /\
  (Transcribe.result r = true <->
   is_Some (Transcribe.transcript_of engine json_dumps write_ok language out fmt input_path)).
Proof.
  intros out r Hf [w1 Hdir] Hmodel.
  assert (Hsel : Transcribe.select_files listdir w input_path output_dir
                 = Some ([input_path], out)).
  { unfold Transcribe.select_files. now rewrite Hf. }
  assert (Hsort : merge_sort String.le [input_path] = [input_path]) by reflexivity.
  split.
  { unfold r.
    rewrite (calls_reached listdir engine json_dumps mkdir_ok load_model_ok write_ok
               w input_path language model output_dir fmt [input_path] out) by eauto.
    now rewrite Hsort. }
  destruct (transcriber_run_shape listdir engine json_dumps mkdir_ok load_model_ok
              write_ok w w1 input_path language model output_dir fmt [input_path] out
              Hsel ltac:(discriminate) Hdir Hmodel) as (_ & Hw & Hr & _).
  fold r in Hw, Hr. rewrite Hsort in Hw, Hr. cbn [omap list_omap] in Hw, Hr.
  destruct (Transcribe.transcript_of _ _ _ _ _ _ _) as [[f c]|];
    cbn in Hw, Hr; rewrite Hw, Hr; (split; [reflexivity|]).
  - split; eauto.
  - split; [discriminate|]. intros [x Hx]. discriminate.
Qed.

Lemma transcriber_single_file_witness :
  let r := Transcribe.transcribe_audio_files Demo.listing Demo.engine Demo.no_json
             Demo.always Demo.always Demo.always Demo.video_fs "talk.mp4" "auto" "base"
             None "txt" in
  FS.is_file Demo.video_fs "talk.mp4" = true /\
  Transcribe.calls r = [("talk.mp4", ∅)] /\
  Transcribe.writes r = [("transcripts/talk.txt", "hi")].
Proof.
  intros r.
  assert (Hf : FS.is_file Demo.video_fs "talk.mp4" = true) by (vm_compute; reflexivity).
  destruct (transcriber_single_file Demo.listing Demo.engine Demo.no_json
              Demo.always Demo.always Demo.always Demo.video_fs "talk.mp4" "auto" "base"
              None "txt" Hf (ex_intro _ _ eq_refl) eq_refl) as (Hc & Hw & _).
  split; [exact Hf|]. split; [exact Hc|]. unfold r. rewrite Hw. reflexivity.
Defined.

(** An output format other than [txt], [json], [srt] and [vtt] is found
    out only after the engine has run: every selected file is still
    transcribed, nothing is written, and the result is [False]. *)
Theorem transcriber_unsupported_format {frame : Type}
    (listdir : string -> list string)
    (engine : string -> gmap string string -> option Transcribe.transcript)
    (json_dumps : Transcribe.transcript -> string)
    (mkdir_ok load_model_ok write_ok : string -> bool)
    (w : FS.t frame) (input_path language model : string)
    (output_dir : option string) (fmt : string)
    (files : list string) (out : string) :
  let r := Transcribe.transcribe_audio_files listdir engine json_dumps
             mkdir_ok load_model_ok write_ok w input_path language model output_dir fmt in
  fmt <> "txt" -> fmt <> "json" -> fmt <> "srt" -> fmt <> "vtt" ->
  Transcribe.select_files listdir w input_path output_dir = Some (files, out) ->
  files <> [] ->
  is_Some (FS.mkdir_p (mkdir_ok out) out w) ->
  load_model_ok model = true ->
  Transcribe.processed r = merge_sort String.le files /\
  Transcribe.writes r = [] /\
  Transcribe.result r = false /\
  FS.files (Transcribe.final r) = FS.files w.
Proof.
  intros r H1 H2 H3 H4 Hsel Hne [w1 Hdir] Hmodel.
  destruct (transcriber_run_shape listdir engine json_dumps mkdir_ok load_model_ok
              write_ok w w1 input_path language model output_dir fmt files out
              Hsel Hne Hdir Hmodel) as (Hp & Hw & Hr & Hf).
  fold r in Hp, Hw, Hr, Hf.
  assert (Hnone : forall l,
            omap (Transcribe.transcript_of engine json_dumps write_ok language out fmt) l
            = []).
  { induction l as [|x l IH]; [done|]. cbn [omap list_omap].
    unfold Transcribe.transcript_of at 1, Transcribe.render.
    apply String.eqb_neq in H1, H2, H3, H4. rewrite H1, H2, H3, H4.
    destruct (engine _ _); exact IH. }
  rewrite Hnone in Hw, Hr, Hf.
  split; [exact Hp|]. split; [exact Hw|]. split.
  - rewrite Hr. apply Z.eqb_neq. cbn.
    assert (length (merge_sort String.le files) = length files)
      by (now rewrite merge_sort_Permutation).
    destruct files; [done|]. cbn in *. lia.
  - rewrite Hf. cbn. now destruct (mkdir_p_effect w _ _ _ Hdir).
Qed.

Lemma transcriber_unsupported_format_witness :
  let r := Transcribe.transcribe_audio_files Demo.listing Demo.engine Demo.no_json
             Demo.always Demo.always Demo.always Demo.dir_fs "d" "auto" "base"
             None "pdf" in
  Transcribe.processed r = ["d/a.mp3"; "d/b.wav"] /\
  Transcribe.writes r = [] /\ Transcribe.result r = false.
Proof.
  intros r.
  destruct (transcriber_unsupported_format Demo.listing Demo.engine Demo.no_json
              Demo.always Demo.always Demo.always Demo.dir_fs "d" "auto" "base"
              None "pdf" ["d/a.mp3"; "d/b.wav"] "d/transcripts"
              ltac:(discriminate) ltac:(discriminate) ltac:(discriminate)
              ltac:(discriminate) eq_refl ltac:(discriminate)
              (ex_intro _ _ eq_refl) eq_refl) as (Hp & Hw & Hr & _).
  unfold r. split; [rewrite Hp; vm_compute; reflexivity|].
  split; [exact Hw | exact Hr].
Defined.

(** ** The renderers: accuracy of a time and numbering of the blocks *)

Lemma Qfloor_add_Z (z : Z) (x : Q) : Qfloor (inject_Z z + x) = z + Qfloor x.
Proof.
  pose proof (Qfloor_bounds x) as [H1 H2].
  assert (H : z + Qfloor x <= Qfloor (inject_Z z + x) < z + Qfloor x + 1).
  { apply Qfloor_range. rewrite !inject_Z_plus.
    change (inject_Z 1) with 1%Q. split; lra. }
  lia.
Qed.

(** Minutes and seconds are taken from the same whole number of
    minutes: what [% 60] leaves is what [% 3600] leaves after the
    minutes. *)
Lemma fmod_60_3600 (t : Q) :
  (0 <= t)%Q ->
  (Py.fmod t 60 == Py.fmod t 3600 - 60 * inject_Z (Qfloor (Py.fmod t 3600 / 60)))%Q.
Proof.
  intros Ht. rewrite (fmod_nonneg t 60), (fmod_nonneg t 3600) by lra.
  set (r := (t - 3600 * inject_Z (Qfloor (t / 3600)))%Q).
  assert (E : (t / 60 == inject_Z (60 * Qfloor (t / 3600)) + r / 60)%Q).
  { unfold r. rewrite inject_Z_mult. change (inject_Z 60) with 60%Q. field. }
  rewrite (Qfloor_comp _ _ E), Qfloor_add_Z.
  rewrite inject_Z_plus, inject_Z_mult. change (inject_Z 60) with 60%Q.
  unfold r. ring.
Qed.

(** The time a rendering shows is the time it was made from, to within
    half a millisecond, and exactly so when the time is a whole number
    of milliseconds; this for every time below 2^53 seconds, the range
    in which the double division behind the hours is exact. *)
Theorem rendered_time_is_accurate (t : Q) (Hrange : (0 <= t < inject_Z (2 ^ 53))%Q) :
  exists h m s ms : Z,
    (0 <= h /\ 0 <= m < 60 /\ 0 <= s <= 60 /\ 0 <= ms < 1000) /\
    Transcribe.format_time_srt t
      = Py.format_0d 2 h +:+ ":" +:+ Py.two_digits m +:+ ":" +:+
        Py.two_digits s +:+ "," +:+ Py.three_digits ms /\
    Transcribe.format_time_vtt t
      = Py.format_0d 2 h +:+ ":" +:+ Py.two_digits m +:+ ":" +:+
        Py.two_digits s +:+ "." +:+ Py.three_digits ms /\
    (inject_Z (3600000 * h + 60000 * m + 1000 * s + ms) - (1 # 2) <= t * 1000
     <= inject_Z (3600000 * h + 60000 * m + 1000 * s + ms) + (1 # 2))%Q /\
    (forall k : Z, (t * 1000 == inject_Z k)%Q ->
       3600000 * h + 60000 * m + 1000 * s + ms = k).
Proof.
  assert (Ht : (0 <= t)%Q) by apply Hrange.
  set (h := Qfloor (t / 3600)).
  set (m := Qfloor (Py.fmod t 3600 / 60)).
  set (n := Py.round_half_even (Py.fmod t 60 * 1000)).
  assert (Eh : Py.int_of (Py.floordiv t 3600) = h) by now apply hours_exact.
  pose proof (format_time_srt_fields t Ht) as Hsrt.
  pose proof (format_time_vtt_fields t Ht) as Hvtt.
  destruct (time_fields_range t Ht) as (Hh & Hm & Hn).
  cbv zeta in Hsrt, Hvtt. rewrite Eh in Hh, Hsrt, Hvtt. fold m n in Hm, Hn, Hsrt, Hvtt.
  pose proof (Z.div_mod n 1000 ltac:(lia)) as Hdm.
  pose proof (Z.mod_pos_bound n 1000 ltac:(lia)) as Hmod.
  assert (Hs : 0 <= n / 1000 <= 60).
  { split; [apply Z.div_pos; lia|]. apply Z.div_le_upper_bound; lia. }
  (* the seconds, in thousandths, as a rational *)
  assert (Hsec : (Py.fmod t 60 * 1000
                  == t * 1000 - inject_Z (3600000 * h + 60000 * m))%Q).
  { rewrite fmod_60_3600 by done. fold m. rewrite (fmod_nonneg t 3600) by lra. fold h.
    rewrite inject_Z_plus, !inject_Z_mult.
    change (inject_Z 3600000) with 3600000%Q. change (inject_Z 60000) with 60000%Q.
    ring. }
  assert (Hval : (inject_Z (3600000 * h + 60000 * m + 1000 * (n / 1000) + n mod 1000)
                  == inject_Z (3600000 * h + 60000 * m) + inject_Z n)%Q).
  { rewrite <- inject_Z_plus. replace (3600000 * h + 60000 * m + n)
      with (3600000 * h + 60000 * m + 1000 * (n / 1000) + n mod 1000) by lia.
    reflexivity. }
  exists h, m, (n / 1000), (n mod 1000).
  split; [repeat split; lia|].
  split; [exact Hsrt|].
  split; [exact Hvtt|].
  split.
  - pose proof (round_half_even_near (Py.fmod t 60 * 1000)) as [H1 H2].
    fold n in H1, H2. rewrite Hval. split; lra.
  - intros k Hk.
    assert (En : n = k - (3600000 * h + 60000 * m)).
    { apply round_half_even_int. rewrite Hsec, Hk.
      generalize (3600000 * h + 60000 * m). intros x.
      unfold Qeq, Qminus, Qplus, Qopp, inject_Z. simpl. lia. }
    lia.
Qed.

Lemma rendered_time_is_accurate_witness :
  (0 <= 251 # 2 < inject_Z (2 ^ 53))%Q /\
  exists h m s ms : Z,
    Transcribe.format_time_srt (251 # 2)
      = Py.format_0d 2 h +:+ ":" +:+ Py.two_digits m +:+ ":" +:+
        Py.two_digits s +:+ "," +:+ Py.three_digits ms /\
    3600000 * h + 60000 * m + 1000 * s + ms = 125500.
Proof.
  assert (H : (0 <= 251 # 2 < inject_Z (2 ^ 53))%Q)
    by (split; [vm_compute; discriminate | vm_compute; reflexivity]).
  split; [exact H|].
  destruct (rendered_time_is_accurate (251 # 2) H) as (h & m & s & ms & _ & Hsrt & _ & _ & Hk).
  exists h, m, s, ms. split; [exact Hsrt|]. apply Hk. reflexivity.
Defined.

Lemma join_app (l1 l2 : list string) :
  Transcribe.join (l1 ++ l2) = Transcribe.join l1 +:+ Transcribe.join l2.
Proof.
  induction l1 as [|s l1 IH]; [done|].
  cbn [app]. unfold Transcribe.join in *. cbn [foldr].
  now rewrite IH, append_assoc.
Qed.

Lemma enumerate_app {A : Type} (start : Z) (l1 l2 : list A) :
  Py.enumerate start (l1 ++ l2)
  = Py.enumerate start l1 ++ Py.enumerate (start + Z.of_nat (length l1)) l2.
Proof.
  revert start. induction l1 as [|x l1 IH]; intros start.
  - cbn. now rewrite Z.add_0_r.
  - cbn [app Py.enumerate length]. rewrite IH. do 3 f_equal. lia.
Qed.

Lemma enumerate_lookup {A : Type} (start : Z) (l : list A) (k : nat) (x : A) :
  l !! k = Some x -> Py.enumerate start l !! k = Some (start + Z.of_nat k, x).
Proof.
  revert start k. induction l as [|y l IH]; intros start [|k] H; try done.
  - cbn in *. injection H as ->. do 2 f_equal. lia.
  - cbn in *. rewrite (IH _ _ H). do 2 f_equal. lia.
Qed.

(** SRT blocks are numbered from 1 in segment order, so subtitles
    rendered for more segments continue the numbering; VTT blocks carry
    no number, so a longer sequence only appends blocks.  With no
    segment at all the SRT text is empty and the VTT text is the
    header alone. *)
Theorem renderers_number_and_extend (l1 l2 : list Transcribe.segment) :
  Transcribe.generate_srt [] = "" /\
  Transcribe.generate_vtt [] = "WEBVTT" +:+ Py.nl +:+ Py.nl /\
  Transcribe.generate_srt (l1 ++ l2)
    = Transcribe.generate_srt l1 +:+
      Transcribe.join
        (map (fun '(i, segment) => Transcribe.srt_block i segment)
             (Py.enumerate (1 + Z.of_nat (length l1)) l2)) /\
  Transcribe.generate_vtt (l1 ++ l2)
    = Transcribe.generate_vtt l1 +:+ Transcribe.join (map Transcribe.vtt_block l2) /\
  (forall k segment, l1 !! k = Some segment ->
     Transcribe.srt_blocks l1 !! k
     = Some (Py.str_int (Z.of_nat k + 1) +:+ Py.nl +:+
             Transcribe.format_time_srt (Transcribe.seg_start segment) +:+ " --> " +:+
             Transcribe.format_time_srt (Transcribe.seg_end segment) +:+ Py.nl +:+
             Py.strip (Transcribe.seg_text segment) +:+ Py.nl +:+ Py.nl)).
Proof.
  assert (Hsrt : forall l, Transcribe.generate_srt l
                           = Transcribe.join (Transcribe.srt_blocks l)).
  { intros l. unfold Transcribe.generate_srt, Transcribe.srt_blocks.
    rewrite (fold_left_append _ (fun '(i, segment) => Transcribe.srt_block i segment))
      by (now intros acc [i segment]).
    reflexivity. }
  assert (Hvtt : forall l, Transcribe.generate_vtt l
                           = ("WEBVTT" +:+ Py.nl +:+ Py.nl)
                             +:+ Transcribe.join (map Transcribe.vtt_block l)).
  { intros l. unfold Transcribe.generate_vtt.
    now rewrite (fold_left_append _ Transcribe.vtt_block) by done. }
  split; [reflexivity|]. split; [reflexivity|]. split; [|split].
  - rewrite !Hsrt. unfold Transcribe.srt_blocks.
    now rewrite enumerate_app, map_app, join_app.
  - rewrite !Hvtt, map_app, join_app. now rewrite !append_assoc.
  - intros k segment Hk. unfold Transcribe.srt_blocks.
    rewrite list_lookup_fmap, (enumerate_lookup 1 l1 k segment Hk). cbn.
    unfold Transcribe.srt_block. do 3 f_equal. lia.
Qed.

Lemma renderers_number_and_extend_witness :
  Demo.two_segments !! 1%nat = Some (Transcribe.mk_segment (5 # 2) (251 # 2) "Good bye") /\
  Transcribe.srt_blocks Demo.two_segments !! 1%nat
  = Some ("2" +:+ Py.nl +:+ "00:00:02,500 --> 00:02:05,500" +:+ Py.nl +:+
          "Good bye" +:+ Py.nl +:+ Py.nl).
Proof.
  split; [reflexivity|].
  destruct (renderers_number_and_extend Demo.two_segments []) as (_ & _ & _ & _ & H).
  rewrite (H 1%nat _ eq_refl). vm_compute. reflexivity.
Defined.

(** ** The converter: when ffmpeg runs and what its outcome means *)

(** When the output is absent (no prompt then) or the overwrite is
    accepted, ffmpeg runs exactly once, on the input and output paths,
    with the MP3 encoder for [mp3] and a stream copy for every other
    format; the result is [True] exactly when it exits with status 0,
    and a missing ffmpeg leaves the file system as it was. *)
Theorem converter_runs_ffmpeg_once {frame : Type}
    (response : option string)
    (ffmpeg : list string -> FS.t frame -> VideoToAudio.ffmpeg_outcome * FS.t frame)
    (w : FS.t frame) (input_file : string) (output_file : option string)
    (audio_format quality : string) :
  let out := default (Py.stem input_file +:+ "." +:+ audio_format) output_file in
  let r := VideoToAudio.convert_video_to_audio response ffmpeg w input_file
             output_file audio_format quality in
  let cmd := ["ffmpeg"; "-i"; input_file; "-vn"; "-acodec";
              if String.eqb audio_format "mp3" then "libmp3lame" else "copy";
              "-ab"; quality; "-y"; out] in
  FS.exists_ w input_file = true ->
  (FS.exists_ w out = false \/
   exists answer, response = Some answer /\ (answer = "y" \/ answer = "Y")) ->
  filter (fun e => VideoToAudio.is_run_ffmpeg e) (VideoToAudio.events r)
    = [VideoToAudio.RunFfmpeg cmd] /\
  (FS.exists_ w out = false -> VideoToAudio.events r = [VideoToAudio.RunFfmpeg cmd]) /\
  (VideoToAudio.result r = Py.Returned true <->
   exists stderr, (ffmpeg cmd w).1 = VideoToAudio.Exited 0 stderr) /\
  ((ffmpeg cmd w).1 = VideoToAudio.NotFound ->
   VideoToAudio.result r = Py.Returned false /\ VideoToAudio.final r = w) /\
  ((ffmpeg cmd w).1 <> VideoToAudio.NotFound -> VideoToAudio.final r = (ffmpeg cmd w).2).
Proof.
  intros out r cmd Hin Hgo.
  assert (Hconv : forall evs,
            let c := VideoToAudio.run_conversion ffmpeg w input_file out
                       audio_format quality evs in
            VideoToAudio.events c = evs ++ [VideoToAudio.RunFfmpeg cmd] /\
            (VideoToAudio.result c = Py.Returned true <->
             exists stderr, (ffmpeg cmd w).1 = VideoToAudio.Exited 0 stderr) /\
            ((ffmpeg cmd w).1 = VideoToAudio.NotFound ->
             VideoToAudio.result c = Py.Returned false /\ VideoToAudio.final c = w) /\
            ((ffmpeg cmd w).1 <> VideoToAudio.NotFound ->
             VideoToAudio.final c = (ffmpeg cmd w).2)).
  { intros evs. unfold VideoToAudio.run_conversion. fold cmd.
    destruct (ffmpeg cmd w) as [[| |code err] w']; cbn.
    - repeat split; try done. intros [e He]. discriminate.
    - repeat split; try done. intros [e He]. discriminate.
    - repeat split; try done.
      + intros [= H]. apply Z.eqb_eq in H as ->. eauto.
      + intros [e [= -> _]]. reflexivity. }
  unfold r, VideoToAudio.convert_video_to_audio. rewrite Hin. cbn [negb]. fold out.
  destruct (FS.exists_ w out) eqn:Hout.
  - destruct Hgo as [?|(answer & -> & Hy)]; [discriminate|].
    apply lower_is_y in Hy. rewrite Hy, String.eqb_refl. cbn [negb].
    destruct (Hconv [VideoToAudio.Input
                       ("⚠️  Output file '" +:+ out +:+
                        "' already exists. Overwrite? (y/N): ")])
      as (He & Hr & Hn & Hf).
    rewrite He. repeat split; try done; try apply Hr; try apply Hn; auto.
  - destruct (Hconv []) as (He & Hr & Hn & Hf).
    rewrite He. repeat split; try done; try apply Hr; try apply Hn; auto.
Qed.

Lemma converter_runs_ffmpeg_once_witness :
  let r := VideoToAudio.convert_video_to_audio None Demo.ffmpeg Demo.video_fs
             "talk.mp4" (Some "talk.wav") "wav" "192k" in
  FS.exists_ Demo.video_fs "talk.mp4" = true /\
  FS.exists_ Demo.video_fs "talk.wav" = false /\
  VideoToAudio.events r
  = [VideoToAudio.RunFfmpeg
       ["ffmpeg"; "-i"; "talk.mp4"; "-vn"; "-acodec"; "copy"; "-ab"; "192k"; "-y";
        "talk.wav"]].
Proof.
  intros r.
  assert (H1 : FS.exists_ Demo.video_fs "talk.mp4" = true) by (vm_compute; reflexivity).
  assert (H2 : FS.exists_ Demo.video_fs "talk.wav" = false) by (vm_compute; reflexivity).
  split; [exact H1|]. split; [exact H2|].
  destruct (converter_runs_ffmpeg_once None Demo.ffmpeg Demo.video_fs "talk.mp4"
              (Some "talk.wav") "wav" "192k" H1 (or_introl H2)) as (_ & He & _).
  exact (He H2).
Defined.

(** With the output file in place and standard input at its end, the
    prompt raises [EOFError], which nothing catches: ffmpeg is not run
    and no file changes. *)
Theorem converter_prompt_at_end_of_input {frame : Type}
    (ffmpeg : list string -> FS.t frame -> VideoToAudio.ffmpeg_outcome * FS.t frame)
    (w : FS.t frame) (input_file : string) (output_file : option string)
    (audio_format quality : string) :
  let out := default (Py.stem input_file +:+ "." +:+ audio_format) output_file in
  let r := VideoToAudio.convert_video_to_audio None ffmpeg w input_file
             output_file audio_format quality in
  FS.exists_ w input_file = true ->
  FS.exists_ w out = true ->
  VideoToAudio.result r = Py.Raised Py.EOFError /\
  existsb VideoToAudio.is_run_ffmpeg (VideoToAudio.events r) = false /\
  VideoToAudio.final r = w.
Proof.
  intros out r Hin Hout. unfold r, VideoToAudio.convert_video_to_audio.
  rewrite Hin. cbn [negb]. fold out. rewrite Hout. cbn. auto.
Qed.

Lemma converter_prompt_at_end_of_input_witness :
  FS.exists_ Demo.video_fs "talk.mp4" = true /\
  FS.exists_ Demo.video_fs "talk.mp3" = true /\
  VideoToAudio.result
    (VideoToAudio.convert_video_to_audio None Demo.ffmpeg Demo.video_fs
       "talk.mp4" None "mp3" "192k")
  = Py.Raised Py.EOFError.
Proof.
  assert (H1 : FS.exists_ Demo.video_fs "talk.mp4" = true) by (vm_compute; reflexivity).
  assert (H2 : FS.exists_ Demo.video_fs "talk.mp3" = true) by (vm_compute; reflexivity).
  split; [exact H1|]. split; [exact H2|].
  exact (proj1 (converter_prompt_at_end_of_input Demo.ffmpeg Demo.video_fs "talk.mp4"
                  None "mp3" "192k" H1 H2)).
Defined.

(** ** The orchestrator: the plan it follows *)

Section OrchestratorPlan.
Context {frame : Type}.
Variable child : string -> list string -> FS.t frame -> bool * FS.t frame.
Variable a : ProcessMedia.args.

Abbreviation out_dir := (ProcessMedia.resolved_output_dir a).
Abbreviation base := (Py.stem (ProcessMedia.input_file a)).

Abbreviation follows := (ProcessMedia.follows (frame:=frame) a).

Lemma run_script_trace s sargs (st st' : ProcessMedia.state (frame:=frame)) ok :
  ProcessMedia.run_script child s sargs st = (ok, st') ->
  st'.1 = st.1 ++ [ProcessMedia.RunScript s sargs ok].
Proof.
  destruct st as [evs w]. unfold ProcessMedia.run_script.
  destruct (child s sargs w) as [ok' w']. now intros [= <- <-].
Qed.

Lemma follows_after (plan : list string) r (st st' : ProcessMedia.state (frame:=frame)) e s :
  st'.1 = st.1 ++ [e] ->
  ProcessMedia.planned a e ->
  ProcessMedia.event_script e = Some s ->
  follows plan r st' -> follows (s :: plan) r st.
Proof.
  intros Hst He Hs (l & Hev & Hall & Hpre & Hdone).
  exists (e :: l). rewrite Hev, Hst, <- app_assoc. split; [reflexivity|].
  split; [now constructor|]. cbn [omap list_omap]. rewrite Hs.
  split.
  - destruct Hpre as [k ->]. now exists k.
  - intros H0. now rewrite (Hdone H0).
Qed.

Lemma follows_failed (plan : list string) (st st' : ProcessMedia.state (frame:=frame)) e s :
  st'.1 = st.1 ++ [e] ->
  ProcessMedia.planned a e ->
  ProcessMedia.event_script e = Some s ->
  follows (s :: plan) (ProcessMedia.exit 1 st') st.
Proof.
  intros Hst He Hs. exists [e]. unfold ProcessMedia.exit.
  cbn [ProcessMedia.events ProcessMedia.result]. split; [exact Hst|].
  split; [now repeat constructor|]. cbn [omap list_omap]. rewrite Hs.
  split; [now exists plan|]. discriminate.
Qed.

Lemma follows_done (st : ProcessMedia.state (frame:=frame)) :
  follows [] (ProcessMedia.exit 0 st) st.
Proof.
  exists []. unfold ProcessMedia.exit. cbn. rewrite app_nil_r.
  repeat split; try done.
Qed.

Lemma step3_follows (st : ProcessMedia.state (frame:=frame)) :
  follows (if ProcessMedia.skip_transcription a then [] else ["transcribe_audio.py"])
    (ProcessMedia.step3 child a base out_dir (ProcessMedia.transcription_input_of a) st) st.
Proof.
  unfold ProcessMedia.step3.
  destruct (ProcessMedia.skip_transcription a) eqn:Hskip; cbn [negb];
    [apply follows_done|].
  destruct (ProcessMedia.run_script _ _ _ _) as [ok st'] eqn:E.
  apply run_script_trace in E.
  assert (Hp : ProcessMedia.planned a
                 (ProcessMedia.RunScript "transcribe_audio.py"
                    [ProcessMedia.transcription_input_of a; "-l"; ProcessMedia.language a;
                     "-m"; ProcessMedia.model a; "-o";
                     Py.path_join out_dir (base +:+ "_transcripts");
                     "-f"; ProcessMedia.format a] ok))
    by (right; right; auto).
  destruct ok; cbn [negb].
  - eapply follows_after; [exact E | exact Hp | reflexivity | apply follows_done].
  - eapply follows_failed; [exact E | exact Hp | reflexivity].
Qed.

Lemma step2_follows (st : ProcessMedia.state (frame:=frame)) :
  follows ((if ProcessMedia.skip_cutting a then [] else ["cut_audio.py"]) ++
           (if ProcessMedia.skip_transcription a then [] else ["transcribe_audio.py"]))
    (ProcessMedia.step2 child a base out_dir (ProcessMedia.audio_file_of a) st) st.
Proof.
  unfold ProcessMedia.step2.
  pose proof step3_follows as H3. unfold ProcessMedia.transcription_input_of in H3.
  destruct (ProcessMedia.skip_cutting a) eqn:Hskip; cbn [negb app]; [apply H3|].
  destruct (ProcessMedia.run_script _ _ _ _) as [ok st'] eqn:E.
  apply run_script_trace in E.
  assert (Hp : ProcessMedia.planned a
                 (ProcessMedia.RunScript "cut_audio.py"
                    [ProcessMedia.audio_file_of a; "-d";
                     Py.str_int (ProcessMedia.duration a); "-o";
                     Py.path_join out_dir (base +:+ "_chunks");
                     "-f"; ProcessMedia.audio_format a] ok))
    by (right; left; auto).
  destruct ok; cbn [negb].
  - eapply follows_after; [exact E | exact Hp | reflexivity | apply H3].
  - eapply follows_failed; [exact E | exact Hp | reflexivity].
Qed.

Lemma step1_follows (st : ProcessMedia.state (frame:=frame)) :
  follows (ProcessMedia.planned_scripts a)
    (ProcessMedia.step1 child a base out_dir st) st.
Proof.
  unfold ProcessMedia.step1, ProcessMedia.planned_scripts.
  pose proof step2_follows as H2. unfold ProcessMedia.audio_file_of in H2 |- *.
  destruct (ProcessMedia.skip_video_conversion a) eqn:Hskip; cbn [negb app]; [apply H2|].
  destruct (ProcessMedia.run_script _ _ _ _) as [ok st'] eqn:E.
  apply run_script_trace in E.
  assert (Hp : ProcessMedia.planned a
                 (ProcessMedia.RunScript "video_to_audio.py"
                    [ProcessMedia.input_file a; "-o";
                     Py.path_join out_dir (base +:+ "." +:+ ProcessMedia.audio_format a);
                     "-f"; ProcessMedia.audio_format a; "-q";
                     ProcessMedia.audio_quality a] ok)).
  { left. unfold ProcessMedia.audio_file_of. rewrite Hskip. auto. }
  destruct ok; cbn [negb].
  - eapply follows_after; [exact E | exact Hp | reflexivity | apply H2].
  - eapply follows_failed; [exact E | exact Hp | reflexivity].
Qed.
End OrchestratorPlan.


(** A full run on [talk.mp4] with every script succeeding. *)
Example full_pipeline_trace :
  let r := ProcessMedia.main (fun _ _ w => (true, w)) Demo.always Demo.pipeline_args
             Demo.video_fs in
  ProcessMedia.result r = Py.Returned 0 /\
  ProcessMedia.events r
  = [ProcessMedia.Mkdir "out";
     ProcessMedia.RunScript "video_to_audio.py"
       ["talk.mp4"; "-o"; "out/talk.mp3"; "-f"; "mp3"; "-q"; "192k"] true;
     ProcessMedia.RunScript "cut_audio.py"
       ["out/talk.mp3"; "-d"; "10"; "-o"; "out/talk_chunks"; "-f"; "mp3"] true;
     ProcessMedia.RunScript "transcribe_audio.py"
       ["out/talk_chunks"; "-l"; "en"; "-m"; "base"; "-o"; "out/talk_transcripts";
        "-f"; "srt"] true].
Proof. vm_compute. split; reflexivity. Qed.

(** The output directory is made before the first stage and its failure
    is not caught: the run ends with the exception, no script started.
    An empty output directory on the command line counts as none. *)
Theorem orchestrator_output_directory {frame : Type}
    (child : string -> list string -> FS.t frame -> bool * FS.t frame)
    (mkdir_ok : string -> bool) (a : ProcessMedia.args) (w : FS.t frame) (dir : string) :
  FS.exists_ w (ProcessMedia.input_file a) = true ->
  ProcessMedia.output_dir a = Some dir ->
  (dir <> "" -> FS.mkdir_p (mkdir_ok dir) dir w = None ->
     ProcessMedia.main child mkdir_ok a w = ProcessMedia.mk_run (Py.Raised Py.OSError) [] w) /\
  (dir <> "" -> is_Some (FS.mkdir_p (mkdir_ok dir) dir w) ->
     exists rest, ProcessMedia.events (ProcessMedia.main child mkdir_ok a w)
                  = ProcessMedia.Mkdir dir :: rest /\
                  omap ProcessMedia.event_dir rest = []) /\
  (dir = "" ->
     ProcessMedia.made_dirs (ProcessMedia.main child mkdir_ok a w) = [] /\
     ProcessMedia.resolved_output_dir a = Py.parent (ProcessMedia.input_file a)).
Proof.
  intros Hin Hdir. unfold ProcessMedia.main. rewrite Hin, Hdir. cbn [negb].
  assert (Hstep : forall out (st0 : ProcessMedia.state (frame:=frame)),
            exists rest,
              ProcessMedia.events
                (ProcessMedia.step1 child a (Py.stem (ProcessMedia.input_file a)) out st0)
              = st0.1 ++ rest /\ omap ProcessMedia.event_dir rest = []).
  { intros out st0.
    unfold ProcessMedia.step1, ProcessMedia.step2, ProcessMedia.step3,
      ProcessMedia.run_script, ProcessMedia.exit.
    destruct st0 as [evs w0]. cbn [fst snd].
    repeat match goal with
    | |- context [negb (?f a)] => destruct (f a); cbn [negb]
    | |- context [child ?s ?x ?y] => destruct (child s x y) as [[] ?]; cbn [negb fst snd]
    end;
    rewrite <- ?app_assoc;
    first [ exists []; split; [now rewrite app_nil_r | reflexivity]
          | eexists; split; reflexivity ]. }
  split; [|split].
  - intros Hne Hmk. apply String.eqb_neq in Hne. now rewrite Hne, Hmk.
  - intros Hne [w1 Hmk]. apply String.eqb_neq in Hne. rewrite Hne, Hmk. cbn [negb].
    destruct (Hstep dir ([ProcessMedia.Mkdir dir], w1)) as (rest & He & Hd).
    exists rest. now rewrite He.
  - intros ->. cbn [String.eqb negb]. split.
    + destruct (Hstep (Py.parent (ProcessMedia.input_file a)) ([], w)) as (rest & He & Hd).
      unfold ProcessMedia.made_dirs. now rewrite He.
    + unfold ProcessMedia.resolved_output_dir. now rewrite Hdir.
Qed.

Lemma orchestrator_output_directory_witness :
  FS.exists_ Demo.video_fs "talk.mp4" = true /\
  ProcessMedia.main Demo.child (fun _ => false) Demo.pipeline_args Demo.video_fs
  = ProcessMedia.mk_run (Py.Raised Py.OSError) [] Demo.video_fs.
Proof.
  assert (H : FS.exists_ Demo.video_fs "talk.mp4" = true) by (vm_compute; reflexivity).
  split; [exact H|].
  destruct (orchestrator_output_directory Demo.child (fun _ => false) Demo.pipeline_args
              Demo.video_fs "out" H eq_refl) as (Hfail & _ & _).
  apply Hfail; [discriminate | reflexivity].
Defined.

(** ** Transcripts of files that share a stem *)

Lemma write_all_app {frame : Type} (w : FS.t frame) (l1 l2 : list (string * string)) :
  Transcribe.write_all (Transcribe.write_all w l1) l2 = Transcribe.write_all w (l1 ++ l2).
Proof. unfold Transcribe.write_all. now rewrite fold_left_app. Qed.

(** After a list of writes, a path holds what was written to it last. *)
Lemma write_all_lookup {frame : Type} (w : FS.t frame) (l : list (string * string))
    (p : string) :
  FS.files (Transcribe.write_all w l) !! p
  = match last (filter (fun fc => fc.1 = p) l) with
    | Some fc => Some (FS.Bytes fc.2)
    | None => FS.files w !! p
    end.
Proof.
  induction l as [|[f c] l IH] using rev_ind; [done|].
  rewrite <- write_all_app, filter_app. cbn [Transcribe.write_all fold_left].
  rewrite filter_cons, filter_nil. cbn [fst].
  destruct (decide (f = p)) as [->|Hne].
  - rewrite last_snoc. cbn. apply lookup_insert_eq.
  - rewrite app_nil_r, <- IH. cbn. now apply lookup_insert_ne.
Qed.



(** ** Running the chunker again *)

Lemma FS_eq {frame : Type} (x y : FS.t frame) :
  FS.files x = FS.files y -> FS.dirs x = FS.dirs y -> x = y.
Proof. destruct x, y. cbn. now intros -> ->. Qed.

Lemma rindex_lt (c : ascii) (s : string) (i : nat) :
  Py.rindex c s = Some i -> (i < String.length s)%nat.
Proof.
  revert i. induction s as [|a s IH]; intros i; [discriminate|]. simpl.
  destruct (Py.rindex c s) as [j|].
  - intros [= <-]. specialize (IH j eq_refl). lia.
  - destruct (Ascii.eqb a c); [|discriminate]. intros [= <-]. lia.
Qed.

Lemma length_substring_0 (s : string) : forall i : nat,
  (i <= String.length s)%nat -> String.length (substring 0 i s) = i.
Proof.
  induction s as [|a s IH]; intros [|i] H; simpl in *; try lia.
  rewrite IH; lia.
Qed.

(** The directories above a path have shorter names. *)
Lemma ancestors_upto_length (fuel : nat) : forall p q : string,
  q ∈ FS.ancestors_upto fuel p -> (String.length q < String.length p)%nat.
Proof.
  induction fuel as [|fuel IH]; intros p q Hq; [now apply elem_of_nil in Hq|].
  cbn [FS.ancestors_upto] in Hq.
  destruct (String.eqb (Py.parent p) "." || String.eqb (Py.parent p) "/") eqn:E;
    [now apply elem_of_nil in Hq|].
  assert (Hlen : (String.length (Py.parent p) < String.length p)%nat).
  { unfold Py.parent in *. destruct (Py.rindex "/" p) as [[|i]|] eqn:Hr; try discriminate.
    apply rindex_lt in Hr. rewrite length_substring_0; lia. }
  apply elem_of_cons in Hq as [->|Hq]; [exact Hlen|].
  apply IH in Hq. lia.
Qed.

Lemma ancestors_length (p q : string) :
  q ∈ p :: FS.ancestors p -> (String.length q <= String.length p)%nat.
Proof.
  intros [->|Hq]%elem_of_cons; [lia|].
  apply ancestors_upto_length in Hq. lia.
Qed.

Lemma existsb_agree {A : Type} (f g : A -> bool) (l : list A) :
  (forall x, x ∈ l -> f x = g x) -> existsb f l = existsb g l.
Proof.
  induction l as [|a l IH]; intros H; [done|]. cbn.
  rewrite (H a) by apply list_elem_of_here.
  rewrite IH; [done|]. intros x Hx. apply H. now apply list_elem_of_further.
Qed.

Lemma round_write_twice {frame : Type} (export_leaves : string -> option string)
    (cs : list (CutAudio.attempt (frame:=frame))) (w : FS.t frame) :
  NoDup (map CutAudio.chunk_path cs) ->
  fold_left (CutAudio.round_write export_leaves) cs (fold_left (CutAudio.round_write export_leaves) cs w)
  = fold_left (CutAudio.round_write export_leaves) cs w.
Proof.
  intros Hnd. apply FS_eq; [|now rewrite !round_write_dirs].
  apply map_eq. intros p.
  destruct (decide (p ∈ map CutAudio.chunk_path cs)) as [Hin|Hout].
  - apply list_elem_of_fmap in Hin as (a & -> & Ha).
    destruct (CutAudio.saved a) eqn:Hs.
    + now rewrite !round_write_saved.
    + rewrite !round_write_unsaved by done. now destruct (export_leaves _).
  - now rewrite !round_write_other.
Qed.

(** A chunk file is neither the output directory nor a directory above
    it: its path is longer. *)
Lemma chunk_path_longer {frame : Type} (export_ok : string -> bool)
    (audio : list frame) (T_ms D : Z) (dir fmt : string) (i : Z) :
  (String.length dir
   < String.length
       (CutAudio.chunk_path (CutAudio.attempt_at export_ok audio T_ms D dir fmt i)))%nat.
Proof.
  cbn [CutAudio.attempt_at CutAudio.chunk_path]. unfold Py.path_join.
  destruct (String.eqb_spec dir ".") as [->|_];
    [|destruct (String.eqb dir "/")]; rewrite !append_length; cbn; lia.
Qed.

(** Running the chunker a second time, in the file system the first run
    left, asks nothing and changes nothing: it attempts the same
    chunks, gives the same result and leaves the same files, provided
    no chunk was written over the input itself. *)
Theorem chunker_second_run_is_the_first {frame : Type}
    (mkdir_ok export_ok : string -> bool) (export_leaves : string -> option string) (w : FS.t frame)
    (input_file : string) (T : Z) (output_dir : option string) (fmt : string)
    (audio : list frame) :
  let dir := default (Py.stem input_file +:+ "_chunks") output_dir in
  let r := CutAudio.cut_audio_file mkdir_ok export_ok export_leaves w input_file T output_dir fmt in
  let r' := CutAudio.cut_audio_file mkdir_ok export_ok export_leaves (CutAudio.final r) input_file T
              output_dir fmt in
  CutAudio.load w input_file = Some audio ->
  is_Some (FS.mkdir_p (mkdir_ok dir) dir w) ->
  0 < T ->
  input_file ∉ map CutAudio.chunk_path (CutAudio.attempts r) ->
  CutAudio.attempts r' = CutAudio.attempts r /\
  CutAudio.result r' = CutAudio.result r /\
  CutAudio.final r' = CutAudio.final r.
Proof.
  intros dir r r' Hload [w1 Hdir] HT Hinput.
  destruct (chunker_run_shape mkdir_ok export_ok export_leaves w input_file output_dir fmt T audio w1
              Hload Hdir HT) as (N & HN0 & Hu & Hb & Hcs & Hfin).
  fold r in Hcs, Hfin.
  destruct (mkdir_p_effect w _ _ _ Hdir) as [Hfiles Hdirs].
  assert (Hnd : NoDup (map CutAudio.chunk_path (CutAudio.attempts r)))
    by (rewrite Hcs; apply chunk_paths_NoDup).
  (* the first run left the input and the directory as the second needs them *)
  assert (Hload' : CutAudio.load (CutAudio.final r) input_file = Some audio).
  { unfold CutAudio.load in *. rewrite Hfin, round_write_other by done.
    now rewrite Hfiles. }
  assert (Hdir' : FS.mkdir_p (mkdir_ok dir) dir (CutAudio.final r) = Some (CutAudio.final r)).
  { unfold FS.mkdir_p in *.
    assert (Hsame : existsb (FS.is_file (CutAudio.final r)) (dir :: FS.ancestors dir)
                    = existsb (FS.is_file w) (dir :: FS.ancestors dir)).
    { apply existsb_agree. intros q Hq. apply ancestors_length in Hq.
      unfold FS.is_file. rewrite Hfin, round_write_other, Hfiles; [done|].
      rewrite Hcs, map_map. intros Hin.
      apply list_elem_of_fmap in Hin as (i & Hi & _). rewrite Hi in Hq.
      exact (Nat.lt_irrefl _ (Nat.lt_le_trans _ _ _
               (chunk_path_longer _ _ _ _ _ _ _) Hq)). }
    rewrite Hsame. destruct (_ || _); [discriminate|]. f_equal.
    apply FS_eq; cbn; [done|]. rewrite Hfin, round_write_dirs, Hdirs.
    apply leibniz_equiv. rewrite (assoc_L (∪)), (idemp_L (∪)). reflexivity. }
  pose proof (cut_audio_file_loaded mkdir_ok export_ok export_leaves (CutAudio.final r)
                (CutAudio.final r) input_file T output_dir fmt audio Hload' Hdir') as E.
  cbv zeta in E. fold dir r' in E.
  pose proof (cut_audio_file_loaded mkdir_ok export_ok export_leaves w w1 input_file T output_dir
                fmt audio Hload Hdir) as E0.
  cbv zeta in E0. fold dir r in E0.
  destruct (ceil_truediv_pos (Z.of_nat (length audio)) (T * 60 * 1000)
              ltac:(lia) ltac:(lia)) as (n & Hn & _).
  destruct (cut_loaded_shape export_ok export_leaves audio T dir fmt [CutAudio.Mkdir dir]
              (CutAudio.final r) n Hn) as (Hr1 & Ha1 & Hf1 & _).
  destruct (cut_loaded_shape export_ok export_leaves audio T dir fmt [CutAudio.Mkdir dir] w1 n Hn)
    as (Hr0 & Ha0 & Hf0 & _).
  rewrite <- E in Hr1, Ha1, Hf1. rewrite <- E0 in Hr0, Ha0, Hf0.
  split; [now rewrite Ha1, Ha0|]. split; [now rewrite Hr1, Hr0|].
  rewrite Hf1, Hf0. apply round_write_twice, chunk_paths_NoDup.
Qed.

Lemma chunker_second_run_is_the_first_witness :
  let r := CutAudio.cut_audio_file Demo.always Demo.always Demo.untouched Demo.short_fs
             "in.wav" 1 (Some "out") "wav" in
  CutAudio.load Demo.short_fs "in.wav" = Some Demo.short_audio /\
  CutAudio.final
    (CutAudio.cut_audio_file Demo.always Demo.always Demo.untouched (CutAudio.final r)
       "in.wav" 1 (Some "out") "wav")
  = CutAudio.final r.
Proof.
  intros r. split; [reflexivity|].
  assert (Hin : "in.wav" ∉ map CutAudio.chunk_path (CutAudio.attempts r)).
  { assert (E : map CutAudio.chunk_path (CutAudio.attempts r) = ["out/part_001.wav"])
      by (vm_compute; reflexivity).
    rewrite E. intros H. apply list_elem_of_singleton in H. discriminate H. }
  exact (proj2 (proj2 (chunker_second_run_is_the_first Demo.always Demo.always Demo.untouched
                         Demo.short_fs "in.wav" 1 (Some "out") "wav" Demo.short_audio
                         eq_refl (ex_intro _ _ eq_refl) eq_refl Hin))).
Defined.

(** ** Where the default outputs go *)

Abbreviation no_slash s :=
  (Py.string_forall (fun c => negb (Ascii.eqb c "/")) s = true).

Lemma rindex_None (c : ascii) (s : string) :
  Py.rindex c s = None <-> Py.string_forall (fun x => negb (Ascii.eqb x c)) s = true.
Proof.
  induction s as [|a s IH]; [done|]. simpl.
  destruct (Py.rindex c s) as [i|].
  - split; [discriminate|]. intros [_ H]%andb_true_iff.
    apply IH in H. discriminate.
  - destruct (Ascii.eqb a c); simpl; [split; discriminate|].
    split; [intros _|done]. now apply IH.
Qed.

Lemma substring_forall (p : ascii -> bool) (s : string) : forall n m,
  Py.string_forall p s = true -> Py.string_forall p (substring n m s) = true.
Proof.
  induction s as [|a s IH]; intros [|n] [|m] H; simpl in *; try done.
  - apply andb_true_iff in H as [Ha Hs]. now rewrite Ha, IH.
  - apply andb_true_iff in H as [Ha Hs]. now apply IH.
  - apply andb_true_iff in H as [Ha Hs]. now apply IH.
Qed.

(** What follows the last occurrence of a character is free of it. *)
Lemma rindex_Some_tail (c : ascii) (s : string) (i : nat) :
  Py.rindex c s = Some i ->
  Py.string_forall (fun x => negb (Ascii.eqb x c))
    (substring (S i) (String.length s - S i) s) = true.
Proof.
  revert i. induction s as [|a s IH]; intros i; [discriminate|]. simpl Py.rindex.
  destruct (Py.rindex c s) as [j|] eqn:E.
  - intros [= <-]. simpl. now apply IH.
  - destruct (Ascii.eqb a c); [|discriminate]. intros [= <-]. simpl.
    rewrite Nat.sub_0_r. apply substring_forall. now apply rindex_None.
Qed.

Lemma basename_no_slash (p : string) : no_slash (Py.basename p).
Proof.
  unfold Py.basename. destruct (Py.rindex "/" p) as [i|] eqn:E.
  - now apply rindex_Some_tail.
  - now apply rindex_None.
Qed.

Lemma stem_no_slash (p : string) : no_slash (Py.stem p).
Proof.
  unfold Py.stem. pose proof (basename_no_slash p) as H.
  destruct (Py.rindex "." (Py.basename p)) as [i|]; [|exact H].
  destruct (_ && _); [|exact H]. now apply substring_forall.
Qed.

Lemma parent_no_slash (s : string) : no_slash s -> Py.parent s = ".".
Proof.
  intros H. unfold Py.parent. apply rindex_None in H. now rewrite H.
Qed.

(** A name without a slash has no directory above it to be made. *)
Lemma created_no_slash (s : string) : no_slash s -> FS.created s = {[ s ]}.
Proof.
  intros H. unfold FS.created, FS.ancestors.
  destruct (String.length s); cbn [FS.ancestors_upto].
  - apply leibniz_equiv. cbn. now rewrite (right_id ∅ (∪)).
  - rewrite parent_no_slash by done. apply leibniz_equiv. cbn.
    now rewrite (right_id ∅ (∪)).
Qed.

(** Without an explicit output, the chunker and the converter write in
    the current directory, wherever the input lies: the chunk directory
    [<stem>_chunks] and the audio file [<stem>.<format>] have no
    directory part.  (The transcriber, in contrast, defaults to a
    directory beside its input.) *)
Theorem default_outputs_are_in_the_current_directory {frame : Type}
    (w : FS.t frame) (input_file : string) :
  (forall mkdir_ok export_ok export_leaves T fmt audio,
     let dir := Py.stem input_file +:+ "_chunks" in
     let r := CutAudio.cut_audio_file mkdir_ok export_ok export_leaves w input_file T None fmt in
     CutAudio.load w input_file = Some audio ->
     is_Some (FS.mkdir_p (mkdir_ok dir) dir w) ->
     0 < T ->
     Py.parent dir = "." /\
     FS.dirs (CutAudio.final r) = {[ dir ]} ∪ FS.dirs w /\
     (forall a, a ∈ CutAudio.attempts r ->
        exists name, CutAudio.chunk_path a = Py.path_join dir name)) /\
  (forall response ffmpeg audio_format quality,
     let out := Py.stem input_file +:+ "." +:+ audio_format in
     let r := VideoToAudio.convert_video_to_audio response ffmpeg w input_file None
                audio_format quality in
     FS.exists_ w input_file = true ->
     FS.exists_ w out = false ->
     no_slash audio_format ->
     Py.parent out = "." /\
     exists cmd, VideoToAudio.events r = [VideoToAudio.RunFfmpeg cmd] /\
                 last cmd = Some out).
Proof.
  pose proof (stem_no_slash input_file) as Hstem. split.
  - intros mkdir_ok export_ok export_leaves T fmt audio dir r Hload [w1 Hdir] HT.
    destruct (chunker_run_shape mkdir_ok export_ok export_leaves w input_file None fmt T audio w1
                Hload Hdir HT) as (N & _ & _ & _ & Hcs & Hfin).
    fold r in Hcs, Hfin. destruct (mkdir_p_effect w _ _ _ Hdir) as [_ Hd].
    assert (Hdir_name : no_slash dir)
      by (unfold dir; now rewrite string_forall_app, Hstem).
    split; [|split].
    + now apply parent_no_slash.
    + rewrite Hfin, round_write_dirs, Hd. now rewrite created_no_slash.
    + intros a Ha. rewrite Hcs in Ha. apply list_elem_of_fmap in Ha as (i & -> & _).
      eexists. reflexivity.
  - intros response ffmpeg audio_format quality out r Hin Hout Hfmt.
    split.
    + apply parent_no_slash. unfold out. now rewrite !string_forall_app, Hstem, Hfmt.
    + unfold r, VideoToAudio.convert_video_to_audio. rewrite Hin. cbn [negb default].
      fold out. rewrite Hout. unfold VideoToAudio.run_conversion.
      destruct (ffmpeg _ w) as [[| |code err] w']; cbn; eexists; split; reflexivity.
Qed.

Lemma default_outputs_are_in_the_current_directory_witness :
  CutAudio.load Demo.short_fs "in.wav" = Some Demo.short_audio /\
  Py.parent (Py.stem "in.wav" +:+ "_chunks") = "." /\
  FS.dirs (CutAudio.final
             (CutAudio.cut_audio_file Demo.always Demo.always Demo.untouched Demo.short_fs
                "in.wav" 1 None "mp3"))
  = {[ "in_chunks" ]} ∪ FS.dirs Demo.short_fs.
Proof.
  split; [reflexivity|].
  destruct (default_outputs_are_in_the_current_directory Demo.short_fs "in.wav")
    as [Hcut _].
  destruct (Hcut Demo.always Demo.always Demo.untouched 1 "mp3" Demo.short_audio
              eq_refl (ex_intro _ _ eq_refl) eq_refl) as (Hp & Hd & _).
  split; [exact Hp | exact Hd].
Defined.

(** ** A negative chunk duration *)

Lemma Qceiling_truediv_neg (a b : Z) :
  b < 0 -> Qceiling (inject_Z a / inject_Z b) = - (a / - b).
Proof.
  intros Hb. destruct b as [|p|p]; try lia.
  unfold Qceiling, Qfloor, Qopp, Qdiv, Qmult, Qinv, inject_Z. simpl.
  f_equal. f_equal. lia.
Qed.

(** A negative chunk duration is not rejected: no chunk is attempted
    and no file is written, and the chunker still reports success when
    the recording is shorter than the duration's absolute value. *)
Theorem chunker_negative_duration {frame : Type}
    (mkdir_ok export_ok : string -> bool) (export_leaves : string -> option string) (w : FS.t frame)
    (input_file : string) (T : Z) (output_dir : option string) (fmt : string)
    (audio : list frame) :
  let dir := default (Py.stem input_file +:+ "_chunks") output_dir in
  let D := Z.of_nat (length audio) in
  let r := CutAudio.cut_audio_file mkdir_ok export_ok export_leaves w input_file T output_dir fmt in
  CutAudio.load w input_file = Some audio ->
  is_Some (FS.mkdir_p (mkdir_ok dir) dir w) ->
  T < 0 ->
  CutAudio.attempts r = [] /\
  FS.files (CutAudio.final r) = FS.files w /\
  (CutAudio.result r = Py.Returned true <-> D < - T * 60000) /\
  (CutAudio.result r = Py.Returned false <-> - T * 60000 <= D).
Proof.
  intros dir D r Hload [w1 Hdir] HT.
  set (N := - (D / - (T * 60 * 1000))).
  assert (HN : CutAudio.ceil_truediv D (T * 60 * 1000) = Py.Returned N).
  { unfold CutAudio.ceil_truediv. destruct (Z.eqb_spec (T * 60 * 1000) 0); [lia|].
    destruct (Z.leb_spec (Z.abs D * 2 ^ 1075) (Z.abs (T * 60 * 1000))) as [Hu|Hu].
    - f_equal. unfold N. rewrite Z.div_small; [reflexivity|]. unfold D in *. lia.
    - now rewrite Qceiling_truediv_neg by lia. }
  assert (Hle : N <= 0).
  { unfold N. pose proof (Z.div_pos D (- (T * 60 * 1000)) ltac:(lia) ltac:(lia)). lia. }
  assert (Hzero : N = 0 <-> D < - T * 60000).
  { unfold N. split.
    - intros H. assert (H0 : D / - (T * 60 * 1000) = 0) by lia.
      apply Z.div_small_iff in H0; lia.
    - intros H. rewrite Z.div_small by lia. reflexivity. }
  pose proof (cut_loaded_shape export_ok export_leaves audio T dir fmt [CutAudio.Mkdir dir] w1 N HN)
    as Hshape.
  cbv zeta in Hshape.
  pose proof (cut_audio_file_loaded mkdir_ok export_ok export_leaves w w1 input_file T output_dir
                fmt audio Hload Hdir) as E.
  cbv zeta in E. fold dir r in E. rewrite <- E in Hshape. clear E.
  assert (Hrange : Py.range N = []).
  { unfold Py.range. now replace (Z.to_nat N) with 0%nat by lia. }
  rewrite Hrange in Hshape.
  cbn [map foldr omap list_omap app fold_left] in Hshape.
  destruct Hshape as (Hres & Hcs & Hfin & _).
  destruct (mkdir_p_effect w _ _ _ Hdir) as [Hfiles _].
  split; [exact Hcs|]. split; [now rewrite Hfin|].
  rewrite Hres. destruct (Z.eqb_spec 0 N) as [E0|E0].
  - assert (Hlt : D < - T * 60000) by (apply Hzero; lia).
    split; split; intros H; first [done | lia | discriminate].
  - assert (Hge : - T * 60000 <= D).
    { destruct (Z.lt_ge_cases D (- T * 60000)) as [Hlt|Hge]; [|exact Hge].
      apply Hzero in Hlt. lia. }
    split; split; intros H; first [done | lia | discriminate].
Qed.

Lemma chunker_negative_duration_witness :
  let r := CutAudio.cut_audio_file Demo.always Demo.always Demo.untouched Demo.short_fs
             "in.wav" (-1) None "mp3" in
  CutAudio.load Demo.short_fs "in.wav" = Some Demo.short_audio /\
  -1 < 0 /\
  CutAudio.attempts r = [] /\ CutAudio.result r = Py.Returned true.
Proof.
  intros r. split; [reflexivity|]. split; [lia|].
  destruct (chunker_negative_duration Demo.always Demo.always Demo.untouched Demo.short_fs
              "in.wav" (-1) None "mp3" Demo.short_audio
              eq_refl (ex_intro _ _ eq_refl) eq_refl) as (Ha & _ & Ht & _).
  split; [exact Ha|]. apply Ht. cbn. lia.
Defined.
